(** * Reverse-diffusion samplers (PLMS / DDIM) of the ControlNet server

    A shallow embedding of [deployment/server/controlnet/1/sampler.py]:
    the guided denoise evaluator, the shared reconstruction sub-step, the
    two step integrators, the schedule builder and the sampling loop
    driver, followed by the properties of the specification proved on
    that embedding.

    Conventions of the embedding.
    - Tensors are an abstract type [T] with the elementwise operations of
      torch ([Tensor]).  Arithmetic broadcasts, so a coefficient filled
      into a [(b,1,1,1)] tensor is represented by its entry.
    - Python floats (guidance scale, eta, temperature, ...) are binary64
      values, Rocq's primitive [float]; Python ints are [Z].
    - [self] is the attribute dictionary written by [setattr]: a
      [gmap string Attr].
    - The inference services and the helpers of [.utils] are collaborators
      ([Env]); every call to a service is recorded, with its reply, in a
      trace of events.
    - A Python exception is a result [Raise e]; code runs in a state and
      error monad [M] over the attribute dictionary and the trace. *)

From Stdlib Require Import ZArith Floats Lia.
From stdpp Require Import base option list gmap strings pretty.

Set Default Proof Using "Type".
Set Warnings "-inexact-float,-register-all".
Local Open Scope string_scope.
Local Open Scope list_scope.
Local Open Scope Z_scope.

(** ** Tensor arithmetic *)

(** The elementwise torch / numpy operations the sampler uses. *)
Class Tensor (T : Type) : Type := {
  tadd : T → T → T;
  tsub : T → T → T;
  tmul : T → T → T;
  tdiv : T → T → T;
  tpow : T → Z → T;
  tsqrt : T → T;
  tlog : T → T;
  (** a Python number used as an operand of a tensor operation *)
  tscal : float → T;
}.

Declare Scope tensor_scope.
Delimit Scope tensor_scope with t.
Infix "+" := tadd : tensor_scope.
Infix "-" := tsub : tensor_scope.
Infix "*" := tmul : tensor_scope.
Infix "/" := tdiv : tensor_scope.
Notation "# f" := (tscal f%float) (at level 5, format "# f") : tensor_scope.

(** ** Exceptions, events and the monad *)

Inductive PyError : Type :=
  | AssertionError
  | ValueError (msg : string)
  | AttributeError (name : string)
  | IndexError
  | TypeError
  | ZeroDivisionError
  | OverflowError
  | UnboundLocalError (name : string).

Inductive Result (A : Type) : Type :=
  | Ok (a : A)
  | Raise (e : PyError).
Arguments Ok {A} a.
Arguments Raise {A} e.

(** [Sampler = Enum("Sampler", ["PLMS", "DDIM"])] *)
Inductive Sampler : Type := PLMS | DDIM.

(** The conditioning dictionary: the cross-attention context and the
    optional structural hint ([None] when absent). *)
Record Conditioning (T : Type) : Type := {
  c_crossattn : T;
  c_concat : option T;
}.
Arguments c_crossattn {T} _.
Arguments c_concat {T} _.

(** The key that a conditioning dictionary lists first: the entry that
    the head of [sample] looks at. *)
Inductive FirstKey : Type := FirstCrossattn | FirstConcat.

(** The request sent to the control service. *)
Record ControlArgs (T : Type) : Type := {
  carg_x : T;
  carg_t : Z;
  carg_context : T;
  carg_hint : T;
}.
Arguments Build_ControlArgs {T}.

(** The request sent to the denoising service: [x], [t], [context] and
    the entries [control_0 .. control_k] in order. *)
Record UNetArgs (T : Type) : Type := {
  arg_x : T;
  arg_t : Z;
  arg_context : T;
  arg_controls : list T;
}.
Arguments Build_UNetArgs {T}.
Arguments arg_x {T} _.
Arguments arg_t {T} _.
Arguments arg_context {T} _.
Arguments arg_controls {T} _.

(** One interaction with a collaborator, together with its reply. *)
Inductive Event (T : Type) : Type :=
  | EvControlInfer (a : ControlArgs T) (reply : gmap string T)
  | EvModelInfer (a : UNetArgs T) (logits : T)
  | EvModifyScore (e_t x : T) (t : Z) (out : T)
  | EvNoiseLike (repeat_noise : bool) (out : T)
  | EvDropout (noise : T) (p : float) (out : T)
  | EvRandn (shape : list Z) (out : T)
  | EvQSample (x0 : T) (ts : Z) (out : T)
  | EvCallback (i : Z)
  | EvImgCallback (pred_x0 : T) (i : Z).
Arguments EvControlInfer {T}.
Arguments EvModelInfer {T}.
Arguments EvModifyScore {T}.
Arguments EvNoiseLike {T}.
Arguments EvDropout {T}.
Arguments EvRandn {T}.
Arguments EvQSample {T}.
Arguments EvCallback {T}.
Arguments EvImgCallback {T}.

(** A value stored on [self]: the timestep plan, a coefficient table or
    a name. *)
Inductive Attr (T : Type) : Type :=
  | AInts (l : list Z)
  | ATable (l : list T)
  | AStr (v : string).
Arguments AInts {T}.
Arguments ATable {T}.
Arguments AStr {T}.

Record State (T : Type) : Type := {
  self_attrs : gmap string (Attr T);
  trace : list (Event T);
}.
Arguments Build_State {T}.
Arguments self_attrs {T} _.
Arguments trace {T} _.

Definition M (T A : Type) : Type := State T → Result A * State T.

Global Instance M_ret {T} : MRet (M T) := λ A a s, (Ok a, s).
Global Instance M_bind {T} : MBind (M T) := λ A B k m s,
  match m s with
  | (Ok a, s') => k a s'
  | (Raise e, s') => (Raise e, s')
  end.

Definition raise {T A} (e : PyError) : M T A := λ s, (Raise e, s).

(** [assert cond] *)
Definition py_assert {T} (b : bool) : M T unit :=
  if b then mret () else raise AssertionError.

(** Lift a pure fallible computation. *)
Definition lift {T A} (r : Result A) : M T A := λ s, (r, s).

(** Record an interaction. *)
Definition emit {T} (ev : Event T) : M T unit :=
  λ s, (Ok (), {| self_attrs := self_attrs s; trace := trace s ++ [ev] |}).

Definition get_trace {T} : M T (list (Event T)) := λ s, (Ok (trace s), s).

(** [setattr(self, name, attr)] *)
Definition setattr {T} (name : string) (attr : Attr T) : M T unit :=
  λ s, (Ok (), {| self_attrs := <[name := attr]> (self_attrs s); trace := trace s |}).

(** [self.<name>] read as a coefficient table. *)
Definition get_table {T} (name : string) : M T (list T) :=
  λ s, match self_attrs s !! name with
       | Some (ATable l) => (Ok l, s)
       | Some _ => (Raise TypeError, s)
       | None => (Raise (AttributeError name), s)
       end.

(** [self.<name>] read as an integer array. *)
Definition get_ints {T} (name : string) : M T (list Z) :=
  λ s, match self_attrs s !! name with
       | Some (AInts l) => (Ok l, s)
       | Some _ => (Raise TypeError, s)
       | None => (Raise (AttributeError name), s)
       end.

(** ** Python sequence operations *)

(** [l[i]] : negative indices count from the end, anything outside
    raises [IndexError]. *)
Definition py_index {A} (l : list A) (i : Z) : Result A :=
  let n := Z.of_nat (length l) in
  let j := if i <? 0 then i + n else i in
  if (0 <=? j) && (j <? n)
  then match l !! Z.to_nat j with Some a => Ok a | None => Raise IndexError end
  else Raise IndexError.

(** [l[:k]] : a negative bound counts from the end; bounds are clamped. *)
Definition py_slice_to {A} (l : list A) (k : Z) : list A :=
  let n := Z.of_nat (length l) in
  let j := if k <? 0 then Z.max 0 (k + n) else k in
  take (Z.to_nat j) l.

(** [range(0, n)] *)
Definition py_range (n : Z) : list Z := seqZ 0 n.

(** ** Python number operations *)

(** An int as an exact binary number. *)
Definition SF_of_Z (n : Z) : spec_float :=
  match n with
  | Z0 => S754_zero false
  | Zpos m => S754_finite false m 0
  | Zneg m => S754_finite true m 0
  end.

(** A binary64 result as a Python float; a result beyond the range is
    the [OverflowError] of a conversion or of a division of ints. *)
Definition float_of_SF (x : spec_float) : Result float :=
  match x with
  | S754_infinity _ => Raise OverflowError
  | _ => Ok (SF2Prim x)
  end.

(** [float(n)], as in the coercion of an int operand: the nearest
    binary64, ties to even. *)
Definition float_of_Z (n : Z) : Result float :=
  float_of_SF (SpecFloat.binary_normalize 53 1024 n 0 false).

(** [a / b] on ints of any size: the correctly rounded quotient. *)
Definition py_truediv (a b : Z) : Result float :=
  if b =? 0 then Raise ZeroDivisionError
  else float_of_SF (SpecFloat.SFdiv 53 1024 (SF_of_Z a) (SF_of_Z b)).

(** [int(f)] : truncation toward zero. *)
Definition int_of_float (f : float) : Result Z :=
  match Prim2SF f with
  | S754_zero _ => Ok 0
  | S754_finite sg m e =>
      let mag := if 0 <=? e then Z.pos m * 2 ^ e else Z.pos m / 2 ^ (- e) in
      Ok (if sg then - mag else mag)
  | S754_infinity _ => Raise OverflowError
  | S754_nan => Raise (ValueError "cannot convert float NaN to integer")
  end.

(** [int(min(timesteps / n, 1) * n) - 1] with [n] the length of the
    plan.  [min] keeps its first argument unless the second is strictly
    smaller; it then returns the int [1], whose product with [n] is the
    int [n] itself. *)
Definition subset_end (timesteps n : Z) : Result Z :=
  match py_truediv timesteps n with
  | Ok ratio =>
      if PrimFloat.ltb 1 ratio then Ok (n - 1)
      else
        match float_of_Z n with
        | Ok n_float =>
            match int_of_float (PrimFloat.mul ratio n_float) with
            | Ok k => Ok (k - 1)
            | Raise e => Raise e
            end
        | Raise e => Raise e
        end
  | Raise e => Raise e
  end.

(** [t.type(torch.int32)] on an entry of a 64-bit integer tensor. *)
Definition to_int32 (t : Z) : Z := (t + 2 ^ 31) mod 2 ^ 32 - 2 ^ 31.

(** ** Collaborators *)

(** Keyword options handed through to the score corrector. *)
Definition Kwargs (T : Type) : Type := list (string * T).

(** A score-corrector object: its [modify_score(model, e_t, x, t, c, **kw)]. *)
Definition ScoreCorrector (T : Type) : Type :=
  list (Event T) → T → T → Z → Conditioning T → Kwargs T → T.

(** What the sampler is constructed with and what it imports.  A service
    is a function of the interaction history and of its request, so a
    stateful or randomised service is covered; the three helpers of
    [.utils] and the attributes of the wrapped model are not part of this
    source file and are taken as given. *)
Class Env (T : Type) : Type := {
  (** [self.sampler] *)
  self_sampler : Sampler;
  (** [self.model.infer(args)["logits"]] *)
  model_infer : list (Event T) → UNetArgs T → T;
  (** [self.control_model.infer(control_args)] : a dictionary that holds
      inputs and outputs alike *)
  control_infer : list (Event T) → ControlArgs T → gmap string T;
  (** [self.model.q_sample(x0, ts)] *)
  q_sample : list (Event T) → T → Z → T;
  (** [self.model.<name>] for the tables of the original schedule *)
  model_attr : string → option (list T);
  (** [self.model.parameterization] *)
  model_parameterization : string;
  (** [noise_like(x.shape, device, repeat_noise)] *)
  noise_like : list (Event T) → T → bool → T;
  (** [torch.nn.functional.dropout(noise, p=noise_dropout)] *)
  dropout : list (Event T) → T → float → T;
  (** [torch.randn(shape, device=device)] *)
  randn : list (Event T) → list Z → T;
  (** [t.shape[0]] of a tensor: [IndexError] when it has no dimension *)
  shape0 : T → Result Z;
  (** [make_ddim_timesteps(ddim_discr_method, num_ddim_timesteps,
      num_ddpm_timesteps)] *)
  make_ddim_timesteps : string → Z → Z → Result (list Z);
  (** [make_beta_schedule(schedule, n_timestep, linear_start, linear_end,
      cosine_s)] *)
  make_beta_schedule : string → Z → float → float → float → Result (list T);
  (** [make_ddim_sampling_parameters(alphacums, ddim_timesteps, eta)] :
      [(sigmas, alphas, alphas_prev)] *)
  make_ddim_sampling_parameters :
    list T → list Z → float → Result (list T * list T * list T);
}.

(** [self.ddpm_num_timesteps], set once by [__init__]. *)
Definition ddpm_num_timesteps : Z := 1000.

Section sampler.
Context {T : Type} `{!Tensor T} `{!Env T}.
Local Open Scope tensor_scope.

(** *** [AbstractBaseSampler.apply_model] *)

(** The loop that pulls [control_0], [control_1], ... out of the reply
    of the control service: [i] runs over [range(len(control_out))] and
    the first missing key ends it. *)
Fixpoint probe_controls (control_out : gmap string T) (fuel i : nat) : list T :=
  match fuel with
  | O => []
  | S fuel' =>
      match control_out !! ("control_" +:+ pretty i) with
      | Some v => v :: probe_controls control_out fuel' (S i)
      | None => []
      end
  end.

Definition extract_controls (control_out : gmap string T) : list T :=
  probe_controls control_out (size control_out) 0.

(** [[c * scale for c, scale in zip(control, control_scales)]] *)
Definition scale_controls (control : list T) (control_scales : list float) : list T :=
  zip_with (λ c scale, c * #scale) control control_scales.

(** [device_view] of [.utils] hands a tensor to the engine without
    changing its entries, so a request holds the tensors themselves. *)
Definition apply_model (x : T) (t : Z) (cond : Conditioning T)
    (control_scales : option (list float)) : M T T :=
  setattr "conditioning_key" (AStr "crossattn");;
  (* UNET TRT *)
  let cc := c_crossattn cond in
  let t := to_int32 t in
  args ← match c_concat cond with
          | None => mret (Build_UNetArgs x t cc [])
          | Some hint =>
              let control_args := Build_ControlArgs x t cc hint in
              tr ← get_trace;
              let control_out := control_infer tr control_args in
              emit (EvControlInfer control_args control_out);;
              let control := extract_controls control_out in
              control ← match control_scales with
                         | None => mret control
                         | Some scales =>
                             py_assert (bool_decide (length scales = length control));;
                             mret (scale_controls control scales)
                         end;
              mret (Build_UNetArgs x t cc control)
          end;
  tr ← get_trace;
  let out := model_infer tr args in
  emit (EvModelInfer args out);;
  mret out.

(** *** [AbstractBaseSampler._get_model_output] *)

(** [unconditional_conditioning is None or unconditional_guidance_scale == 1.0] *)
Definition guidance_off (unconditional_conditioning : option (Conditioning T))
    (unconditional_guidance_scale : float) : bool :=
  match unconditional_conditioning with
  | None => true
  | Some _ => PrimFloat.eqb unconditional_guidance_scale 1
  end.

(** The classifier-free guidance rule. *)
Definition guide (model_t model_uncond : T) (unconditional_guidance_scale : float) : T :=
  model_uncond + #unconditional_guidance_scale * (model_t - model_uncond).

(** The final pass of the optional score corrector. *)
Definition correct_score (score_corrector : option (ScoreCorrector T))
    (corrector_kwargs : option (Kwargs T)) (e_t x : T) (t : Z)
    (c : Conditioning T) : M T T :=
  match score_corrector with
  | None => mret e_t
  | Some corrector =>
      py_assert (bool_decide (model_parameterization = "eps"));;
      match corrector_kwargs with
      | None => raise TypeError
      | Some kw =>
          tr ← get_trace;
          let out := corrector tr e_t x t c kw in
          emit (EvModifyScore e_t x t out);;
          mret out
      end
  end.

Definition _get_model_output (x : T) (t : Z)
    (unconditional_conditioning : option (Conditioning T))
    (unconditional_guidance_scale : float)
    (score_corrector : option (ScoreCorrector T))
    (c : Conditioning T) (corrector_kwargs : option (Kwargs T))
    (control_scales : option (list float)) : M T T :=
  e_t ← match unconditional_conditioning with
         | Some uc =>
             if PrimFloat.eqb unconditional_guidance_scale 1
             then apply_model x t c control_scales
             else
               model_t ← apply_model x t c control_scales;
               model_uncond ← apply_model x t uc control_scales;
               mret (guide model_t model_uncond unconditional_guidance_scale)
         | None => apply_model x t c control_scales
         end;
  correct_score score_corrector corrector_kwargs e_t x t c.

(** *** [AbstractBaseSampler._get_x_prev_and_pred_x0] *)

(** The four coefficient tables: those of the wrapped model in
    original-steps mode, the sampler's own otherwise. *)
Definition model_table (name : string) : M T (list T) :=
  match model_attr name with
  | Some l => mret l
  | None => raise (AttributeError name)
  end.

Definition select_table (use_original_steps : bool) (original ddim : string) : M T (list T) :=
  if use_original_steps then model_table original else get_table ddim.

(** Current prediction for x_0. *)
Definition pred_x0_of (x e_t a_t sqrt_one_minus_at : T) : T :=
  (x - sqrt_one_minus_at * e_t) / tsqrt a_t.

(** Direction pointing to x_t. *)
Definition dir_xt_of (e_t a_prev sigma_t : T) : T :=
  tsqrt (#1 - a_prev - tpow sigma_t 2) * e_t.

Definition _get_x_prev_and_pred_x0 (use_original_steps : bool) (index : Z)
    (x e_t : T) (quantize_denoised repeat_noise : bool)
    (temperature noise_dropout : float) : M T (T * T) :=
  alphas ← select_table use_original_steps "alphas_cumprod" "ddim_alphas";
  alphas_prev ← select_table use_original_steps "alphas_cumprod_prev" "ddim_alphas_prev";
  sqrt_one_minus_alphas ←
    select_table use_original_steps "sqrt_one_minus_alphas_cumprod" "ddim_sqrt_one_minus_alphas";
  sigmas ← select_table use_original_steps "ddim_sigmas_for_original_num_steps" "ddim_sigmas";
  a_t ← lift (py_index alphas index);
  a_prev ← lift (py_index alphas_prev index);
  sigma_t ← lift (py_index sigmas index);
  sqrt_one_minus_at ← lift (py_index sqrt_one_minus_alphas index);
  let pred_x0 := pred_x0_of x e_t a_t sqrt_one_minus_at in
  let dir_xt := dir_xt_of e_t a_prev sigma_t in
  tr ← get_trace;
  let drawn := noise_like tr x repeat_noise in
  emit (EvNoiseLike repeat_noise drawn);;
  let noise := sigma_t * drawn * #temperature in
  noise ← (if PrimFloat.ltb 0 noise_dropout
           then tr ← get_trace;
                let out := dropout tr noise noise_dropout in
                emit (EvDropout noise noise_dropout out);;
                mret out
           else mret noise);
  let x_prev := tsqrt a_prev * pred_x0 + dir_xt + noise in
  mret (x_prev, pred_x0).

(** *** [DDIMSampler.p_sampling_fn] *)

Definition DDIM_p_sampling_fn (x : T) (c : Conditioning T) (t index : Z)
    (repeat_noise use_original_steps quantize_denoised : bool)
    (temperature noise_dropout : float)
    (score_corrector : option (ScoreCorrector T)) (corrector_kwargs : option (Kwargs T))
    (unconditional_guidance_scale : float)
    (unconditional_conditioning : option (Conditioning T))
    (control_scales : option (list float)) : M T (T * T) :=
  e_t ← _get_model_output x t unconditional_conditioning unconditional_guidance_scale
          score_corrector c corrector_kwargs control_scales;
  '(x_prev, pred_x0) ← _get_x_prev_and_pred_x0 use_original_steps index x e_t
          quantize_denoised repeat_noise temperature noise_dropout;
  mret (x_prev, pred_x0).

(** *** [PLMSSampler.p_sampling_fn] *)

Definition PLMS_p_sampling_fn (x : T) (c : Conditioning T) (t index : Z)
    (repeat_noise use_original_steps quantize_denoised : bool)
    (temperature noise_dropout : float)
    (score_corrector : option (ScoreCorrector T)) (corrector_kwargs : option (Kwargs T))
    (unconditional_guidance_scale : float)
    (unconditional_conditioning : option (Conditioning T))
    (old_eps : option (list T)) (t_next : option Z)
    (control_scales : option (list float)) : M T (T * T * T) :=
  e_t ← _get_model_output x t unconditional_conditioning unconditional_guidance_scale
          score_corrector c corrector_kwargs control_scales;
  old_eps ← match old_eps with
             | Some l => mret l
             | None => raise TypeError
             end;
  let len := length old_eps in
  e_t_prime ←
    (if bool_decide (len = 0)%nat then
       (* Pseudo Improved Euler (2nd order) *)
       '(x_prev, pred_x0) ← _get_x_prev_and_pred_x0 use_original_steps index x e_t
               quantize_denoised repeat_noise temperature noise_dropout;
       t_next ← match t_next with
                 | Some tn => mret tn
                 | None => raise (AttributeError "type")
                 end;
       e_t_next ← _get_model_output x_prev t_next unconditional_conditioning
               unconditional_guidance_scale score_corrector c corrector_kwargs control_scales;
       mret ((e_t + e_t_next) / #2)
     else if bool_decide (len = 1)%nat then
       (* 2nd order Pseudo Linear Multistep (Adams-Bashforth) *)
       h1 ← lift (py_index old_eps (-1));
       mret ((#3 * e_t - h1) / #2)
     else if bool_decide (len = 2)%nat then
       (* 3nd order Pseudo Linear Multistep (Adams-Bashforth) *)
       h1 ← lift (py_index old_eps (-1));
       h2 ← lift (py_index old_eps (-2));
       mret ((#23 * e_t - #16 * h1 + #5 * h2) / #12)
     else if bool_decide (3 ≤ len)%nat then
       (* 4nd order Pseudo Linear Multistep (Adams-Bashforth) *)
       h1 ← lift (py_index old_eps (-1));
       h2 ← lift (py_index old_eps (-2));
       h3 ← lift (py_index old_eps (-3));
       mret ((#55 * e_t - #59 * h1 + #37 * h2 - #9 * h3) / #24)
     else raise (UnboundLocalError "e_t_prime"));
  '(x_prev, pred_x0) ← _get_x_prev_and_pred_x0 use_original_steps index x e_t_prime
          quantize_denoised repeat_noise temperature noise_dropout;
  mret (x_prev, pred_x0, e_t).

(** The step function of the configured sampler; [outs] is the returned
    tuple. *)
Definition p_sampling_fn (x : T) (c : Conditioning T) (t index : Z)
    (use_original_steps quantize_denoised : bool)
    (temperature noise_dropout : float)
    (score_corrector : option (ScoreCorrector T)) (corrector_kwargs : option (Kwargs T))
    (unconditional_guidance_scale : float)
    (unconditional_conditioning : option (Conditioning T))
    (old_eps : option (list T)) (t_next : option Z)
    (control_scales : option (list float)) : M T (list T) :=
  match self_sampler with
  | PLMS =>
      '(x_prev, pred_x0, e_t) ← PLMS_p_sampling_fn x c t index false use_original_steps
          quantize_denoised temperature noise_dropout score_corrector corrector_kwargs
          unconditional_guidance_scale unconditional_conditioning old_eps t_next
          control_scales;
      mret [x_prev; pred_x0; e_t]
  | DDIM =>
      '(x_prev, pred_x0) ← DDIM_p_sampling_fn x c t index false use_original_steps
          quantize_denoised temperature noise_dropout score_corrector corrector_kwargs
          unconditional_guidance_scale unconditional_conditioning control_scales;
      mret [x_prev; pred_x0]
  end.

(** *** [AbstractBaseSampler.make_schedule] *)

(** [register_buffer(name, attr)] : moving a tensor to the device does
    not change its entries. *)
Definition register_buffer (name : string) (attr : list T) : M T unit :=
  setattr name (ATable attr).

(** [np.cumprod(alphas, axis=0)], accumulated left to right. *)
Fixpoint cumprod_from (acc : T) (l : list T) : list T :=
  match l with
  | [] => []
  | a :: l' => let acc' := acc * a in acc' :: cumprod_from acc' l'
  end.

Definition cumprod (l : list T) : list T :=
  match l with
  | [] => []
  | a :: l' => a :: cumprod_from a l'
  end.

Definition make_schedule (ddim_num_steps : Z) (ddim_discretize : string)
    (ddim_eta : float) : M T unit :=
  ddim_timesteps ← lift (make_ddim_timesteps ddim_discretize ddim_num_steps ddpm_num_timesteps);
  setattr "ddim_timesteps" (AInts ddim_timesteps);;
  betas ← lift (make_beta_schedule "linear" ddpm_num_timesteps 0.00085 0.0120 0.008);
  let alphas := (λ b, #1 - b) <$> betas in
  let alphas_cumprod := cumprod alphas in
  let alphas_cumprod_prev := #1 :: py_slice_to alphas_cumprod (-1) in
  py_assert (bool_decide (Z.of_nat (length alphas_cumprod) = ddpm_num_timesteps));;
  register_buffer "betas" betas;;
  register_buffer "alphas_cumprod" alphas_cumprod;;
  register_buffer "alphas_cumprod_prev" alphas_cumprod_prev;;
  (* calculations for diffusion q(x_t | x_{t-1}) and others *)
  register_buffer "sqrt_alphas_cumprod" (tsqrt <$> alphas_cumprod);;
  register_buffer "sqrt_one_minus_alphas_cumprod" ((λ a, tsqrt (#1 - a)) <$> alphas_cumprod);;
  register_buffer "log_one_minus_alphas_cumprod" ((λ a, tlog (#1 - a)) <$> alphas_cumprod);;
  register_buffer "sqrt_recip_alphas_cumprod" ((λ a, tsqrt (#1 / a)) <$> alphas_cumprod);;
  register_buffer "sqrt_recipm1_alphas_cumprod" ((λ a, tsqrt (#1 / a - #1)) <$> alphas_cumprod);;
  (* ddim sampling parameters *)
  ddim_timesteps ← get_ints "ddim_timesteps";
  '(ddim_sigmas, ddim_alphas, ddim_alphas_prev) ←
    lift (make_ddim_sampling_parameters alphas_cumprod ddim_timesteps ddim_eta);
  register_buffer "ddim_sigmas" ddim_sigmas;;
  register_buffer "ddim_alphas" ddim_alphas;;
  register_buffer "ddim_alphas_prev" ddim_alphas_prev;;
  register_buffer "ddim_sqrt_one_minus_alphas" ((λ a, tsqrt (#1 - a)) <$> ddim_alphas);;
  acp_prev ← get_table "alphas_cumprod_prev";
  acp ← get_table "alphas_cumprod";
  let sigmas_for_original_sampling_steps :=
    zip_with (λ p a, #ddim_eta * tsqrt ((#1 - p) / (#1 - a) * (#1 - a / p))) acp_prev acp in
  register_buffer "ddim_sigmas_for_original_num_steps" sigmas_for_original_sampling_steps.

(** *** [PLMSSampler.make_schedule] *)

Definition PLMS_make_schedule (ddim_num_steps : Z) (ddim_discretize : string)
    (ddim_eta : float) : M T unit :=
  if negb (PrimFloat.eqb ddim_eta 0)
  then raise (ValueError "ddim_eta must be 0 for PLMS")
  else make_schedule ddim_num_steps "uniform" 0.

(** [self.make_schedule] of the configured sampler. *)
Definition self_make_schedule (ddim_num_steps : Z) (ddim_discretize : string)
    (ddim_eta : float) : M T unit :=
  match self_sampler with
  | PLMS => PLMS_make_schedule ddim_num_steps ddim_discretize ddim_eta
  | DDIM => make_schedule ddim_num_steps ddim_discretize ddim_eta
  end.

(** *** [AbstractBaseSampler.sampling_fn] *)

(** [intermediates = {"x_inter": [...], "pred_x0": [...]}] *)
Record Intermediates : Type := {
  x_inter : list T;
  inter_pred_x0 : list T;
}.

(** The variables the loop carries from one iteration to the next.
    [eps_log] is a history variable of the proof, never read by the
    code: every [e_t] the step function has returned so far. *)
Record LoopState : Type := {
  img : T;
  old_eps : option (list T);
  intermediates : Intermediates;
  eps_log : list T;
}.

(** [timesteps] once resolved: an int in original-steps mode, the
    array of planned timesteps otherwise. *)
Inductive Timesteps : Type :=
  | TsCount (n : Z)
  | TsPlan (plan : list Z).

Definition resolve_timesteps (timesteps : option Z) (ddim_use_original_steps : bool)
    : M T Timesteps :=
  match timesteps with
  | None =>
      if ddim_use_original_steps then mret (TsCount ddpm_num_timesteps)
      else plan ← get_ints "ddim_timesteps"; mret (TsPlan plan)
  | Some n' =>
      if negb ddim_use_original_steps then
        plan ← get_ints "ddim_timesteps";
        subset_end ← lift (subset_end n' (Z.of_nat (length plan)));
        plan ← get_ints "ddim_timesteps";
        mret (TsPlan (py_slice_to plan subset_end))
      else mret (TsCount n')
  end.

(** [reversed(range(0, timesteps))] or [np.flip(timesteps)] *)
Definition time_range_of (timesteps : Timesteps) : list Z :=
  match timesteps with
  | TsCount n => reverse (py_range n)
  | TsPlan plan => reverse plan
  end.

(** [timesteps] or [timesteps.shape[0]] *)
Definition total_steps_of (timesteps : Timesteps) : Z :=
  match timesteps with
  | TsCount n => n
  | TsPlan plan => Z.of_nat (length plan)
  end.

(** [img_orig * mask + (1.0 - mask) * img] *)
Definition mask_blend (img_orig mask img : T) : T :=
  img_orig * mask + (#1 - mask) * img.

(** [old_eps.append(e_t)] followed by [old_eps.pop(0)] once four
    entries are held. *)
Definition update_history (old_eps : list T) (e_t : T) : list T :=
  let old_eps := old_eps ++ [e_t] in
  if bool_decide (4 ≤ length old_eps)%nat then drop 1 old_eps else old_eps.

Section loop.
Variables (cond : Conditioning T) (ddim_use_original_steps : bool)
  (callback : bool) (quantize_denoised : bool) (mask x0 : option T)
  (img_callback : bool) (log_every_t : Z) (temperature noise_dropout : float)
  (score_corrector : option (ScoreCorrector T)) (corrector_kwargs : option (Kwargs T))
  (unconditional_guidance_scale : float)
  (unconditional_conditioning : option (Conditioning T))
  (control_scales : option (list float)).
Variables (time_range : list Z) (total_steps : Z).

(** The inpainting blend at the head of an iteration. *)
Definition blend_known (img : T) (ts : Z) : M T T :=
  match mask with
  | Some mask =>
      x0 ← match x0 with
            | Some x0 => mret x0
            | None => raise AssertionError
            end;
      tr ← get_trace;
      let img_orig := q_sample tr x0 ts in
      emit (EvQSample x0 ts img_orig);;
      mret (mask_blend img_orig mask img)
  | None => mret img
  end.

(** [ts_next] and the history handed to the step function: the next
    planned timestep and [old_eps] for PLMS, [None] twice for DDIM. *)
Definition next_and_history (i : Z) (st : LoopState) : M T (option Z * option (list T)) :=
  match self_sampler with
  | PLMS =>
      tn ← lift (py_index time_range (Z.min (i + 1) (Z.of_nat (length time_range) - 1))%Z);
      mret (Some tn, old_eps st)
  | DDIM => mret (None, None)
  end.

(** The rest of an iteration once the state [img] to integrate is
    fixed: the call of the step function, the history update, the
    callbacks and the log of intermediates. *)
Definition integrate_and_update (i step : Z) (st : LoopState)
    (ts_next : option Z) (old_eps : option (list T)) (img : T) : M T LoopState :=
  let index := (total_steps - i - 1)%Z in
  let ts := step in
  outs ← p_sampling_fn img cond ts index ddim_use_original_steps quantize_denoised
           temperature noise_dropout score_corrector corrector_kwargs
           unconditional_guidance_scale unconditional_conditioning old_eps ts_next
           control_scales;
  img ← lift (py_index outs 0);
  pred_x0 ← lift (py_index outs 1);
  '(old_eps, eps_log) ←
    match self_sampler with
    | PLMS =>
        e_t ← lift (py_index outs 2);
        match old_eps with
        | Some l => mret (Some (update_history l e_t), eps_log st ++ [e_t])
        | None => raise (AttributeError "append")
        end
    | DDIM => mret (old_eps, eps_log st)
    end;
  (if callback then emit (EvCallback i) else mret ());;
  (if img_callback then emit (EvImgCallback pred_x0 i) else mret ());;
  log_now ← (if log_every_t =? 0 then raise ZeroDivisionError
             else mret ((index mod log_every_t =? 0) || (index =? total_steps - 1)%Z));
  let inter := intermediates st in
  let inter := if log_now : bool
               then {| x_inter := x_inter inter ++ [img];
                       inter_pred_x0 := inter_pred_x0 inter ++ [pred_x0] |}
               else inter in
  mret {| img := img; old_eps := old_eps; intermediates := inter; eps_log := eps_log |}.

(** One iteration of [for i, step in enumerate(iterator)]. *)
Definition loop_body (i step : Z) (st : LoopState) : M T LoopState :=
  '(ts_next, old_eps) ← next_and_history i st;
  img ← blend_known (img st) step;
  integrate_and_update i step st ts_next old_eps img.

(** The iterations over the steps still to visit, [i] counting from
    the position reached. *)
Fixpoint run_loop (steps : list Z) (i : Z) (st : LoopState) : M T LoopState :=
  match steps with
  | [] => mret st
  | step :: steps' =>
      st' ← loop_body i step st;
      run_loop steps' (i + 1)%Z st'
  end.
End loop.

(** The driver up to the end of its loop: the final loop state. *)
Definition sampling_loop (cond : Conditioning T) (shape : list Z) (x_T : option T)
    (ddim_use_original_steps callback : bool) (timesteps : option Z)
    (quantize_denoised : bool) (mask x0 : option T) (img_callback : bool)
    (log_every_t : Z) (temperature noise_dropout : float)
    (score_corrector : option (ScoreCorrector T)) (corrector_kwargs : option (Kwargs T))
    (unconditional_guidance_scale : float)
    (unconditional_conditioning : option (Conditioning T))
    (control_scales : option (list float)) : M T LoopState :=
  b ← lift (py_index shape 0);
  img ← match x_T with
         | None =>
             tr ← get_trace;
             let out := randn tr shape in
             emit (EvRandn shape out);;
             mret out
         | Some x_T => mret x_T
         end;
  timesteps ← resolve_timesteps timesteps ddim_use_original_steps;
  let intermediates := {| x_inter := [img]; inter_pred_x0 := [img] |} in
  let time_range := time_range_of timesteps in
  let total_steps := total_steps_of timesteps in
  let old_eps := [] in
  run_loop cond ddim_use_original_steps callback quantize_denoised mask x0 img_callback
    log_every_t temperature noise_dropout score_corrector corrector_kwargs
    unconditional_guidance_scale unconditional_conditioning control_scales
    time_range total_steps time_range 0
    {| img := img; old_eps := Some old_eps; intermediates := intermediates; eps_log := [] |}.

Definition sampling_fn (cond : Conditioning T) (shape : list Z) (x_T : option T)
    (ddim_use_original_steps callback : bool) (timesteps : option Z)
    (quantize_denoised : bool) (mask x0 : option T) (img_callback : bool)
    (log_every_t : Z) (temperature noise_dropout : float)
    (score_corrector : option (ScoreCorrector T)) (corrector_kwargs : option (Kwargs T))
    (unconditional_guidance_scale : float)
    (unconditional_conditioning : option (Conditioning T))
    (control_scales : option (list float)) : M T (T * Intermediates) :=
  st ← sampling_loop cond shape x_T ddim_use_original_steps callback timesteps
         quantize_denoised mask x0 img_callback log_every_t temperature noise_dropout
         score_corrector corrector_kwargs unconditional_guidance_scale
         unconditional_conditioning control_scales;
  mret (img st, intermediates st).

(** *** [AbstractBaseSampler.sample] *)

(** The head of [sample]: the value under the first key of the
    conditioning dictionary, [conditioning[list(conditioning.keys())[0]]],
    is asked for [shape[0]], which fails when that value is [None]; the
    comparison of the result with [batch_size] only prints a warning.
    (The entries of the dictionary are tensors or [None], never lists, so
    the loop [while isinstance(ctmp, list)] does not run.) *)
Definition check_conditioning (conditioning : Conditioning T) (first : FirstKey)
    : M T unit :=
  let ctmp := match first with
              | FirstCrossattn => Some (c_crossattn conditioning)
              | FirstConcat => c_concat conditioning
              end in
  match ctmp with
  | Some ctmp => cbs ← lift (shape0 ctmp); mret ()
  | None => raise (AttributeError "shape")
  end.

(** [conditioning] is a dictionary with the two entries that
    [apply_model] subscripts, given together with the key it lists
    first. *)
Definition sample (S batch_size : Z) (shape : list Z) (conditioning : Conditioning T)
    (first : FirstKey) (callback img_callback quantize_x0 : bool) (eta : float) (mask x0 : option T)
    (temperature noise_dropout : float)
    (score_corrector : option (ScoreCorrector T)) (corrector_kwargs : option (Kwargs T))
    (x_T : option T) (log_every_t : Z) (unconditional_guidance_scale : float)
    (unconditional_conditioning : option (Conditioning T))
    (control_scales : option (list float)) : M T (T * Intermediates) :=
  check_conditioning conditioning first;;
  self_make_schedule S "uniform" eta;;
  size ← match shape with
          | [C; H; W] => mret [batch_size; C; H; W]
          | _ => raise (ValueError "unpack")
          end;
  sampling_fn conditioning size x_T false callback None quantize_x0 mask x0 img_callback
    log_every_t temperature noise_dropout score_corrector corrector_kwargs
    unconditional_guidance_scale unconditional_conditioning control_scales.
End sampler.

(** ** Vocabulary of the statements *)

Section vocabulary.
Context {T : Type} `{!Tensor T} `{!Env T}.

(** The state after further interactions [evs]. *)
Definition log (s : State T) (evs : list (Event T)) : State T :=
  {| self_attrs := self_attrs s; trace := trace s ++ evs |}.

(** The state once [apply_model] has set [self.conditioning_key]. *)
Definition keyed (s : State T) : State T :=
  {| self_attrs := <["conditioning_key" := AStr "crossattn"]> (self_attrs s);
     trace := trace s |}.

Definition is_model_call (ev : Event T) : bool :=
  match ev with
  | EvModelInfer _ _ => true
  | _ => false
  end.

(** The number of invocations of the denoising service among [evs]. *)
Definition model_calls (evs : list (Event T)) : nat :=
  length (filter (λ ev, is_model_call ev = true) evs).


(** The invocations of the denoising service one evaluation makes. *)
Definition calls_per_evaluation (unconditional_conditioning : option (Conditioning T))
    (unconditional_guidance_scale : float) : nat :=
  if guidance_off unconditional_conditioning unconditional_guidance_scale then 1 else 2.

(** The coefficient that [_get_x_prev_and_pred_x0] reads at [index] from
    the table named [original] or [ddim]. *)
Definition coefficient (use_original_steps : bool) (original ddim : string)
    (index : Z) (s : State T) : Result T :=
  match select_table use_original_steps original ddim s with
  | (Ok table, _) => py_index table index
  | (Raise e, _) => Raise e
  end.

(** The request of the denoising service for given control signals. *)
Definition unet_args (x : T) (t : Z) (cond : Conditioning T) (control : list T) : UNetArgs T :=
  Build_UNetArgs x (to_int32 t) (c_crossattn cond) control.

Definition control_args (x : T) (t : Z) (cond : Conditioning T) (hint : T) : ControlArgs T :=
  Build_ControlArgs x (to_int32 t) (c_crossattn cond) hint.

(** The single invocation of the denoising service with request [a]. *)
Definition infer_step (a : UNetArgs T) (s : State T) : Result T * State T :=
  (Ok (model_infer (trace s) a), log s [EvModelInfer a (model_infer (trace s) a)]).

Local Open Scope tensor_scope.

(** The noise term that a reconstruction from state [s] adds, and the
    state it leaves. *)
Definition noise_step (sigma_t x : T) (repeat_noise : bool)
    (temperature noise_dropout : float) (s : State T) : T * State T :=
  let drawn := noise_like (trace s) x repeat_noise in
  let s1 := log s [EvNoiseLike repeat_noise drawn] in
  let scaled := sigma_t * drawn * #temperature in
  if PrimFloat.ltb 0 noise_dropout
  then let out := dropout (trace s1) scaled noise_dropout in
       (out, log s1 [EvDropout scaled noise_dropout out])
  else (scaled, s1).

(** The state in which the loop starts: [x_T], or a fresh draw. *)
Definition initial_img (shape : list Z) (x_T : option T) (s : State T) : T :=
  match x_T with
  | Some x_T => x_T
  | None => randn (trace s) shape
  end.

Definition initial_events (shape : list Z) (x_T : option T) (s : State T) : list (Event T) :=
  match x_T with
  | Some _ => []
  | None => [EvRandn shape (randn (trace s) shape)]
  end.

Definition initial_loop_state (img0 : T) : LoopState :=
  {| img := img0; old_eps := Some [];
     intermediates := {| x_inter := [img0]; inter_pred_x0 := [img0] |};
     eps_log := [] |}.

(** A computation that calls no collaborator: it leaves the trace as it
    found it. *)
Definition quiet {A} (m : M T A) : Prop :=
  ∀ s r s', m s = (r, s') → trace s' = trace s.

(** The last three entries of a list (all of it when shorter). *)
Definition last3 (l : list T) : list T := drop (length l - 3) l.
End vocabulary.

(** ** Vocabulary of the further properties *)

Section further_vocabulary.
Context {T : Type} `{!Tensor T} `{!Env T}.

(** The key under which the control service returns its [i]-th layer. *)
Definition control_key (i : nat) : string := "control_" +:+ pretty i.

(** The events a step function can cause: calls of the two inference
    services and of the score corrector, and draws of noise. *)
Definition is_integrator_event (ev : Event T) : bool :=
  match ev with
  | EvControlInfer _ _ | EvModelInfer _ _ | EvModifyScore _ _ _ _
  | EvNoiseLike _ _ | EvDropout _ _ _ => true
  | _ => false
  end.

Definition is_q_sample (ev : Event T) : bool :=
  match ev with
  | EvQSample _ _ _ => true
  | _ => false
  end.

(** The arguments of the calls of [callback], in order. *)
Definition callback_indices (evs : list (Event T)) : list Z :=
  omap (λ ev, match ev with EvCallback i => Some i | _ => None end) evs.

(** The arguments of the calls of [img_callback], in order. *)
Definition img_callback_calls (evs : list (Event T)) : list (T * Z) :=
  omap (λ ev, match ev with EvImgCallback p i => Some (p, i) | _ => None end) evs.

(** The number of calls of [q_sample] among [evs]. *)
Definition q_sample_calls (evs : list (Event T)) : nat :=
  length (filter (λ ev, is_q_sample ev = true) evs).

(** The evaluations of the model that one step makes: two for PLMS on
    an empty history, one otherwise. *)
Definition evaluations_of (sampler : Sampler) (old_eps : option (list T)) : nat :=
  match sampler, old_eps with
  | PLMS, Some [] => 2
  | _, _ => 1
  end.

(** The estimate before the score corrector: the part of
    [_get_model_output] that calls [apply_model]. *)
Definition guided_estimate (x : T) (t : Z)
    (unconditional_conditioning : option (Conditioning T))
    (unconditional_guidance_scale : float) (c : Conditioning T)
    (control_scales : option (list float)) : M T T :=
  match unconditional_conditioning with
  | Some uc =>
      if PrimFloat.eqb unconditional_guidance_scale 1
      then apply_model x t c control_scales
      else
        model_t ← apply_model x t c control_scales;
        model_uncond ← apply_model x t uc control_scales;
        mret (guide model_t model_uncond unconditional_guidance_scale)
  | None => apply_model x t c control_scales
  end.

(** Whether iteration [i] appends to the intermediates:
    [index % log_every_t == 0 or index == total_steps - 1]. *)
Definition logged (log_every_t total_steps i : Z) : bool :=
  let index := total_steps - i - 1 in
  (index mod log_every_t =? 0) || (index =? total_steps - 1).

(** The calls of the callbacks at the end of iteration [i]. *)
Definition callback_events (callback img_callback : bool) (i : Z) (pred_x0 : T)
    : list (Event T) :=
  (if callback then [EvCallback i] else [])
  ++ (if img_callback then [EvImgCallback pred_x0 i] else []).

(** The call of [q_sample] at the head of an iteration. *)
Definition blend_events (mask x0 : option T) (step : Z) (s : State T) : list (Event T) :=
  match mask, x0 with
  | Some _, Some known => [EvQSample known step (q_sample (trace s) known step)]
  | _, _ => []
  end.

(** The history a step function is handed. *)
Definition history_given (st : @LoopState T) : option (list T) :=
  match self_sampler with
  | PLMS => old_eps st
  | DDIM => None
  end.

(** The evaluations of the model that [n] iterations make, the first of
    them on the history [old_eps]. *)
Definition run_evaluations (old_eps : option (list T)) (n : nat) : nat :=
  match n with
  | O => 0
  | S m => evaluations_of self_sampler old_eps + m
  end.

(** Only events of a step function. *)
Definition integrator_only (evs : list (Event T)) : Prop :=
  Forall (λ ev, is_integrator_event ev = true) evs.

(** The timesteps a run started on the sampler [s] visits, in order;
    none when they cannot be resolved. *)
Definition planned_steps (timesteps : option Z) (ddim_use_original_steps : bool)
    (s : State T) : list Z :=
  match fst (resolve_timesteps timesteps ddim_use_original_steps s) with
  | Ok resolved => time_range_of resolved
  | Raise _ => []
  end.

(** The evaluations of the model a run of [n] iterations makes: one per
    iteration, and for PLMS one more in the first. *)
Definition evaluations_of_run (sampler : Sampler) (n : nat) : nat :=
  match sampler, n with
  | PLMS, S _ => S n
  | _, _ => n
  end.

(** The tables of the sampler's own plan, which a step over that plan
    reads. *)
Definition ddim_tables : list string :=
  ["ddim_sigmas"; "ddim_alphas"; "ddim_alphas_prev"; "ddim_sqrt_one_minus_alphas";
   "ddim_sigmas_for_original_num_steps"].

(** The iterations of a run of [n] that append to the intermediates. *)
Definition logged_iterations (log_every_t : Z) (n : nat) : list Z :=
  filter (λ i, logged log_every_t (Z.of_nat n) i = true) (seqZ 0 (Z.of_nat n)).
End further_vocabulary.

(** ** Three models of the tensor interface *)

(** Symbolic tensors: the free terms over the tensor operations, with one
    more constructor for a reply of a collaborator.  Running the sampler
    on them shows which expression every result is. *)
Module Symbolic.
Inductive Sym : Type :=
  | SLit (f : float)
  | SVar (name : string)
  | SAdd (a b : Sym)
  | SSub (a b : Sym)
  | SMul (a b : Sym)
  | SDiv (a b : Sym)
  | SPow (a : Sym) (n : Z)
  | SSqrt (a : Sym)
  | SLog (a : Sym)
  | SReply (service : string) (tick : nat) (args : list Sym).

Global Instance Sym_tensor : Tensor Sym := {|
  tadd := SAdd; tsub := SSub; tmul := SMul; tdiv := SDiv;
  tpow := SPow; tsqrt := SSqrt; tlog := SLog; tscal := SLit;
|}.

(** A control service with two output layers, whose reply also echoes
    its inputs. *)
Definition control_reply (tick : nat) (a : ControlArgs Sym) : gmap string Sym :=
  let args := [carg_x _ a; carg_context _ a; carg_hint _ a] in
  <["control_1" := SReply "control_1" tick args]>
    (<["control_0" := SReply "control_0" tick args]>
       (<["hint" := carg_hint _ a]> (<["x" := carg_x _ a]> ∅))).

(** A uniform plan [1, 1 + c, 1 + 2c, ...] with [c = total // n]. *)
Definition uniform_plan (n total : Z) : Result (list Z) :=
  if n =? 0 then Raise ZeroDivisionError
  else Ok ((λ i, i * (total / n) + 1) <$> seqZ 0 n).

Definition table (name : string) (n : nat) : list Sym :=
  (λ i, SReply name i []) <$> seq 0 n.

(** Collaborators that answer with fresh symbols, for the given sampler. *)
Definition env (sampler : Sampler) : Env Sym := {|
  self_sampler := sampler;
  model_infer tr a :=
    SReply "logits" (length tr) (arg_x a :: arg_context a :: arg_controls a);
  control_infer tr a := control_reply (length tr) a;
  q_sample tr x0 ts := SReply "q_sample" (length tr) [x0];
  model_attr name := None;
  model_parameterization := "eps";
  noise_like tr x repeat_noise := SReply "noise" (length tr) [];
  dropout tr noise p := SReply "dropout" (length tr) [noise];
  randn tr shape := SReply "randn" (length tr) [];
  shape0 x := Ok 1;
  make_ddim_timesteps method n total := uniform_plan n total;
  make_beta_schedule schedule n linear_start linear_end cosine_s :=
    Ok (table "beta" (Z.to_nat n));
  make_ddim_sampling_parameters alphacums ddim_timesteps eta :=
    let n := length ddim_timesteps in
    Ok (table "sigma" n, table "alpha" n, table "alpha_prev" n);
|}.

(** A sampler object whose schedule of [n] steps is already built. *)
Definition scheduled (n : nat) : State Sym := {|
  self_attrs :=
    <["ddim_timesteps" := AInts ((λ i, 10 * i + 1) <$> seqZ 0 (Z.of_nat n))]>
      (<["ddim_sigmas" := ATable (table "sigma" n)]>
         (<["ddim_alphas" := ATable (table "alpha" n)]>
            (<["ddim_alphas_prev" := ATable (table "alpha_prev" n)]>
               (<["ddim_sqrt_one_minus_alphas" := ATable (table "sqrt_1m_alpha" n)]> ∅))));
  trace := [];
|}.

(** A freshly constructed sampler object. *)
Definition fresh : State Sym := {| self_attrs := ∅; trace := [] |}.

Definition cond_plain : Conditioning Sym :=
  {| c_crossattn := SVar "context"; c_concat := None |}.
Definition cond_hint : Conditioning Sym :=
  {| c_crossattn := SVar "context"; c_concat := Some (SVar "hint") |}.
Definition uncond : Conditioning Sym :=
  {| c_crossattn := SVar "empty_context"; c_concat := None |}.

(** The value of a run that returned. *)
Definition value_of {A} (default : A) (r : Result A) : A :=
  match r with
  | Ok a => a
  | Raise _ => default
  end.

(** *** Some runs, evaluated *)

(** A guided evaluation with scale 1.5. *)
Definition guided_eval : M Sym Sym :=
  @_get_model_output _ _ (env PLMS) (SVar "x") 5 (Some uncond) 1.5 None cond_plain
    None None.
Definition guided_e : Sym :=
  Eval vm_compute in value_of (SVar "") (fst (guided_eval fresh)).
Definition guided_s : State Sym := Eval vm_compute in snd (guided_eval fresh).


(** The first iterations of a PLMS run over the 5-step schedule, from
    a given [x_T], without mask, guidance or callbacks. *)
Definition plms_time_range : list Z := [41; 31; 21; 11; 1].
Definition plms_run (steps : list Z) (i : Z) (st : @LoopState Sym) : M Sym (@LoopState Sym) :=
  @run_loop _ _ (env PLMS) cond_plain false false false None None false 100 1 0 None None
    1 None None plms_time_range 5 steps i st.
Definition plms_body (i step : Z) (st : @LoopState Sym) : M Sym (@LoopState Sym) :=
  @loop_body _ _ (env PLMS) cond_plain false false false None None false 100 1 0 None None
    1 None None plms_time_range 5 i step st.
Definition start : @LoopState Sym := initial_loop_state (SVar "x_T").
Definition error_state : @LoopState Sym := initial_loop_state (SVar "").

Definition after1 : @LoopState Sym :=
  Eval vm_compute in value_of error_state (fst (plms_body 0 41 start (scheduled 5))).
Definition after1_s : State Sym :=
  Eval vm_compute in snd (plms_body 0 41 start (scheduled 5)).
Definition after2 : @LoopState Sym :=
  Eval vm_compute in value_of error_state (fst (plms_body 1 31 after1 after1_s)).
Definition after2_s : State Sym :=
  Eval vm_compute in snd (plms_body 1 31 after1 after1_s).
Definition after4 : @LoopState Sym :=
  Eval vm_compute in
    value_of error_state (fst (plms_run [41; 31; 21; 11] 0 start (scheduled 5))).
Definition after4_s : State Sym :=
  Eval vm_compute in snd (plms_run [41; 31; 21; 11] 0 start (scheduled 5)).

(** A DDIM step at index 2 of the 5-step schedule. *)
Definition ddim_step : M Sym (Sym * Sym) :=
  @DDIM_p_sampling_fn _ _ (env DDIM) (SVar "x") cond_plain 21 2 false false false 1 0
    None None 1 None None.
Definition ddim_step_r : Sym * Sym :=
  Eval vm_compute in value_of (SVar "", SVar "") (fst (ddim_step (scheduled 5))).
Definition ddim_step_s : State Sym := Eval vm_compute in snd (ddim_step (scheduled 5)).

(** An evaluation without guidance on a sampler without schedule. *)
Definition plain_eval : M Sym Sym :=
  @_get_model_output _ _ (env DDIM) (SVar "x") 5 None 1 None cond_plain None None.
Definition plain_e : Sym := Eval vm_compute in value_of (SVar "") (fst (plain_eval fresh)).
Definition plain_s : State Sym := Eval vm_compute in snd (plain_eval fresh).

(** A score corrector that answers with a fresh symbol. *)
Definition corrector : ScoreCorrector Sym :=
  λ tr e_t x t c kw, SReply "modify_score" (length tr) [e_t; x].

(** The first step function call of a DDIM run over the 5-step schedule. *)
Definition first_step : M Sym (list Sym) :=
  @p_sampling_fn _ _ (env DDIM) (SVar "x_T") cond_plain 41 (5 - 0 - 1) false false 1 0
    None None 1 None None None None.
Definition first_outs : list Sym :=
  Eval vm_compute in value_of [] (fst (first_step (scheduled 5))).
Definition first_s : State Sym := Eval vm_compute in snd (first_step (scheduled 5)).

(** A DDIM run over the 5-step schedule with a mask, known pixels and
    both callbacks, logging every second index. *)
Definition ddim_sampling : M Sym (Sym * Intermediates) :=
  @sampling_fn _ _ (env DDIM) cond_plain [1; 4; 8; 8] (Some (SVar "x_T")) false true None
    false (Some (SVar "mask")) (Some (SVar "x0")) true 2 1 0 None None 1 None None.
Definition ddim_sampling_r : Sym * Intermediates :=
  Eval vm_compute in
    value_of (SVar "", {| x_inter := []; inter_pred_x0 := [] |})
      (fst (ddim_sampling (scheduled 5))).
Definition ddim_sampling_s : State Sym :=
  Eval vm_compute in snd (ddim_sampling (scheduled 5)).

(** A PLMS run over the same schedule, without mask or callbacks. *)
Definition plms_sampling : M Sym (Sym * Intermediates) :=
  @sampling_fn _ _ (env PLMS) cond_plain [1; 4; 8; 8] (Some (SVar "x_T")) false false None
    false None None false 100 1 0 None None 1 None None.
Definition plms_sampling_r : Sym * Intermediates :=
  Eval vm_compute in
    value_of (SVar "", {| x_inter := []; inter_pred_x0 := [] |})
      (fst (plms_sampling (scheduled 5))).
Definition plms_sampling_s : State Sym :=
  Eval vm_compute in snd (plms_sampling (scheduled 5)).


(** A run with a mask and no known pixels that is asked for 1 of the 5
    planned timesteps. *)
Definition masked_truncated_sampling : M Sym (Sym * Intermediates) :=
  @sampling_fn _ _ (env DDIM) cond_plain [1; 4; 8; 8] (Some (SVar "x_T")) false false
    (Some 1) false (Some (SVar "mask")) None false 100 1 0 None None 1 None None.
End Symbolic.

(** Scalars of an IEEE 754 binary format with precision [prec] and
    exponent bound [emax], computed as [SpecFloat] specifies: the
    arithmetic of one entry of a floating-point tensor.  [None] is the
    result of an operation that this instance does not compute (the
    logarithm and the power), and of any operation on it. *)
Module IEEE.
Definition lift2 (f : spec_float → spec_float → spec_float)
    (a b : option spec_float) : option spec_float :=
  match a, b with
  | Some x, Some y => Some (f x y)
  | _, _ => None
  end.

(** A Python number as an entry of the format. *)
Definition of_float (prec emax : Z) (f : float) : spec_float :=
  match Prim2SF f with
  | S754_finite s m e => SpecFloat.binary_round prec emax s m e
  | x => x
  end.

Definition tensor (prec emax : Z) : Tensor (option spec_float) := {|
  tadd := lift2 (SpecFloat.SFadd prec emax);
  tsub := lift2 (SpecFloat.SFsub prec emax);
  tmul := lift2 (SpecFloat.SFmul prec emax);
  tdiv := lift2 (SpecFloat.SFdiv prec emax);
  tpow a n := None;
  tsqrt a := SpecFloat.SFsqrt prec emax <$> a;
  tlog a := None;
  tscal f := Some (of_float prec emax f);
|}.

(** The formats [torch.float32] and [torch.float64]. *)
Definition is_format (prec emax : Z) : Prop :=
  (prec = 24 ∧ emax = 128) ∨ (prec = 53 ∧ emax = 1024).

(** A number of the format: neither an infinity nor NaN. *)
Definition finite (prec emax : Z) (x : spec_float) : Prop :=
  SpecFloat.valid_binary prec emax x = true
  ∧ match x with
    | S754_zero _ | S754_finite _ _ _ => True
    | S754_infinity _ | S754_nan => False
    end.

(** [a == b] on two entries. *)
Definition same_number (a b : spec_float) : Prop := SpecFloat.SFeqb a b = true.

Definition one32 : spec_float := S754_finite false 8388608 (-23).
Definition one64 : spec_float := S754_finite false 4503599627370496 (-52).
End IEEE.

(** Tensors with their contents erased: a run over them shows the
    control flow and the interactions of the sampler and nothing of its
    arithmetic, so that a whole schedule of 1000 timesteps stays small. *)
Module Erased.
Global Instance unit_tensor : Tensor unit := {|
  tadd _ _ := (); tsub _ _ := (); tmul _ _ := (); tdiv _ _ := ();
  tpow _ _ := (); tsqrt _ := (); tlog _ := (); tscal _ := ();
|}.

(** Collaborators for the given sampler, with a beta schedule of
    [betas] entries. *)
Definition env (sampler : Sampler) (betas : nat) : Env unit := {|
  self_sampler := sampler;
  model_infer tr a := ();
  control_infer tr a := ∅;
  q_sample tr x0 ts := ();
  model_attr name := None;
  model_parameterization := "eps";
  noise_like tr x repeat_noise := ();
  dropout tr noise p := ();
  randn tr shape := ();
  shape0 x := Ok 1;
  make_ddim_timesteps method n total := Symbolic.uniform_plan n total;
  make_beta_schedule schedule n linear_start linear_end cosine_s := Ok (replicate betas ());
  make_ddim_sampling_parameters alphacums ddim_timesteps eta :=
    let n := length ddim_timesteps in
    Ok (replicate n (), replicate n (), replicate n ());
|}.

Definition fresh : State unit := {| self_attrs := ∅; trace := [] |}.
Definition cond : Conditioning unit := {| c_crossattn := (); c_concat := None |}.

(** A build whose beta schedule has 3 entries instead of 1000. *)
Definition short_build : M unit unit := @make_schedule _ _ (env DDIM 3) 4 "uniform" 0.
Definition short_build_s : State unit := Eval vm_compute in snd (short_build fresh).

(** A PLMS build for 4 steps, and a call of [sample] for 4 steps. *)
Definition build : M unit unit := @self_make_schedule _ _ (env PLMS 1000) 4 "uniform" 0.
Definition build_s : State unit := Eval vm_compute in snd (build fresh).

Definition plms_sample : M unit (unit * Intermediates) :=
  @sample _ _ (env PLMS 1000) 4 1 [4; 8; 8] cond FirstCrossattn true false false 0 None None
    1 0 None None None 100 1 None None.
Definition plms_sample_r : unit * Intermediates :=
  Eval vm_compute in
    Symbolic.value_of ((), {| x_inter := []; inter_pred_x0 := [] |})
      (fst (plms_sample fresh)).
Definition plms_sample_s : State unit := Eval vm_compute in snd (plms_sample fresh).
End Erased.

(** ** Running the monad *)

Section running.
Context {T : Type}.
Implicit Types s : State T.

Lemma bind_run {A B} (m : M T A) (k : A → M T B) s :
  (m ≫= k) s =
  match m s with
  | (Ok a, s') => k a s'
  | (Raise e, s') => (Raise e, s')
  end.
Proof. reflexivity. Qed.

Lemma bind_ok {A B} (m : M T A) (k : A → M T B) s a s' :
  m s = (Ok a, s') → (m ≫= k) s = k a s'.
Proof. intros Hm. rewrite bind_run, Hm. reflexivity. Qed.

Lemma bind_raise {A B} (m : M T A) (k : A → M T B) s e s' :
  m s = (Raise e, s') → (m ≫= k) s = (Raise e, s').
Proof. intros Hm. rewrite bind_run, Hm. reflexivity. Qed.

Lemma bind_ok_inv {A B} (m : M T A) (k : A → M T B) s b s2 :
  (m ≫= k) s = (Ok b, s2) →
  ∃ a s1, m s = (Ok a, s1) ∧ k a s1 = (Ok b, s2).
Proof.
  rewrite bind_run. destruct (m s) as [[a|e] s1]; intros Hk.
  - exists a, s1. split; [reflexivity | exact Hk].
  - discriminate Hk.
Qed.

Lemma ret_run {A} (a : A) s : (mret a : M T A) s = (Ok a, s).
Proof. reflexivity. Qed.

Lemma lift_ok_inv {A} (r : Result A) s a s' :
  lift r s = (Ok a, s') → r = Ok a ∧ s' = s.
Proof. unfold lift. intros [= -> ->]. split; reflexivity. Qed.
End running.

(** Splits a successful run of a sequence at its first step. *)
Ltac run_inv H :=
  let a := fresh "a" in
  let s1 := fresh "s" in
  let H1 := fresh "Hrun" in
  apply bind_ok_inv in H as (a & s1 & H1 & H).

Tactic Notation "run_split" hyp(H) "as" ident(a) ident(s1) ident(H1) :=
  apply bind_ok_inv in H as (a & s1 & H1 & H).

(** ** The arithmetic of IEEE scalars *)

Section ieee_arithmetic.
Import IEEE.

Lemma valid_finite prec emax s m e :
  SpecFloat.valid_binary prec emax (S754_finite s m e) = true →
  SpecFloat.fexp prec emax (Z.pos (SpecFloat.digits2_pos m) + e) = e ∧ e ≤ emax - prec.
Proof.
  unfold SpecFloat.valid_binary, SpecFloat.bounded, SpecFloat.canonical_mantissa.
  intros [H1 H2]%andb_prop. apply Z.eqb_eq in H1. apply Z.leb_le in H2. done.
Qed.

Lemma digits2_xO p : SpecFloat.digits2_pos p~0 = Pos.succ (SpecFloat.digits2_pos p).
Proof. reflexivity. Qed.

(** The product of the format's [1.0] and a number of the format is
    that number: the mantissa is shifted up by the bits of [1.0] and
    rounded back without loss. *)
Ltac mul_one Hv :=
  let Hc := fresh "Hc" in let He := fresh "He" in
  pose proof (valid_finite _ _ _ _ _ Hv) as [Hc He];
  unfold SpecFloat.SFmul;
  rewrite ?xorb_false_r, ?xorb_false_l;
  unfold SpecFloat.binary_round_aux at 1, SpecFloat.shr_fexp at 1;
  cbv [Pos.mul]; cbn [SpecFloat.Zdigits2 SpecFloat.shr_record_of_loc];
  match goal with
  | |- context [SpecFloat.shr _ ?e0 (SpecFloat.fexp ?p ?em ?d - ?e0)] =>
      let k := eval cbv in (p - 1) in
      replace (SpecFloat.fexp p em d - e0) with k
        by (rewrite !digits2_xO; unfold SpecFloat.fexp, SpecFloat.emin in *; lia)
  end;
  cbn [SpecFloat.shr SpecFloat.iter_pos SpecFloat.shr_1 orb SpecFloat.shr_m
       SpecFloat.loc_of_shr_record SpecFloat.round_nearest_even];
  match goal with
  | |- context [SpecFloat.shr_fexp _ _ _ ?e1 _] =>
      match type of Hc with _ = ?e => replace e1 with e by lia end
  end;
  unfold SpecFloat.shr_fexp; cbn [SpecFloat.Zdigits2];
  rewrite Hc, Z.sub_diag; simpl;
  by rewrite (proj2 (Z.leb_le _ _) He).

Lemma mul_one_l_32 s m e :
  SpecFloat.valid_binary 24 128 (S754_finite s m e) = true →
  SpecFloat.SFmul 24 128 one32 (S754_finite s m e) = S754_finite s m e.
Proof. intros Hv. unfold one32. mul_one Hv. Qed.

Lemma mul_one_l_64 s m e :
  SpecFloat.valid_binary 53 1024 (S754_finite s m e) = true →
  SpecFloat.SFmul 53 1024 one64 (S754_finite s m e) = S754_finite s m e.
Proof. intros Hv. unfold one64. mul_one Hv. Qed.

Lemma mul_comm_finite prec emax s1 m1 e1 s2 m2 e2 :
  SpecFloat.SFmul prec emax (S754_finite s1 m1 e1) (S754_finite s2 m2 e2)
  = SpecFloat.SFmul prec emax (S754_finite s2 m2 e2) (S754_finite s1 m1 e1).
Proof. unfold SpecFloat.SFmul. by rewrite xorb_comm, Pos.mul_comm, Z.add_comm. Qed.

Lemma same_number_refl prec emax x : finite prec emax x → same_number x x.
Proof.
  intros [_ Hx]. unfold same_number, SpecFloat.SFeqb, SpecFloat.SFcompare.
  destruct x as [s|s| |s m e]; try done.
  rewrite Z.compare_refl, Pos.compare_cont_refl. by destruct s.
Qed.

(** The two blends, for a format whose [1.0] is neutral. *)
Lemma blend_of_one prec emax mo eo :
  let one := S754_finite false mo eo in
  let add := SpecFloat.SFadd prec emax in
  let mul := SpecFloat.SFmul prec emax in
  let sub := SpecFloat.SFsub prec emax in
  (∀ s m e, SpecFloat.valid_binary prec emax (S754_finite s m e) = true →
            mul one (S754_finite s m e) = S754_finite s m e) →
  sub one one = S754_zero false →
  ∀ x y, finite prec emax x → finite prec emax y →
    (let r := add (mul x one) (mul (sub one one) y) in
     same_number r x ∧ (x ≠ S754_zero true → r = x))
    ∧ (let r := add (mul x (S754_zero false)) (mul (sub one (S754_zero false)) y) in
       same_number r y ∧ (y ≠ S754_zero true → r = y)).
Proof.
  intros one add mul sub Hone Hsub x y Hx Hy.
  assert (∀ s m e, SpecFloat.valid_binary prec emax (S754_finite s m e) = true →
                   mul (S754_finite s m e) one = S754_finite s m e) as Hone_r.
  { intros s m e Hv. unfold mul, one. rewrite mul_comm_finite. by apply Hone. }
  pose proof (same_number_refl _ _ _ Hx) as Hxx.
  pose proof (same_number_refl _ _ _ Hy) as Hyy.
  split.
  - cbv zeta. rewrite Hsub.
    destruct Hx as [Hvx Hfx], Hy as [Hvy Hfy].
    destruct x as [sx|sx| |sx mx ex]; try done; destruct y as [sy|sy| |sy my ey]; try done.
    + unfold mul, add, one. simpl. destruct sx, sy; simpl; split; try done.
    + unfold mul, add, one. simpl. destruct sx, sy; simpl; split; try done.
    + rewrite Hone_r by done. unfold mul, add. simpl. done.
    + rewrite Hone_r by done. unfold mul, add. simpl. done.
  - cbv zeta.
    assert (sub one (S754_zero false) = one) as -> by reflexivity.
    destruct Hx as [Hvx Hfx], Hy as [Hvy Hfy].
    destruct x as [sx|sx| |sx mx ex]; try done; destruct y as [sy|sy| |sy my ey]; try done.
    + unfold mul, add, one. simpl. destruct sx, sy; simpl; split; try done.
    + rewrite Hone by done. unfold mul, add. simpl. by destruct sx.
    + unfold mul, add, one. simpl. destruct sx, sy; simpl; split; try done.
    + rewrite Hone by done. unfold mul, add. simpl. by destruct sx.
Qed.

(** In binary32 and in binary64, on entries that are neither infinite
    nor NaN: under an all-ones mask the blend is the noised known entry,
    under an all-zeros mask it is the current entry, in both cases up to
    the sign of a zero. *)
Lemma ieee_mask_blend prec emax (x y : spec_float) :
  is_format prec emax → finite prec emax x → finite prec emax y →
  (∃ r, @mask_blend _ (tensor prec emax) (Some x) (@tscal _ (tensor prec emax) 1) (Some y)
        = Some r
        ∧ same_number r x ∧ (x ≠ S754_zero true → r = x))
  ∧ (∃ r, @mask_blend _ (tensor prec emax) (Some x) (@tscal _ (tensor prec emax) 0) (Some y)
          = Some r
          ∧ same_number r y ∧ (y ≠ S754_zero true → r = y)).
Proof.
  intros [[-> ->]|[-> ->]] Hx Hy.
  - destruct (blend_of_one 24 128 8388608 (-23) mul_one_l_32 eq_refl x y Hx Hy)
      as [Hones Hzeros].
    split; eexists; (split; [reflexivity|]); [exact Hones | exact Hzeros].
  - destruct (blend_of_one 53 1024 4503599627370496 (-52) mul_one_l_64 eq_refl x y Hx Hy)
      as [Hones Hzeros].
    split; eexists; (split; [reflexivity|]); [exact Hones | exact Hzeros].
Qed.
End ieee_arithmetic.

(** ** Properties of the sampler *)

Section properties.
Context {T : Type} `{!Tensor T} `{!Env T}.
Implicit Types (s : State T) (evs : list (Event T)) (x e_t : T).
Local Open Scope tensor_scope.

Lemma log_nil s : log s [] = s.
Proof. destruct s as [attrs tr]. unfold log. simpl. by rewrite app_nil_r. Qed.

Lemma log_log s evs1 evs2 : log (log s evs1) evs2 = log s (evs1 ++ evs2).
Proof. unfold log. simpl. by rewrite app_assoc. Qed.

Lemma keyed_log s evs : keyed (log s evs) = log (keyed s) evs.
Proof. reflexivity. Qed.

Lemma keyed_keyed s : keyed (keyed s) = keyed s.
Proof. unfold keyed. simpl. by rewrite insert_insert_eq. Qed.

Lemma model_calls_app evs1 evs2 :
  model_calls (evs1 ++ evs2) = (model_calls evs1 + model_calls evs2)%nat.
Proof. unfold model_calls. by rewrite filter_app, length_app. Qed.

Lemma emit_run (ev : Event T) s : emit ev s = (Ok (), log s [ev]).
Proof. reflexivity. Qed.

(** *** The control signals *)

Lemma probe_controls_lookup (control_out : gmap string T) fuel i j v :
  probe_controls control_out fuel i !! j = Some v →
  control_out !! ("control_" +:+ pretty (i + j)%nat) = Some v.
Proof.
  revert i j. induction fuel as [|fuel IH]; intros i j; simpl; [done|].
  destruct (control_out !! ("control_" +:+ pretty i)) as [w|] eqn:Hw; [|done].
  destruct j as [|j]; simpl.
  - intros [= <-]. by rewrite Nat.add_0_r.
  - intros Hj. apply IH in Hj. by rewrite Nat.add_succ_r.
Qed.

(** The [j]-th extracted control signal is the entry [control_j] of the
    reply. *)
Lemma extract_controls_lookup (control_out : gmap string T) j v :
  extract_controls control_out !! j = Some v →
  control_out !! ("control_" +:+ pretty j) = Some v.
Proof. apply (probe_controls_lookup control_out (size control_out) 0 j v). Qed.

Lemma scale_controls_lookup (control : list T) (scales : list float) i c sc :
  control !! i = Some c → scales !! i = Some sc →
  scale_controls control scales !! i = Some (c * #sc).
Proof.
  intros Hc Hs. unfold scale_controls.
  rewrite lookup_zip_with, Hc. simpl. rewrite Hs. reflexivity.
Qed.

Lemma scale_controls_length (control : list T) (scales : list float) :
  length scales = length control →
  length (scale_controls control scales) = length control.
Proof. intros Hlen. unfold scale_controls. rewrite length_zip_with. lia. Qed.

(** *** [apply_model], run *)

Lemma apply_model_no_hint x t cond scales s :
  c_concat cond = None →
  apply_model x t cond scales s = infer_step (unet_args x t cond []) (keyed s).
Proof. intros Hc. unfold apply_model. rewrite Hc. reflexivity. Qed.

Lemma apply_model_hint_unscaled x t cond hint s :
  c_concat cond = Some hint →
  let reply := control_infer (trace s) (control_args x t cond hint) in
  apply_model x t cond None s =
  infer_step (unet_args x t cond (extract_controls reply))
             (log (keyed s) [EvControlInfer (control_args x t cond hint) reply]).
Proof. intros Hc. unfold apply_model. rewrite Hc. reflexivity. Qed.

Lemma apply_model_hint_scaled x t cond hint scales s :
  c_concat cond = Some hint →
  let reply := control_infer (trace s) (control_args x t cond hint) in
  let s1 := log (keyed s) [EvControlInfer (control_args x t cond hint) reply] in
  apply_model x t cond (Some scales) s =
  if bool_decide (length scales = length (extract_controls reply))
  then infer_step (unet_args x t cond (scale_controls (extract_controls reply) scales)) s1
  else (Raise AssertionError, s1).
Proof.
  intros Hc reply s1. unfold apply_model. rewrite Hc.
  rewrite bind_run. unfold setattr at 1. fold (keyed s).
  rewrite bind_run, bind_run. unfold get_trace at 1. cbn [trace keyed].
  rewrite bind_run, emit_run. fold (control_args x t cond hint). fold reply. fold s1.
  rewrite bind_run, bind_run. unfold py_assert.
  destruct (bool_decide _); reflexivity.
Qed.

(** A run of [apply_model] sets [conditioning_key] and appends to the
    trace; a successful one ends with its single invocation of the
    denoising service, whose reply it returns. *)
Lemma apply_model_ok x t cond scales s out s' :
  apply_model x t cond scales s = (Ok out, s') →
  ∃ pre a, s' = log (keyed s) (pre ++ [EvModelInfer a out]) ∧ model_calls pre = 0%nat.
Proof.
  destruct (c_concat cond) as [hint|] eqn:Hc.
  - destruct scales as [scales|].
    + rewrite (apply_model_hint_scaled _ _ _ hint) by done. cbv zeta.
      case_bool_decide; [|done]. unfold infer_step. intros [= <- <-].
      eexists [_], _. rewrite log_log. split; reflexivity.
    + rewrite (apply_model_hint_unscaled _ _ _ hint) by done. cbv zeta.
      unfold infer_step. intros [= <- <-].
      eexists [_], _. rewrite log_log. split; reflexivity.
  - rewrite apply_model_no_hint by done. unfold infer_step. intros [= <- <-].
    exists [], (unet_args x t cond []). split; reflexivity.
Qed.

(** C7.  When the conditioning carries a hint and [control_scales] is
    supplied: if its length differs from the number of control signals
    extracted from the reply of the control service, [apply_model]
    raises [AssertionError] after the control service was called and
    without any invocation of the denoising service; if the lengths
    agree, the denoising service is invoked once, with every control
    signal multiplied by the scale at its position. *)
Theorem apply_model_control_scales x t cond hint (scales : list float) s :
  c_concat cond = Some hint →
  let reply := control_infer (trace s) (control_args x t cond hint) in
  let control := extract_controls reply in
  let called := [EvControlInfer (control_args x t cond hint) reply] in
  (length scales ≠ length control →
     apply_model x t cond (Some scales) s = (Raise AssertionError, log (keyed s) called)
     ∧ model_calls called = 0%nat)
  ∧ (length scales = length control →
     let scaled := scale_controls control scales in
     apply_model x t cond (Some scales) s =
       infer_step (unet_args x t cond scaled) (log (keyed s) called)
     ∧ length scaled = length control
     ∧ ∀ i c, control !! i = Some c →
         ∃ scale, scales !! i = Some scale ∧ scaled !! i = Some (c * #scale)).
Proof.
  intros Hc reply control called.
  pose proof (apply_model_hint_scaled x t cond hint scales s Hc) as Hrun.
  cbv zeta in Hrun. fold reply control called in Hrun.
  split; intros Hlen.
  - rewrite Hrun. rewrite bool_decide_eq_false_2 by exact Hlen. done.
  - intros scaled. rewrite Hrun. rewrite bool_decide_eq_true_2 by exact Hlen.
    split; [reflexivity|]. split; [by apply scale_controls_length|].
    intros i c Hi.
    destruct (scales !! i) as [scale|] eqn:Hs.
    + exists scale. split; [reflexivity|]. by apply scale_controls_lookup.
    + apply lookup_ge_None in Hs. apply lookup_lt_Some in Hi. lia.
Qed.

(** *** [_get_model_output], run *)


Lemma get_model_output_unguided x t uc scale sc c kw cs :
  guidance_off uc scale = true →
  _get_model_output x t uc scale sc c kw cs =
  (apply_model x t c cs ≫= λ e_t, correct_score sc kw e_t x t c).
Proof.
  unfold _get_model_output, guidance_off. destruct uc as [ucond|]; [|done].
  by intros ->.
Qed.

Lemma get_model_output_guided x t ucond scale sc c kw cs :
  guidance_off (Some ucond) scale = false →
  _get_model_output x t (Some ucond) scale sc c kw cs =
  ((model_t ← apply_model x t c cs;
    model_uncond ← apply_model x t ucond cs;
    mret (guide model_t model_uncond scale))
   ≫= λ e_t, correct_score sc kw e_t x t c).
Proof. unfold _get_model_output, guidance_off. by intros ->. Qed.

Lemma get_model_output_inv x t uc scale sc c kw cs s e s' :
  _get_model_output x t uc scale sc c kw cs s = (Ok e, s') →
  ∃ e0 s0 evs,
    s0 = log (keyed s) evs
    ∧ (if guidance_off uc scale
       then apply_model x t c cs s = (Ok e0, s0) ∧ model_calls evs = 1%nat
       else ∃ ucond cond_out uncond_out s1,
              uc = Some ucond
              ∧ apply_model x t c cs s = (Ok cond_out, s1)
              ∧ apply_model x t ucond cs s1 = (Ok uncond_out, s0)
              ∧ model_calls evs = 2%nat
              ∧ e0 = uncond_out + #scale * (cond_out - uncond_out))
    ∧ correct_score sc kw e0 x t c s0 = (Ok e, s')
    ∧ (sc = None → e = e0 ∧ s' = s0).
Proof.
  intros Hrun. destruct (guidance_off uc scale) eqn:Hoff.
  - rewrite get_model_output_unguided in Hrun by done.
    run_split Hrun as e0 s1 Happly.
    destruct (apply_model_ok _ _ _ _ _ _ _ Happly) as (pre & args & Hs1 & Hpre).
    exists e0, s1, (pre ++ [EvModelInfer args e0]).
    split; [done|]. split.
    { split; [done|]. rewrite model_calls_app, Hpre. reflexivity. }
    split; [done|]. intros ->. by inversion Hrun.
  - destruct uc as [ucond|]; [|done].
    rewrite get_model_output_guided in Hrun by done.
    run_split Hrun as e0 s2 Hboth.
    run_split Hboth as cond_out s1 Hcond.
    run_split Hboth as uncond_out s2' Huncond.
    rewrite ret_run in Hboth. injection Hboth as <- ->.
    destruct (apply_model_ok _ _ _ _ _ _ _ Hcond) as (pre1 & a1 & Hs1 & Hpre1).
    destruct (apply_model_ok _ _ _ _ _ _ _ Huncond) as (pre2 & a2 & Hs2 & Hpre2).
    exists (guide cond_out uncond_out scale), s2,
      ((pre1 ++ [EvModelInfer a1 cond_out]) ++ pre2 ++ [EvModelInfer a2 uncond_out]).
    split; [by rewrite Hs2, Hs1, keyed_log, keyed_keyed, log_log|]. split.
    { exists ucond, cond_out, uncond_out, s1.
      repeat (split; [done|]). split; [|reflexivity].
      rewrite !model_calls_app, Hpre1, Hpre2. reflexivity. }
    split; [done|]. intros ->. by inversion Hrun.
Qed.

(** C1.  When the unconditional conditioning is [None] or the guidance
    scale equals 1.0 the evaluator is one call of [apply_model] (followed
    by the optional score corrector); otherwise it is two calls, the
    conditional one then the unconditional one, composed as
    [uncond_out + guidance_scale * (cond_out - uncond_out)].  In a run
    that returns, the denoising service is accordingly invoked once and
    its output is the derivative estimate, or invoked twice and the
    estimate is the composition; the estimate [e0] is what the score
    corrector receives, and without a corrector it is the value
    returned. *)
Theorem get_model_output_guidance x t uc scale sc c kw cs :
  (guidance_off uc scale = true →
     _get_model_output x t uc scale sc c kw cs =
     (apply_model x t c cs ≫= λ e_t, correct_score sc kw e_t x t c))
  ∧ (∀ ucond, uc = Some ucond → guidance_off uc scale = false →
       _get_model_output x t uc scale sc c kw cs =
       ((cond_out ← apply_model x t c cs;
         uncond_out ← apply_model x t ucond cs;
         mret (uncond_out + #scale * (cond_out - uncond_out)))
        ≫= λ e_t, correct_score sc kw e_t x t c))
  ∧ (∀ s e s',
       _get_model_output x t uc scale sc c kw cs s = (Ok e, s') →
       ∃ e0 s0 evs,
         s0 = log (keyed s) evs
         ∧ (if guidance_off uc scale
            then apply_model x t c cs s = (Ok e0, s0) ∧ model_calls evs = 1%nat
            else ∃ ucond cond_out uncond_out s1,
                   uc = Some ucond
                   ∧ apply_model x t c cs s = (Ok cond_out, s1)
                   ∧ apply_model x t ucond cs s1 = (Ok uncond_out, s0)
                   ∧ model_calls evs = 2%nat
                   ∧ e0 = uncond_out + #scale * (cond_out - uncond_out))
         ∧ correct_score sc kw e0 x t c s0 = (Ok e, s')
         ∧ (sc = None → e = e0 ∧ s' = s0)).
Proof.
  split; [apply get_model_output_unguided|]. split.
  - intros ucond -> Hoff. by apply get_model_output_guided.
  - intros s e s'. apply get_model_output_inv.
Qed.

(** *** [_get_x_prev_and_pred_x0], run *)

Lemma select_table_run use_original_steps original ddim s :
  ∃ r, select_table use_original_steps original ddim s = (r, s).
Proof.
  unfold select_table, model_table, get_table.
  destruct use_original_steps.
  - destruct (model_attr original); eauto.
  - destruct (self_attrs s !! ddim) as [[?|?|?]|]; eauto.
Qed.

Lemma coefficient_ok use_original_steps original ddim index s a :
  coefficient use_original_steps original ddim index s = Ok a →
  ∃ table, select_table use_original_steps original ddim s = (Ok table, s)
           ∧ py_index table index = Ok a.
Proof.
  unfold coefficient.
  destruct (select_table_run use_original_steps original ddim s) as [r ->].
  destruct r as [table|e]; [|done]. eauto.
Qed.

Lemma reconstruct_run orig index x e_t q repeat_noise temperature noise_dropout s
    a_t a_prev sigma_t sqrt_one_minus_at :
  coefficient orig "alphas_cumprod" "ddim_alphas" index s = Ok a_t →
  coefficient orig "alphas_cumprod_prev" "ddim_alphas_prev" index s = Ok a_prev →
  coefficient orig "ddim_sigmas_for_original_num_steps" "ddim_sigmas" index s = Ok sigma_t →
  coefficient orig "sqrt_one_minus_alphas_cumprod" "ddim_sqrt_one_minus_alphas" index s
    = Ok sqrt_one_minus_at →
  _get_x_prev_and_pred_x0 orig index x e_t q repeat_noise temperature noise_dropout s =
  let pred_x0 := pred_x0_of x e_t a_t sqrt_one_minus_at in
  let '(noise, s') := noise_step sigma_t x repeat_noise temperature noise_dropout s in
  (Ok (tsqrt a_prev * pred_x0 + dir_xt_of e_t a_prev sigma_t + noise, pred_x0), s').
Proof.
  intros (t1 & Ht1 & Ha)%coefficient_ok (t2 & Ht2 & Hp)%coefficient_ok
         (t3 & Ht3 & Hs)%coefficient_ok (t4 & Ht4 & Hq)%coefficient_ok.
  unfold _get_x_prev_and_pred_x0.
  rewrite (bind_ok _ _ _ _ _ Ht1), (bind_ok _ _ _ _ _ Ht2),
          (bind_ok _ _ _ _ _ Ht4), (bind_ok _ _ _ _ _ Ht3).
  rewrite Ha, Hp, Hs, Hq. unfold noise_step.
  destruct (PrimFloat.ltb 0 noise_dropout) eqn:Hd; rewrite !bind_run; simpl;
    rewrite ?bind_run, ?Hd; reflexivity.
Qed.

(** C3.  With the coefficients [a_t], [a_prev], [sigma_t] and
    [sqrt_one_minus_at] read at [index], the reconstruction sub-step
    returns [pred_x0 = (x - sqrt_one_minus_at * e_t) / sqrt(a_t)] and
    [x_prev = sqrt(a_prev) * pred_x0 + dir_xt + noise], where
    [dir_xt = sqrt(1 - a_prev - sigma_t^2) * e_t] and the noise term is
    [sigma_t * noise_like(..) * temperature], passed through [dropout]
    exactly when [noise_dropout > 0]. *)
Theorem reconstruct_formulas orig index x e_t q repeat_noise temperature noise_dropout s
    a_t a_prev sigma_t sqrt_one_minus_at :
  coefficient orig "alphas_cumprod" "ddim_alphas" index s = Ok a_t →
  coefficient orig "alphas_cumprod_prev" "ddim_alphas_prev" index s = Ok a_prev →
  coefficient orig "ddim_sigmas_for_original_num_steps" "ddim_sigmas" index s = Ok sigma_t →
  coefficient orig "sqrt_one_minus_alphas_cumprod" "ddim_sqrt_one_minus_alphas" index s
    = Ok sqrt_one_minus_at →
  ∃ noise s',
    let pred_x0 := (x - sqrt_one_minus_at * e_t) / tsqrt a_t in
    let dir_xt := tsqrt (#1 - a_prev - tpow sigma_t 2) * e_t in
    let drawn := noise_like (trace s) x repeat_noise in
    let scaled := sigma_t * drawn * #temperature in
    _get_x_prev_and_pred_x0 orig index x e_t q repeat_noise temperature noise_dropout s
      = (Ok (tsqrt a_prev * pred_x0 + dir_xt + noise, pred_x0), s')
    ∧ (PrimFloat.ltb 0 noise_dropout = false →
         noise = scaled ∧ s' = log s [EvNoiseLike repeat_noise drawn])
    ∧ (PrimFloat.ltb 0 noise_dropout = true →
         let kept := dropout (trace s ++ [EvNoiseLike repeat_noise drawn]) scaled
                       noise_dropout in
         noise = kept
         ∧ s' = log s [EvNoiseLike repeat_noise drawn; EvDropout scaled noise_dropout kept]).
Proof.
  intros Ha Hp Hs Hq.
  pose proof (reconstruct_run orig index x e_t q repeat_noise temperature noise_dropout
                s _ _ _ _ Ha Hp Hs Hq) as Hrun.
  cbv zeta in Hrun. unfold noise_step in Hrun.
  destruct (PrimFloat.ltb 0 noise_dropout) eqn:Hd; cbv zeta in Hrun.
  - eexists _, _. cbv zeta. split; [exact Hrun|]. split; [done|].
    intros _. by rewrite log_log.
  - eexists _, _. cbv zeta. split; [exact Hrun|]. split; [done|]. done.
Qed.

(** *** What a run leaves in the trace *)

Lemma select_table_ok use_original_steps original ddim s table s' :
  select_table use_original_steps original ddim s = (Ok table, s') → s' = s.
Proof.
  destruct (select_table_run use_original_steps original ddim s) as [r ->].
  by intros [= _ <-].
Qed.



(** *** Indexing the history from its end *)

Lemma py_index_from_end {A} (l : list A) (k : nat) (a : A) :
  reverse l !! k = Some a → py_index l (- Z.of_nat k - 1) = Ok a.
Proof.
  intros Hk.
  pose proof (lookup_lt_Some _ _ _ Hk) as Hlt. rewrite length_reverse in Hlt.
  rewrite reverse_lookup in Hk by exact Hlt.
  unfold py_index.
  replace (- Z.of_nat k - 1 <? 0) with true by (symmetry; apply Z.ltb_lt; lia).
  replace (0 <=? - Z.of_nat k - 1 + Z.of_nat (length l)) with true
    by (symmetry; apply Z.leb_le; lia).
  replace (- Z.of_nat k - 1 + Z.of_nat (length l) <? Z.of_nat (length l)) with true
    by (symmetry; apply Z.ltb_lt; lia).
  simpl.
  replace (Z.to_nat (- Z.of_nat k - 1 + Z.of_nat (length l))) with (length l - S k)%nat
    by lia.
  by rewrite Hk.
Qed.

Lemma history_last (old : list T) h1 rest :
  reverse old = h1 :: rest → py_index old (-1) = Ok h1.
Proof. intros Hrev. apply (py_index_from_end old 0). by rewrite Hrev. Qed.

Lemma history_last2 (old : list T) h1 h2 rest :
  reverse old = h1 :: h2 :: rest → py_index old (-2) = Ok h2.
Proof. intros Hrev. apply (py_index_from_end old 1). by rewrite Hrev. Qed.

Lemma history_last3 (old : list T) h1 h2 h3 rest :
  reverse old = h1 :: h2 :: h3 :: rest → py_index old (-3) = Ok h3.
Proof. intros Hrev. apply (py_index_from_end old 2). by rewrite Hrev. Qed.

(** *** [PLMSSampler.p_sampling_fn], run *)

(** The anatomy of a successful PLMS step: the evaluation at the
    current state, the combination selected by the depth of the
    history (with [h1], [h2], [h3] its entries from the most recent),
    and the reconstruction from the combined estimate. *)
Lemma plms_step_inv x c t index rn orig q temp nd sc kw scale uc (old : list T)
    t_next cs s r s' :
  PLMS_p_sampling_fn x c t index rn orig q temp nd sc kw scale uc (Some old) t_next cs s
    = (Ok r, s') →
  ∃ e_t s1 e_t_prime s2 x_prev pred_x0,
    _get_model_output x t uc scale sc c kw cs s = (Ok e_t, s1)
    ∧ match reverse old with
      | [] =>
          ∃ tn x_ahead p_ahead s_ahead e_t_next,
            t_next = Some tn
            ∧ _get_x_prev_and_pred_x0 orig index x e_t q rn temp nd s1
                = (Ok (x_ahead, p_ahead), s_ahead)
            ∧ _get_model_output x_ahead tn uc scale sc c kw cs s_ahead = (Ok e_t_next, s2)
            ∧ e_t_prime = (e_t + e_t_next) / #2
      | [h1] => s2 = s1 ∧ e_t_prime = (#3 * e_t - h1) / #2
      | [h1; h2] => s2 = s1 ∧ e_t_prime = (#23 * e_t - #16 * h1 + #5 * h2) / #12
      | h1 :: h2 :: h3 :: _ =>
          s2 = s1 ∧ e_t_prime = (#55 * e_t - #59 * h1 + #37 * h2 - #9 * h3) / #24
      end
    ∧ _get_x_prev_and_pred_x0 orig index x e_t_prime q rn temp nd s2
        = (Ok (x_prev, pred_x0), s')
    ∧ r = (x_prev, pred_x0, e_t).
Proof.
  intros Hrun. unfold PLMS_p_sampling_fn in Hrun.
  run_inv Hrun. rename a into e_t, s0 into s1, Hrun0 into Heval.
  rewrite bind_run, ret_run in Hrun.
  run_inv Hrun. rename a into e_t_prime, s0 into s2, Hrun0 into Hprime.
  run_inv Hrun. destruct a as [x_prev pred_x0]. rename Hrun0 into Hrecon.
  rewrite ret_run in Hrun. injection Hrun as <- <-.
  exists e_t, s1, e_t_prime, s2, x_prev, pred_x0.
  split; [exact Heval|]. split; [|split; [exact Hrecon | reflexivity]].
  destruct (reverse old) as [|h1 [|h2 [|h3 rest]]] eqn:Hrev;
    pose proof (f_equal length Hrev) as Hlen;
    rewrite length_reverse in Hlen; simpl in Hlen.
  - rewrite bool_decide_eq_true_2 in Hprime by exact Hlen.
    run_inv Hprime. destruct a as [x_ahead p_ahead].
    destruct t_next as [tn|]; [|done].
    rewrite bind_run, ret_run in Hprime.
    run_inv Hprime. rename a into e_t_next.
    rewrite ret_run in Hprime. injection Hprime as <- <-.
    exists tn, x_ahead, p_ahead. eauto 10.
  - rewrite bool_decide_eq_false_2, bool_decide_eq_true_2 in Hprime by lia.
    rewrite bind_run in Hprime. unfold lift in Hprime.
    rewrite (history_last _ _ _ Hrev), ret_run in Hprime.
    by injection Hprime as <- <-.
  - rewrite !bool_decide_eq_false_2, bool_decide_eq_true_2 in Hprime by lia.
    rewrite !bind_run in Hprime. unfold lift in Hprime.
    rewrite (history_last _ _ _ Hrev) in Hprime.
    rewrite bind_run, (history_last2 _ _ _ _ Hrev), ret_run in Hprime.
    by injection Hprime as <- <-.
  - rewrite !bool_decide_eq_false_2, bool_decide_eq_true_2 in Hprime by lia.
    rewrite !bind_run in Hprime. unfold lift in Hprime.
    rewrite (history_last _ _ _ Hrev) in Hprime.
    rewrite bind_run, (history_last2 _ _ _ _ Hrev) in Hprime.
    rewrite bind_run, (history_last3 _ _ _ _ _ Hrev), ret_run in Hprime.
    by injection Hprime as <- <-.
Qed.


(** *** The history update *)

Lemma last3_length (l : list T) : length (last3 l) = (length l `min` 3)%nat.
Proof. unfold last3. rewrite length_drop. lia. Qed.

Lemma update_history_last3 (l : list T) e_t :
  update_history (last3 l) e_t = last3 (l ++ [e_t]).
Proof.
  unfold update_history, last3. rewrite !length_app, length_drop. simpl.
  destruct (decide (length l < 3)%nat) as [Hlt|Hge].
  - rewrite bool_decide_eq_false_2 by lia.
    replace (length l - 3)%nat with 0%nat by lia.
    replace (length l + 1 - 3)%nat with 0%nat by lia. reflexivity.
  - rewrite bool_decide_eq_true_2 by lia.
    rewrite <- (drop_app_le l [e_t]) by lia. rewrite drop_drop.
    f_equal. lia.
Qed.

(** *** The loop of [sampling_fn] *)

Section loop_properties.
Variables (cond : Conditioning T) (orig callback q : bool) (mask x0 : option T)
  (img_callback : bool) (log_every_t : Z) (temp nd : float)
  (sc : option (ScoreCorrector T)) (kw : option (Kwargs T)) (scale : float)
  (uc : option (Conditioning T)) (cs : option (list float))
  (time_range : list Z) (total_steps : Z).

Local Abbreviation body :=
  (loop_body cond orig callback q mask x0 img_callback log_every_t temp nd sc kw
     scale uc cs time_range total_steps).
Local Abbreviation integrate :=
  (integrate_and_update cond orig callback q img_callback log_every_t temp nd sc kw
     scale uc cs total_steps).
Local Abbreviation run :=
  (run_loop cond orig callback q mask x0 img_callback log_every_t temp nd sc kw
     scale uc cs time_range total_steps).
Local Abbreviation plms_step img step i old ts_next :=
  (PLMS_p_sampling_fn img cond step (total_steps - i - 1)%Z false orig q temp nd sc kw
     scale uc (Some old) ts_next cs).

Lemma next_and_history_run i st s :
  ∃ r, next_and_history time_range i st s = (r, s).
Proof.
  unfold next_and_history. destruct self_sampler; [|by eexists].
  rewrite bind_run. unfold lift. destruct (py_index _ _); by eexists.
Qed.

Lemma next_and_history_plms i st s ts_next hist s' :
  self_sampler = PLMS →
  next_and_history time_range i st s = (Ok (ts_next, hist), s') →
  hist = old_eps st ∧ s' = s.
Proof.
  unfold next_and_history. intros ->.
  rewrite bind_run. unfold lift. destruct (py_index _ _); [|done].
  rewrite ret_run. by intros [= <- <- <-].
Qed.

(** Under PLMS a successful iteration appends to the history the
    third component returned by the step function. *)
Lemma integrate_plms_inv i step st ts_next (old : list T) img0 s st' s' :
  self_sampler = PLMS →
  integrate i step st ts_next (Some old) img0 s = (Ok st', s') →
  ∃ x_prev pred_x0 e_t s1,
    plms_step img0 step i old ts_next s = (Ok (x_prev, pred_x0, e_t), s1)
    ∧ img st' = x_prev
    ∧ old_eps st' = Some (update_history old e_t)
    ∧ eps_log st' = eps_log st ++ [e_t].
Proof.
  intros HP Hrun. unfold integrate_and_update, p_sampling_fn in Hrun.
  rewrite HP in Hrun.
  run_split Hrun as outs s1 Hstep.
  run_split Hstep as r s2 Hplms. destruct r as [[x_prev pred_x0] e_t].
  rewrite ret_run in Hstep. injection Hstep as <- <-.
  rewrite !bind_run in Hrun. simpl in Hrun.
  exists x_prev, pred_x0, e_t, s2. split; [exact Hplms|].
  destruct callback, img_callback; simpl in Hrun;
    destruct (log_every_t =? 0); simpl in Hrun; try discriminate Hrun;
    injection Hrun as <- _; done.
Qed.

Lemma blend_known_none img0 ts s :
  mask = None → blend_known mask x0 img0 ts s = (Ok img0, s).
Proof. intros ->. reflexivity. Qed.

Lemma blend_known_some m known img0 ts s :
  mask = Some m → x0 = Some known →
  let img_orig := q_sample (trace s) known ts in
  blend_known mask x0 img0 ts s =
  (Ok (mask_blend img_orig m img0), log s [EvQSample known ts img_orig]).
Proof. intros -> ->. reflexivity. Qed.

Lemma blend_known_unknown m img0 ts s :
  mask = Some m → x0 = None →
  blend_known mask x0 img0 ts s = (Raise AssertionError, s).
Proof. intros -> ->. reflexivity. Qed.

Lemma loop_body_plms_inv i step st (old : list T) s st' s' :
  self_sampler = PLMS → old_eps st = Some old →
  body i step st s = (Ok st', s') →
  ∃ img0 s0 ts_next x_prev pred_x0 e_t s1,
    blend_known mask x0 (img st) step s = (Ok img0, s0)
    ∧ plms_step img0 step i old ts_next s0 = (Ok (x_prev, pred_x0, e_t), s1)
    ∧ img st' = x_prev
    ∧ old_eps st' = Some (update_history old e_t)
    ∧ eps_log st' = eps_log st ++ [e_t].
Proof.
  intros HP Hold Hrun. unfold loop_body in Hrun.
  run_split Hrun as nh s0 Hnh. destruct nh as [ts_next hist].
  apply next_and_history_plms in Hnh as [-> ->]; [|exact HP].
  run_split Hrun as img0 s0 Hblend. rewrite Hold in Hrun.
  destruct (integrate_plms_inv _ _ _ _ _ _ _ _ _ HP Hrun)
    as (x_prev & pred_x0 & e_t & s1 & Hstep & Himg & Hhist & Hlog).
  exists img0, s0, ts_next, x_prev, pred_x0, e_t, s1. done.
Qed.



(** C5.  In a PLMS iteration the value appended to the history is the
    estimate [e_t] that the evaluator produced at the current state,
    handed back as the third component of the triple that the step
    function returns; the combined estimate only feeds the
    reconstruction. *)
Theorem plms_history_gets_raw_estimate i step st (old : list T) s st' s' :
  self_sampler = PLMS → old_eps st = Some old →
  body i step st s = (Ok st', s') →
  ∃ img0 s0 ts_next x_prev pred_x0 e_t s_eval s_step,
    blend_known mask x0 (img st) step s = (Ok img0, s0)
    ∧ _get_model_output img0 step uc scale sc cond kw cs s0 = (Ok e_t, s_eval)
    ∧ plms_step img0 step i old ts_next s0 = (Ok (x_prev, pred_x0, e_t), s_step)
    ∧ old_eps st' = Some (update_history old e_t)
    ∧ last (update_history old e_t) = Some e_t
    ∧ eps_log st' = eps_log st ++ [e_t].
Proof.
  intros HP Hold Hrun.
  destruct (loop_body_plms_inv _ _ _ _ _ _ _ HP Hold Hrun)
    as (img0 & s0 & ts_next & x_prev & pred_x0 & e_t & s1 & Hblend & Hstep & _ & Hhist & Hlog).
  destruct (plms_step_inv _ _ _ _ _ _ _ _ _ _ _ _ _ _ _ _ _ _ _ Hstep)
    as (e & s_eval & e' & s2 & xp & p0 & Heval & _ & _ & Hr).
  injection Hr as _ _ <-.
  exists img0, s0, ts_next, x_prev, pred_x0, e_t, s_eval, s1.
  repeat (split; [done|]). split; [|done].
  unfold update_history. case_bool_decide.
  - destruct old as [|h old']; simpl in *; [lia|]. by rewrite drop_0, last_snoc.
  - by rewrite last_snoc.
Qed.

Lemma run_loop_plms_history steps i st s st' s' :
  self_sampler = PLMS →
  old_eps st = Some (last3 (eps_log st)) →
  run steps i st s = (Ok st', s') →
  ∃ newer, eps_log st' = eps_log st ++ newer
           ∧ length newer = length steps
           ∧ old_eps st' = Some (last3 (eps_log st')).
Proof.
  intros HP. revert i st s. induction steps as [|step steps IH]; intros i st s Hinv Hrun.
  - simpl in Hrun. rewrite ret_run in Hrun. injection Hrun as <- <-.
    exists []. by rewrite app_nil_r.
  - simpl in Hrun. run_split Hrun as st1 s1 Hbody.
    destruct (loop_body_plms_inv _ _ _ _ _ _ _ HP Hinv Hbody)
      as (img0 & s0 & ts_next & x_prev & pred_x0 & e_t & s2 & _ & _ & _ & Hhist & Hlog).
    rewrite update_history_last3, <- Hlog in Hhist.
    destruct (IH _ _ _ Hhist Hrun) as (newer & Hnewer & Hlen & Hinv').
    exists (e_t :: newer).
    split; [by rewrite Hnewer, Hlog, <- app_assoc|].
    split; [simpl; by rewrite Hlen | exact Hinv'].
Qed.

(** C4.  Throughout a PLMS run the history holds the last three
    estimates returned so far: after any number of iterations it has
    at most 3 entries, it never shrinks, it has 3 entries once three
    iterations are done, and after the 4th iteration of a run the
    first of the four estimates is gone while the other three remain
    in order. *)
Theorem plms_history_fifo steps i st s st' s' :
  self_sampler = PLMS →
  old_eps st = Some (last3 (eps_log st)) →
  run steps i st s = (Ok st', s') →
  ∃ newer hist,
    eps_log st' = eps_log st ++ newer
    ∧ length newer = length steps
    ∧ old_eps st' = Some hist
    ∧ hist = last3 (eps_log st')
    ∧ (length hist ≤ 3)%nat
    ∧ (length (last3 (eps_log st)) ≤ length hist)%nat
    ∧ length hist = ((length (eps_log st) + length steps) `min` 3)%nat
    ∧ (eps_log st = [] → length steps = 4%nat →
       ∃ e1 e2 e3 e4, newer = [e1; e2; e3; e4] ∧ hist = [e2; e3; e4]).
Proof.
  intros HP Hinv Hrun.
  destruct (run_loop_plms_history _ _ _ _ _ _ HP Hinv Hrun) as (newer & Hlog & Hlen & Hinv').
  exists newer, (last3 (eps_log st')).
  assert (length (last3 (eps_log st'))
          = ((length (eps_log st) + length steps) `min` 3)%nat) as Hl
    by (rewrite last3_length, Hlog, length_app, Hlen; lia).
  do 4 (split; [done|]).
  split; [lia|]. split; [rewrite last3_length; lia|]. split; [done|].
  intros Hnil H4. rewrite Hnil in Hlog. simpl in Hlog. rewrite Hlog.
  rewrite H4 in Hlen.
  destruct newer as [|e1 [|e2 [|e3 [|e4 [|e5 rest]]]]]; simpl in Hlen; try lia.
  by exists e1, e2, e3, e4.
Qed.

(** *** The inpainting blend *)

(** With a mask and known pixels the iteration integrates the blended
    state. *)
Lemma loop_body_blends m known i step st s :
  mask = Some m → x0 = Some known →
  let img_orig := q_sample (trace s) known step in
  body i step st s =
  match next_and_history time_range i st s with
  | (Ok (ts_next, hist), _) =>
      integrate i step st ts_next hist (mask_blend img_orig m (img st))
        (log s [EvQSample known step img_orig])
  | (Raise e, s1) => (Raise e, s1)
  end.
Proof.
  intros Hm Hk img_orig. unfold loop_body. rewrite bind_run.
  destruct (next_and_history_run i st s) as [r ->].
  destruct r as [[ts_next hist]|e]; [|done].
  rewrite bind_run, (blend_known_some m known) by done. reflexivity.
Qed.

(** C8.  With a mask and known pixels, the state handed to the step
    function is [img_orig * mask + (1 - mask) * img], where [img_orig]
    is [x0] noised to the current timestep by [q_sample]: this holds
    for any tensor arithmetic.  In floating point (binary32 and
    binary64), on entries that are neither infinite nor NaN, an
    all-zeros mask makes the blend equal to the current state and an
    all-ones mask makes it equal to [img_orig], identically so except
    that an entry [-0.0] may come out as [+0.0]. *)
Theorem mask_blend_before_integration m known i step st s :
  mask = Some m → x0 = Some known →
  let img_orig := q_sample (trace s) known step in
  let blended := img_orig * m + (#1 - m) * img st in
  blend_known mask x0 (img st) step s
    = (Ok blended, log s [EvQSample known step img_orig])
  ∧ blended = mask_blend img_orig m (img st)
  ∧ body i step st s =
    match next_and_history time_range i st s with
    | (Ok (ts_next, hist), _) =>
        integrate i step st ts_next hist blended (log s [EvQSample known step img_orig])
    | (Raise e, s1) => (Raise e, s1)
    end
  ∧ ∀ prec emax (orig_entry entry : spec_float),
      IEEE.is_format prec emax →
      IEEE.finite prec emax orig_entry → IEEE.finite prec emax entry →
      let blend mask_entry :=
        @mask_blend _ (IEEE.tensor prec emax) (Some orig_entry) mask_entry (Some entry) in
      (∃ r, blend (@tscal _ (IEEE.tensor prec emax) 0) = Some r
            ∧ IEEE.same_number r entry
            ∧ (entry ≠ S754_zero true → r = entry))
      ∧ (∃ r, blend (@tscal _ (IEEE.tensor prec emax) 1) = Some r
              ∧ IEEE.same_number r orig_entry
              ∧ (orig_entry ≠ S754_zero true → r = orig_entry)).
Proof.
  intros Hm Hk img_orig blended.
  split; [by apply blend_known_some|].
  split; [reflexivity|].
  split; [by apply loop_body_blends|].
  intros prec emax orig_entry entry Hfmt Ho He blend.
  destruct (ieee_mask_blend prec emax orig_entry entry Hfmt Ho He) as [Hones Hzeros].
  split; [exact Hzeros | exact Hones].
Qed.
End loop_properties.

(** *** The driver before its loop *)

Lemma py_index_in_range {A} (l : list A) (j : Z) :
  0 ≤ j < Z.of_nat (length l) → ∃ a, py_index l j = Ok a.
Proof.
  intros Hj. unfold py_index.
  replace (j <? 0) with false by (symmetry; apply Z.ltb_ge; lia).
  replace (0 <=? j) with true by (symmetry; apply Z.leb_le; lia).
  replace (j <? Z.of_nat (length l)) with true by (symmetry; apply Z.ltb_lt; lia).
  simpl. destruct (l !! Z.to_nat j) as [a|] eqn:Hl; [by exists a|].
  apply lookup_ge_None in Hl. lia.
Qed.

Lemma get_ints_run name s : ∃ r, get_ints name s = (r, s).
Proof. unfold get_ints. destruct (self_attrs s !! name) as [[?|?|?]|]; by eexists. Qed.

(** *** Computations that call no collaborator *)

Lemma quiet_bind {A B} (m : M T A) (k : A → M T B) :
  quiet m → (∀ a, quiet (k a)) → quiet (m ≫= k).
Proof.
  intros Hm Hk s r s'. rewrite bind_run.
  destruct (m s) as [[a|e] s1] eqn:Hms; intros Hrun.
  - rewrite (Hk a _ _ _ Hrun). by eapply Hm.
  - injection Hrun as _ <-. by eapply Hm.
Qed.

Lemma quiet_ret {A} (a : A) : quiet (mret a : M T A).
Proof. intros s r s'. rewrite ret_run. by intros [= _ <-]. Qed.

Lemma quiet_raise {A} (e : PyError) : quiet (raise e : M T A).
Proof. intros s r s'. unfold raise. by intros [= _ <-]. Qed.

Lemma quiet_lift {A} (r : Result A) : quiet (lift r : M T A).
Proof. intros s r' s'. unfold lift. by intros [= _ <-]. Qed.

Lemma quiet_assert (b : bool) : quiet (py_assert b : M T ()).
Proof. destruct b; [apply quiet_ret | apply quiet_raise]. Qed.

Lemma quiet_setattr name (attr : Attr T) : quiet (setattr name attr).
Proof. intros s r s'. unfold setattr. by intros [= _ <-]. Qed.

Lemma quiet_get_ints name : quiet (get_ints (T := T) name).
Proof.
  intros s r s'. destruct (get_ints_run name s) as [r0 ->]. by intros [= _ <-].
Qed.

Lemma quiet_get_table name : quiet (get_table (T := T) name).
Proof.
  intros s r s'. unfold get_table.
  destruct (self_attrs s !! name) as [[?|?|?]|]; by intros [= _ <-].
Qed.

Lemma make_schedule_quiet n d eta : quiet (make_schedule n d eta).
Proof.
  unfold make_schedule, register_buffer.
  repeat first
    [ apply quiet_lift | apply quiet_setattr | apply quiet_assert
    | apply quiet_get_ints | apply quiet_get_table
    | apply quiet_bind; [|intros ?]
    | match goal with a : _ * _ |- _ => destruct a end ].
Qed.

Lemma self_make_schedule_quiet n d eta s r s' :
  self_make_schedule n d eta s = (r, s') → trace s' = trace s.
Proof.
  unfold self_make_schedule, PLMS_make_schedule.
  destruct self_sampler.
  - destruct (negb _); [apply quiet_raise | apply make_schedule_quiet].
  - apply make_schedule_quiet.
Qed.

Lemma resolve_timesteps_run timesteps orig s :
  ∃ r, resolve_timesteps timesteps orig s = (r, s).
Proof.
  unfold resolve_timesteps. destruct timesteps as [n'|], orig; simpl; try by eexists.
  - rewrite bind_run. destruct (get_ints_run "ddim_timesteps" s) as [[plan|e] Hg];
      rewrite Hg; [|by eexists].
    rewrite bind_run. unfold lift. destruct (subset_end _ _); [|by eexists].
    rewrite bind_run, Hg. by eexists.
  - rewrite bind_run. destruct (get_ints_run "ddim_timesteps" s) as [[plan|e] ->];
      by eexists.
Qed.

Lemma sampling_loop_run cond shape x_T orig callback timesteps q (mask x0 : option T)
    img_callback log_every_t temp nd sc kw scale uc cs s b tsr :
  py_index shape 0 = Ok b →
  let s0 := log s (initial_events shape x_T s) in
  fst (resolve_timesteps timesteps orig s0) = Ok tsr →
  sampling_loop cond shape x_T orig callback timesteps q mask x0 img_callback
    log_every_t temp nd sc kw scale uc cs s =
  run_loop cond orig callback q mask x0 img_callback log_every_t temp nd sc kw scale uc cs
    (time_range_of tsr) (total_steps_of tsr) (time_range_of tsr) 0
    (initial_loop_state (initial_img shape x_T s)) s0.
Proof.
  intros Hb s0 Hts. unfold sampling_loop.
  rewrite bind_run. unfold lift. rewrite Hb.
  destruct (resolve_timesteps_run timesteps orig s0) as [r Hr].
  rewrite Hr in Hts. simpl in Hts. subst r.
  rewrite bind_run. unfold s0, initial_events, initial_img in *.
  destruct x_T as [x_T|].
  - rewrite ret_run. rewrite log_nil in *. rewrite bind_run, Hr. reflexivity.
  - rewrite !bind_run. simpl. fold (log s [EvRandn shape (randn (trace s) shape)]).
    rewrite bind_run, Hr. reflexivity.
Qed.

Lemma sampling_fn_mask_without_x0 cond shape x_T orig callback timesteps q m img_callback
    log_every_t temp nd sc kw scale uc cs s b tsr :
  py_index shape 0 = Ok b →
  let init := initial_events shape x_T s in
  fst (resolve_timesteps timesteps orig (log s init)) = Ok tsr →
  time_range_of tsr ≠ [] →
  sampling_fn cond shape x_T orig callback timesteps q (Some m) None img_callback
    log_every_t temp nd sc kw scale uc cs s = (Raise AssertionError, log s init).
Proof.
  intros Hb init Hts Hne.
  unfold sampling_fn. rewrite bind_run.
  rewrite (sampling_loop_run _ _ _ _ _ _ _ _ _ _ _ _ _ _ _ _ _ _ _ b tsr Hb Hts).
  fold init. destruct (time_range_of tsr) as [|step rest] eqn:Htr; [done|].
  simpl. rewrite bind_run. unfold loop_body. rewrite bind_run.
  assert (∃ nh, next_and_history (step :: rest) 0 (initial_loop_state (initial_img shape x_T s))
                  (log s init) = (Ok nh, log s init)) as [[ts_next hist] ->].
  { unfold next_and_history. destruct self_sampler; [|by eexists].
    rewrite bind_run. unfold lift.
    destruct (py_index_in_range (step :: rest)
                (Z.min (0 + 1) (Z.of_nat (length (step :: rest)) - 1))) as [tn ->].
    { simpl length. lia. }
    by eexists. }
  rewrite bind_run. reflexivity.
Qed.

Lemma initial_events_quiet shape x_T s :
  model_calls (initial_events shape x_T s) = 0%nat
  ∧ (∀ ev, ev ∈ initial_events shape x_T s → ∃ out, ev = EvRandn shape out).
Proof.
  unfold initial_events. destruct x_T; split; try done.
  - intros ev Hev. by apply elem_of_nil in Hev.
  - intros ev Hev. apply list_elem_of_singleton in Hev as ->. by eexists.
Qed.

(** The head of [sample] leaves the sampler as it is. *)
Lemma check_conditioning_run (cond : Conditioning T) first s :
  ∃ r, check_conditioning cond first s = (r, s).
Proof.
  unfold check_conditioning.
  destruct (match first with
            | FirstCrossattn => Some (c_crossattn cond)
            | FirstConcat => c_concat cond
            end) as [ctmp|]; [|by eexists].
  rewrite bind_run. unfold lift. destruct (shape0 ctmp); by eexists.
Qed.

Lemma check_conditioning_ok (cond : Conditioning T) first s u s' :
  check_conditioning cond first s = (Ok u, s') → s' = s.
Proof.
  destruct (check_conditioning_run cond first s) as [r ->]. by intros [= _ <-].
Qed.

Lemma sampling_fn_no_step cond shape x_T orig callback timesteps q (mask x0 : option T)
    img_callback log_every_t temp nd sc kw scale uc cs s b tsr :
  py_index shape 0 = Ok b →
  let init := initial_events shape x_T s in
  let img0 := initial_img shape x_T s in
  fst (resolve_timesteps timesteps orig (log s init)) = Ok tsr →
  time_range_of tsr = [] →
  sampling_fn cond shape x_T orig callback timesteps q mask x0 img_callback
    log_every_t temp nd sc kw scale uc cs s
  = (Ok (img0, {| x_inter := [img0]; inter_pred_x0 := [img0] |}), log s init).
Proof.
  intros Hb init img0 Hts Hnil. unfold sampling_fn. rewrite bind_run.
  rewrite (sampling_loop_run _ _ _ _ _ _ _ _ _ _ _ _ _ _ _ _ _ _ _ b tsr Hb Hts).
  rewrite Hnil. reflexivity.
Qed.

(** C10.  A run that is given a mask but no known pixels fails with
    [AssertionError] in its first iteration, if it has one: nothing has
    been blended, and neither [q_sample] nor a service has been called
    (only the draw of the starting noise, if [x_T] was not given,
    precedes the failure).  A run without iteration returns its starting
    state and does not notice the missing pixels.  This holds for the
    driver [sampling_fn] and, through it, for [sample] once its head has
    passed and the schedule is built with a plan that is not empty. *)
Theorem mask_without_x0_fails cond x_T callback q m img_callback log_every_t temp nd sc kw
    scale uc cs :
  (∀ shape orig timesteps s b tsr,
     py_index shape 0 = Ok b →
     let init := initial_events shape x_T s in
     let img0 := initial_img shape x_T s in
     fst (resolve_timesteps timesteps orig (log s init)) = Ok tsr →
     (time_range_of tsr ≠ [] →
      sampling_fn cond shape x_T orig callback timesteps q (Some m) None img_callback
        log_every_t temp nd sc kw scale uc cs s = (Raise AssertionError, log s init))
     ∧ (time_range_of tsr = [] →
        sampling_fn cond shape x_T orig callback timesteps q (Some m) None img_callback
          log_every_t temp nd sc kw scale uc cs s
        = (Ok (img0, {| x_inter := [img0]; inter_pred_x0 := [img0] |}), log s init))
     ∧ model_calls init = 0%nat
     ∧ (∀ ev, ev ∈ init → ∃ out, ev = EvRandn shape out))
  ∧ (∀ S batch_size C H W first eta s s1 plan,
       check_conditioning cond first s = (Ok (), s) →
       self_make_schedule S "uniform" eta s = (Ok (), s1) →
       self_attrs s1 !! "ddim_timesteps" = Some (AInts plan) →
       plan ≠ [] →
       let init := initial_events [batch_size; C; H; W] x_T s1 in
       sample S batch_size [C; H; W] cond first callback img_callback q eta (Some m) None
         temp nd sc kw x_T log_every_t scale uc cs s = (Raise AssertionError, log s1 init)
       ∧ trace s1 = trace s
       ∧ model_calls init = 0%nat).
Proof.
  split.
  - intros shape orig timesteps s b tsr Hb init img0 Hts.
    split; [intros Hne; by eapply sampling_fn_mask_without_x0|].
    split; [intros Hnil; by eapply sampling_fn_no_step|].
    apply initial_events_quiet.
  - intros S batch_size C H W first eta s s1 plan Hhead Hbuild Hplan Hne init.
    split; [|split; [by eapply self_make_schedule_quiet | apply initial_events_quiet]].
    unfold sample. rewrite bind_run, Hhead, bind_run, Hbuild, bind_run, ret_run.
    apply (sampling_fn_mask_without_x0 _ _ _ _ _ _ _ _ _ _ _ _ _ _ _ _ _ _ batch_size
             (TsPlan plan)); [reflexivity| |].
    + unfold resolve_timesteps. rewrite bind_run. unfold get_ints. cbn [log self_attrs].
      by rewrite Hplan.
    + simpl. intros Hrev. apply (f_equal length) in Hrev.
      rewrite length_reverse in Hrev. by destruct plan.
Qed.

(** *** Truncated runs *)







(** Some values of the bound.  In the second the quotient [1 / 49] times
    [49] rounds to [0.9999999999999999], so the bound is [-1] and the
    slice drops only the last entry of the plan.  In the third the
    bound lies further below zero than the plan is long, and the slice
    is empty. *)
Example subset_end_3_of_10 : subset_end 3 10 = Ok 2.
Proof. vm_compute. reflexivity. Qed.

Example subset_end_1_of_49 :
  subset_end 1 49 = Ok (-1) ∧ length (py_slice_to (seqZ 1 49) (-1)) = 48%nat.
Proof. split; vm_compute; reflexivity. Qed.

Example subset_end_minus_10_of_5 :
  subset_end (-10) 5 = Ok (-11) ∧ py_slice_to [1; 11; 21; 31; 41] (-11) = [].
Proof. split; vm_compute; reflexivity. Qed.

Example subset_end_beyond_floats :
  subset_end (2 ^ 53 + 1) 5 = Ok 4 ∧ subset_end (10 ^ 400) 5 = Raise OverflowError.
Proof. split; vm_compute; reflexivity. Qed.


(** *** The schedule *)

Lemma cumprod_from_length acc (l : list T) : length (cumprod_from acc l) = length l.
Proof. revert acc. induction l as [|a l IH]; intros acc; simpl; [done|]. by rewrite IH. Qed.

Lemma cumprod_length (l : list T) : length (cumprod l) = length l.
Proof. destruct l; simpl; [done|]. by rewrite cumprod_from_length. Qed.

(** A run of [make_schedule] whose helpers return and whose beta
    schedule has one entry per timestep: it succeeds, calls no
    service, and stores the plan and the four tables of the reduced
    schedule. *)
Lemma make_schedule_ok n d eta s plan betas sigmas alphas alphas_prev :
  make_ddim_timesteps d n ddpm_num_timesteps = Ok plan →
  make_beta_schedule "linear" ddpm_num_timesteps 0.00085 0.0120 0.008 = Ok betas →
  Z.of_nat (length betas) = ddpm_num_timesteps →
  make_ddim_sampling_parameters (cumprod ((λ b, #1 - b) <$> betas)) plan eta
    = Ok (sigmas, alphas, alphas_prev) →
  ∃ s', make_schedule n d eta s = (Ok (), s')
        ∧ trace s' = trace s
        ∧ self_attrs s' !! "ddim_timesteps" = Some (AInts plan)
        ∧ self_attrs s' !! "ddim_sigmas" = Some (ATable sigmas)
        ∧ self_attrs s' !! "ddim_alphas" = Some (ATable alphas)
        ∧ self_attrs s' !! "ddim_alphas_prev" = Some (ATable alphas_prev)
        ∧ self_attrs s' !! "ddim_sqrt_one_minus_alphas"
            = Some (ATable ((λ a, tsqrt (#1 - a)) <$> alphas)).
Proof.
  intros Hplan Hbetas Hlen Hparams. unfold make_schedule.
  rewrite bind_run. unfold lift at 1. rewrite Hplan.
  rewrite bind_run. unfold setattr at 1.
  rewrite bind_run. unfold lift at 1. rewrite Hbetas.
  rewrite bind_run. unfold py_assert.
  rewrite bool_decide_eq_true_2
    by (by rewrite cumprod_length, length_fmap).
  rewrite ret_run. unfold register_buffer.
  do 8 (rewrite bind_run; unfold setattr at 1).
  rewrite bind_run. unfold get_ints at 1. cbn [self_attrs].
  rewrite !lookup_insert_ne by done. rewrite lookup_insert_eq.
  rewrite bind_run. unfold lift at 1. rewrite Hparams.
  do 4 (rewrite bind_run; unfold setattr at 1).
  rewrite bind_run. unfold get_table at 1. cbn [self_attrs].
  rewrite !lookup_insert_ne by done. rewrite lookup_insert_eq.
  rewrite bind_run. unfold get_table at 1. cbn [self_attrs].
  rewrite !lookup_insert_ne by done. rewrite lookup_insert_eq.
  unfold setattr. eexists. split; [reflexivity|]. cbn [self_attrs trace].
  split; [reflexivity|].
  repeat split;
    (rewrite !lookup_insert_ne by done; by rewrite lookup_insert_eq).
Qed.

(** C6.  For the PLMS sampler a nonzero [eta] makes the schedule build
    raise [ValueError] at once, leaving the sampler and the trace as
    they were, so that [sample] fails before any model invocation (with
    that [ValueError], unless its head has already failed on the
    conditioning); with [eta] equal to 0 the build is that of the base
    class with [eta = 0.0], which succeeds whenever the helpers of
    [.utils] return and the beta schedule has one entry per timestep. *)
Theorem plms_requires_zero_eta n d eta s :
  (PrimFloat.eqb eta 0 = false →
     PLMS_make_schedule n d eta s
       = (Raise (ValueError "ddim_eta must be 0 for PLMS"), s)
     ∧ (self_sampler = PLMS →
        ∀ batch_size shape cond first callback img_callback q (mask x0 : option T) temp nd
          sc kw x_T log_every_t scale uc cs,
          (∃ e, sample n batch_size shape cond first callback img_callback q eta mask x0
                  temp nd sc kw x_T log_every_t scale uc cs s = (Raise e, s))
          ∧ (check_conditioning cond first s = (Ok (), s) →
             sample n batch_size shape cond first callback img_callback q eta mask x0
               temp nd sc kw x_T log_every_t scale uc cs s
             = (Raise (ValueError "ddim_eta must be 0 for PLMS"), s))))
  ∧ (PrimFloat.eqb eta 0 = true →
     PLMS_make_schedule n d eta s = make_schedule n "uniform" 0 s
     ∧ ∀ plan betas sigmas alphas alphas_prev,
         make_ddim_timesteps "uniform" n ddpm_num_timesteps = Ok plan →
         make_beta_schedule "linear" ddpm_num_timesteps 0.00085 0.0120 0.008 = Ok betas →
         Z.of_nat (length betas) = ddpm_num_timesteps →
         make_ddim_sampling_parameters (cumprod ((λ b, #1 - b) <$> betas)) plan 0
           = Ok (sigmas, alphas, alphas_prev) →
         ∃ s', PLMS_make_schedule n d eta s = (Ok (), s')
               ∧ trace s' = trace s
               ∧ self_attrs s' !! "ddim_timesteps" = Some (AInts plan)
               ∧ self_attrs s' !! "ddim_sigmas" = Some (ATable sigmas)
               ∧ self_attrs s' !! "ddim_alphas" = Some (ATable alphas)
               ∧ self_attrs s' !! "ddim_alphas_prev" = Some (ATable alphas_prev)).
Proof.
  split; intros Heta.
  - assert (PLMS_make_schedule n d eta s
            = (Raise (ValueError "ddim_eta must be 0 for PLMS"), s)) as Hraise
      by (unfold PLMS_make_schedule; by rewrite Heta).
    split; [exact Hraise|].
    intros HP *.
    assert (self_make_schedule n "uniform" eta s
            = (Raise (ValueError "ddim_eta must be 0 for PLMS"), s)) as Hbuild.
    { unfold self_make_schedule, PLMS_make_schedule. by rewrite HP, Heta. }
    unfold sample. rewrite bind_run.
    destruct (check_conditioning_run cond first s) as [[[]|e] Hhead]; rewrite Hhead.
    + rewrite bind_run, Hbuild. split; [by eexists | done].
    + split; [by eexists | done].
  - assert (PLMS_make_schedule n d eta s = make_schedule n "uniform" 0 s) as Hbase
      by (unfold PLMS_make_schedule; by rewrite Heta).
    split; [exact Hbase|].
    intros plan betas sigmas alphas alphas_prev Hplan Hbetas Hlen Hparams.
    destruct (make_schedule_ok n "uniform" 0 s _ _ _ _ _ Hplan Hbetas Hlen Hparams)
      as (s' & Hrun & Htr & H1 & H2 & H3 & H4 & _).
    exists s'. rewrite Hbase. done.
Qed.
End properties.

(** ** The properties on concrete runs *)

Section concrete_runs.
Import Symbolic.

Lemma guided_eval_run : guided_eval fresh = (Ok guided_e, guided_s).
Proof. vm_compute. reflexivity. Qed.

(** The scenario of the specification, symbolically: the composed
    result is [uncond_out + 1.5 * (cond_out - uncond_out)] after two
    invocations. *)
Lemma get_model_output_guidance_witness :
  guided_eval fresh = (Ok guided_e, guided_s)
  ∧ model_calls (trace guided_s) = 2%nat
  ∧ ∃ cond_out uncond_out,
      guided_e = SAdd uncond_out (SMul (SLit 1.5) (SSub cond_out uncond_out)).
Proof.
  split; [exact guided_eval_run|].
  destruct (@get_model_output_guidance _ _ (env PLMS) (SVar "x") 5 (Some uncond) 1.5 None
              cond_plain None None) as (_ & _ & Hreturns).
  destruct (Hreturns fresh guided_e guided_s guided_eval_run)
    as (e0 & s0 & evs & Hs0 & Hbranch & _ & Hnone).
  destruct (Hnone eq_refl) as [He Hs].
  change (guidance_off (Some uncond) 1.5) with false in Hbranch.
  destruct Hbranch as (ucond & cond_out & uncond_out & s1 & _ & _ & _ & Hcalls & He0).
  split.
  - rewrite Hs, Hs0. exact Hcalls.
  - exists cond_out, uncond_out. by rewrite He.
Defined.

Lemma apply_model_control_scales_witness :
  (∃ s1, @apply_model _ _ (env PLMS) (SVar "x") 5 cond_hint (Some [1.5%float]) fresh
         = (Raise AssertionError, s1)
         ∧ model_calls (trace s1) = 0%nat)
  ∧ (∃ out s2, @apply_model _ _ (env PLMS) (SVar "x") 5 cond_hint
                 (Some [1.5%float; 2%float]) fresh = (Ok out, s2)
               ∧ model_calls (trace s2) = 1%nat).
Proof.
  split.
  - destruct (@apply_model_control_scales _ _ (env PLMS) (SVar "x") 5 cond_hint
                (SVar "hint") [1.5%float] fresh eq_refl) as [Hbad _].
    destruct Hbad as [Hrun Hcalls]; [vm_compute; discriminate|].
    eexists. split; [exact Hrun | exact Hcalls].
  - destruct (@apply_model_control_scales _ _ (env PLMS) (SVar "x") 5 cond_hint
                (SVar "hint") [1.5%float; 2%float] fresh eq_refl) as [_ Hgood].
    destruct Hgood as (Hrun & _ & _); [reflexivity|].
    eexists _, _. split; [exact Hrun | reflexivity].
Defined.

Lemma reconstruct_formulas_witness :
  ∃ noise s',
    @_get_x_prev_and_pred_x0 _ _ (env PLMS) false 2 (SVar "x") (SVar "e") false false
      1 0 (scheduled 5)
    = (Ok (SAdd (SAdd (SMul (SSqrt (SReply "alpha_prev" 2 []))
                            (SDiv (SSub (SVar "x")
                                        (SMul (SReply "sqrt_1m_alpha" 2 []) (SVar "e")))
                                  (SSqrt (SReply "alpha" 2 []))))
                      (SMul (SSqrt (SSub (SSub (SLit 1) (SReply "alpha_prev" 2 []))
                                         (SPow (SReply "sigma" 2 []) 2)))
                            (SVar "e")))
                noise,
           SDiv (SSub (SVar "x") (SMul (SReply "sqrt_1m_alpha" 2 []) (SVar "e")))
                (SSqrt (SReply "alpha" 2 []))), s').
Proof.
  destruct (@reconstruct_formulas _ _ (env PLMS) false 2 (SVar "x") (SVar "e") false false
              1 0 (scheduled 5) (SReply "alpha" 2 []) (SReply "alpha_prev" 2 [])
              (SReply "sigma" 2 []) (SReply "sqrt_1m_alpha" 2 [])
              eq_refl eq_refl eq_refl eq_refl) as (noise & s' & Hrun & _).
  exists noise, s'. exact Hrun.
Defined.






Lemma second_iteration_run : plms_body 1 31 after1 after1_s = (Ok after2, after2_s).
Proof. vm_compute. reflexivity. Qed.

(** The second iteration of the run appends the estimate that the
    evaluator returned for it. *)
Lemma plms_history_gets_raw_estimate_witness :
  plms_body 1 31 after1 after1_s = (Ok after2, after2_s)
  ∧ ∃ old e_t s_eval,
      old_eps after1 = Some old
      ∧ @_get_model_output _ _ (env PLMS) (img after1) 31 None 1 None cond_plain None None
          after1_s = (Ok e_t, s_eval)
      ∧ old_eps after2 = Some (update_history old e_t).
Proof.
  split; [exact second_iteration_run|].
  pose proof second_iteration_run as Hrun. unfold plms_body in Hrun.
  assert (∃ old, old_eps after1 = Some old) as [old Hold] by (by eexists).
  destruct (plms_history_gets_raw_estimate (Env0 := env PLMS)
              _ _ _ _ _ _ _ _ _ _ _ _ _ _ _ _ _ _ _ _ _ _ _ _ eq_refl Hold Hrun)
    as (img0 & s0 & ts_next & x_prev & pred_x0 & e_t & s_eval & s_step
        & Hblend & Heval & _ & Hhist & _ & _).
  injection Hblend as <- <-.
  exists old, e_t, s_eval. split; [exact Hold|]. split; [exact Heval | exact Hhist].
Defined.

Lemma four_iterations_run :
  plms_run [41; 31; 21; 11] 0 start (scheduled 5) = (Ok after4, after4_s).
Proof. vm_compute. reflexivity. Qed.

(** After four iterations the history is the log of estimates without
    its first entry. *)
Lemma plms_history_fifo_witness :
  plms_run [41; 31; 21; 11] 0 start (scheduled 5) = (Ok after4, after4_s)
  ∧ ∃ e1 e2 e3 e4,
      eps_log after4 = [e1; e2; e3; e4] ∧ old_eps after4 = Some [e2; e3; e4].
Proof.
  split; [exact four_iterations_run|].
  pose proof four_iterations_run as Hrun. unfold plms_run in Hrun.
  assert (old_eps start = Some (last3 (eps_log start))) as Hstart by reflexivity.
  destruct (plms_history_fifo (Env0 := env PLMS)
              _ _ _ _ _ _ _ _ _ _ _ _ _ _ _ _ _ _ _ _ _ _ _ eq_refl Hstart Hrun)
    as (newer & hist & Hlog & _ & Hold & _ & _ & _ & _ & Hfour).
  destruct (Hfour eq_refl eq_refl) as (e1 & e2 & e3 & e4 & Hnewer & Hhist).
  exists e1, e2, e3, e4. split.
  - rewrite Hlog, Hnewer. reflexivity.
  - rewrite Hold, Hhist. reflexivity.
Defined.

(** With [eta = 0.5] the PLMS build is refused; with [eta = 0] it
    goes through for a plan of 10 steps. *)
Lemma plms_requires_zero_eta_witness :
  @PLMS_make_schedule _ _ (env PLMS) 10 "uniform" 0.5 fresh
    = (Raise (ValueError "ddim_eta must be 0 for PLMS"), fresh)
  ∧ ∃ s', @PLMS_make_schedule _ _ (env PLMS) 10 "uniform" 0 fresh = (Ok (), s')
          ∧ trace s' = [].
Proof.
  split.
  - destruct (@plms_requires_zero_eta _ _ (env PLMS) 10 "uniform" 0.5 fresh) as [Hbad _].
    destruct (Hbad eq_refl) as [Hraise _]. exact Hraise.
  - destruct (@plms_requires_zero_eta _ _ (env PLMS) 10 "uniform" 0 fresh) as [_ Hgood].
    destruct (Hgood eq_refl) as [_ Hok].
    destruct (Hok ((λ i, i * 100 + 1) <$> seqZ 0 10) (table "beta" 1000)
                (table "sigma" 10) (table "alpha" 10) (table "alpha_prev" 10)
                eq_refl eq_refl eq_refl eq_refl)
      as (s' & Hrun & Htrace & _).
    exists s'. split; [exact Hrun | exact Htrace].
Defined.




(** A DDIM run with a mask and no known pixels stops at once: only the
    starting noise has been drawn. *)
Lemma mask_without_x0_fails_witness :
  ∃ s', @sampling_fn _ _ (env DDIM) cond_plain [1; 4; 8; 8] None false false None false
          (Some (SVar "mask")) None false 100 1 0 None None 1 None None (scheduled 5)
        = (Raise AssertionError, s')
        ∧ model_calls (trace s') = 0%nat.
Proof.
  destruct (@mask_without_x0_fails _ _ (env DDIM) cond_plain None false false (SVar "mask")
              false 100 1 0 None None 1 None None) as [Hdriver _].
  destruct (Hdriver [1; 4; 8; 8] false None (scheduled 5) 1 (TsPlan [1; 11; 21; 31; 41])
              eq_refl eq_refl) as (Hrun & _ & Hcalls & _).
  eexists. split; [apply Hrun; discriminate | exact Hcalls].
Defined.

(** Asked for 1 of the 5 planned timesteps, the run keeps none (the
    bound of the slice is 0): it has no iteration and returns its
    starting state, although it is given a mask and no known pixels. *)
Lemma mask_without_x0_counterexample :
  subset_end 1 5 = Ok 0
  ∧ masked_truncated_sampling (scheduled 5)
    = (Ok (SVar "x_T", {| x_inter := [SVar "x_T"]; inter_pred_x0 := [SVar "x_T"] |}),
       scheduled 5).
Proof. split; vm_compute; reflexivity. Qed.
End concrete_runs.

(** An iteration with a mask and known pixels blends before it
    integrates; in binary32, with the noised known entry 2 and the
    current entry 3, an all-ones mask gives 2 and an all-zeros mask
    gives 3. *)
Lemma mask_blend_before_integration_witness :
  (∃ img_orig s',
     @blend_known _ _ (Symbolic.env DDIM) (Some (Symbolic.SVar "mask"))
       (Some (Symbolic.SVar "x0")) (Symbolic.SVar "x_T") 41 (Symbolic.scheduled 5)
     = (Ok (mask_blend img_orig (Symbolic.SVar "mask") (Symbolic.SVar "x_T")), s'))
  ∧ @mask_blend _ (IEEE.tensor 24 128) (Some (IEEE.of_float 24 128 2))
      (@tscal _ (IEEE.tensor 24 128) 1) (Some (IEEE.of_float 24 128 3))
    = Some (IEEE.of_float 24 128 2)
  ∧ @mask_blend _ (IEEE.tensor 24 128) (Some (IEEE.of_float 24 128 2))
      (@tscal _ (IEEE.tensor 24 128) 0) (Some (IEEE.of_float 24 128 3))
    = Some (IEEE.of_float 24 128 3).
Proof.
  destruct (@mask_blend_before_integration _ _ (Symbolic.env DDIM) Symbolic.cond_plain false
              false false (Some (Symbolic.SVar "mask")) (Some (Symbolic.SVar "x0")) false 100
              1 0 None None 1 None None [41; 31] 2 (Symbolic.SVar "mask")
              (Symbolic.SVar "x0") 0 41 (initial_loop_state (Symbolic.SVar "x_T"))
              (Symbolic.scheduled 5) eq_refl eq_refl)
    as (Hblend & Heq & _ & Hieee).
  rewrite Heq in Hblend.
  split; [eexists _, _; exact Hblend|].
  destruct (Hieee 24 128 (IEEE.of_float 24 128 2) (IEEE.of_float 24 128 3))
    as [(r0 & Hr0 & _ & Heq0) (r1 & Hr1 & _ & Heq1)].
  { left. split; reflexivity. }
  { split; [reflexivity | exact I]. }
  { split; [reflexivity | exact I]. }
  split.
  - rewrite (Heq1 ltac:(discriminate)) in Hr1. exact Hr1.
  - rewrite (Heq0 ltac:(discriminate)) in Hr0. exact Hr0.
Defined.

(** In floating point the two identities fail on entries that are not
    finite: with an infinite noised known entry an all-zeros mask does
    not keep the current entry 3, and with an infinite current entry an
    all-ones mask does not give the noised known entry 2; both blends
    are NaN. *)
Lemma mask_blend_counterexample :
  @mask_blend _ (IEEE.tensor 24 128) (Some (S754_infinity false))
    (@tscal _ (IEEE.tensor 24 128) 0) (Some (IEEE.of_float 24 128 3)) = Some S754_nan
  ∧ @mask_blend _ (IEEE.tensor 24 128) (Some (IEEE.of_float 24 128 2))
      (@tscal _ (IEEE.tensor 24 128) 1) (Some (S754_infinity false)) = Some S754_nan.
Proof. split; vm_compute; reflexivity. Qed.

(** ** Further properties of the sampler *)

Section further_properties.
Context {T : Type} `{!Tensor T} `{!Env T}.
Implicit Types (s : State T) (evs : list (Event T)).
Local Open Scope tensor_scope.

(** *** The control signals taken from a reply *)

Lemma control_key_inj : Inj (=) (=) control_key.
Proof.
  intros i j Hij. unfold control_key in Hij. simpl in Hij.
  injection Hij as Hij. by apply (inj pretty).
Qed.

Lemma probe_controls_present (control_out : gmap string T) fuel i j v :
  (j < fuel)%nat →
  (∀ k, (k < j)%nat → is_Some (control_out !! control_key (i + k))) →
  control_out !! control_key (i + j) = Some v →
  probe_controls control_out fuel i !! j = Some v.
Proof.
  revert i j. induction fuel as [|fuel IH]; intros i j Hlt Hbefore Hj; [lia|].
  simpl. destruct j as [|j].
  - rewrite Nat.add_0_r in Hj. unfold control_key in Hj. by rewrite Hj.
  - destruct (Hbefore 0%nat) as [w Hw]; [lia|].
    rewrite Nat.add_0_r in Hw. unfold control_key in Hw. rewrite Hw. simpl.
    apply IH; [lia| |].
    + intros k Hk. replace (S i + k)%nat with (i + S k)%nat by lia.
      apply Hbefore. lia.
    + by replace (S i + j)%nat with (i + S j)%nat by lia.
Qed.

(** As many entries as there are keys [control_0 .. control_j]. *)
Lemma control_keys_size (control_out : gmap string T) j :
  (∀ i, (i ≤ j)%nat → is_Some (control_out !! control_key i)) →
  (j < size control_out)%nat.
Proof.
  intros Hkeys.
  pose (keys := control_key <$> seq 0 (S j)).
  assert (NoDup keys) as Hnodup.
  { apply (NoDup_fmap_2 control_key), NoDup_seq. }
  assert (list_to_set keys ⊆@{gset string} dom control_out) as Hsub.
  { intros key Hkey. apply elem_of_list_to_set, list_elem_of_fmap in Hkey
      as (i & -> & Hi).
    apply elem_of_seq in Hi. apply elem_of_dom, Hkeys. lia. }
  apply subseteq_size in Hsub.
  rewrite size_list_to_set, size_dom in Hsub by done.
  unfold keys in Hsub. rewrite length_fmap, length_seq in Hsub. lia.
Qed.

(** X1.  The control signals handed to the denoising model are the
    contiguous run [control_0, control_1, ...] of the reply: the [j]-th
    signal is the entry [control_j], and it is taken exactly when every
    earlier key is present too.  An entry behind a missing index is
    dropped, and the bound [len(control_out)] of the probing loop never
    cuts the run short. *)
Theorem extract_controls_contiguous (control_out : gmap string T) j v :
  extract_controls control_out !! j = Some v ↔
  control_out !! control_key j = Some v
  ∧ ∀ i, (i < j)%nat → is_Some (control_out !! control_key i).
Proof.
  split.
  - intros Hj. split; [by apply extract_controls_lookup|].
    intros i Hi.
    destruct (lookup_lt_is_Some_2 (extract_controls control_out) i) as [w Hw].
    { apply lookup_lt_Some in Hj. lia. }
    exists w. by apply extract_controls_lookup.
  - intros [Hj Hbefore]. unfold extract_controls.
    apply probe_controls_present; [|done|done].
    apply control_keys_size. intros i Hi.
    destruct (decide (i = j)) as [->|]; [by eexists|]. apply Hbefore. lia.
Qed.

(** X2.  Without a structural hint the control service is not called and
    [control_scales] is not looked at: whatever list is passed, even one
    that would fail the length check, the call returns the reply of one
    invocation of the denoising service made without control inputs. *)
Theorem apply_model_plain_ignores_scales x t (cond : Conditioning T)
    (scales : option (list float)) s :
  c_concat cond = None →
  let args := unet_args x t cond [] in
  let out := model_infer (trace s) args in
  apply_model x t cond scales s = (Ok out, log (keyed s) [EvModelInfer args out])
  ∧ apply_model x t cond scales s = apply_model x t cond None s.
Proof.
  intros Hc args out. rewrite !apply_model_no_hint by done. done.
Qed.

(** *** The events of a step *)

Lemma log_trace s evs : trace (log s evs) = trace s ++ evs.
Proof. reflexivity. Qed.

Lemma integrator_only_app evs1 evs2 :
  integrator_only evs1 → integrator_only evs2 → integrator_only (evs1 ++ evs2).
Proof. unfold integrator_only. intros. by apply Forall_app. Qed.

Lemma integrator_only_nil : integrator_only (T := T) [].
Proof. apply Forall_nil_2. Qed.

Lemma integrator_only_q_sample evs : integrator_only evs → q_sample_calls evs = 0%nat.
Proof.
  unfold q_sample_calls. induction 1 as [|ev evs Hev _ IH]; [done|].
  rewrite filter_cons. destruct ev; try done; by rewrite decide_False.
Qed.

Lemma integrator_only_callbacks evs :
  integrator_only evs → callback_indices evs = [] ∧ img_callback_calls evs = [].
Proof.
  unfold callback_indices, img_callback_calls.
  induction 1 as [|ev evs Hev _ [IH1 IH2]]; [done|].
  destruct ev; try done; simpl; by rewrite ?IH1, ?IH2.
Qed.

Lemma apply_model_trace x t cond scales s out s' :
  apply_model x t cond scales s = (Ok out, s') →
  ∃ evs, trace s' = trace s ++ evs ∧ integrator_only evs ∧ model_calls evs = 1%nat.
Proof.
  destruct (c_concat cond) as [hint|] eqn:Hc.
  - destruct scales as [scales|].
    + rewrite (apply_model_hint_scaled _ _ _ hint) by done. cbv zeta.
      case_bool_decide; [|done]. unfold infer_step. intros [= <- <-].
      eexists [_; _]. rewrite log_log. split; [reflexivity|].
      split; [|reflexivity]. by repeat constructor.
    + rewrite (apply_model_hint_unscaled _ _ _ hint) by done. cbv zeta.
      unfold infer_step. intros [= <- <-].
      eexists [_; _]. rewrite log_log. split; [reflexivity|].
      split; [|reflexivity]. by repeat constructor.
  - rewrite apply_model_no_hint by done. unfold infer_step. intros [= <- <-].
    eexists [_]. split; [reflexivity|]. split; [|reflexivity]. by repeat constructor.
Qed.

Lemma correct_score_trace sc kw e_t x t c s e s' :
  correct_score sc kw e_t x t c s = (Ok e, s') →
  ∃ evs, trace s' = trace s ++ evs ∧ integrator_only evs ∧ model_calls evs = 0%nat.
Proof.
  unfold correct_score. destruct sc as [corrector|].
  - unfold py_assert. case_bool_decide; [|done].
    destruct kw as [kw|]; [|done].
    intros [= <- <-]. eexists [_]. split; [reflexivity|].
    split; [|reflexivity]. by repeat constructor.
  - intros [= <- <-]. exists []. rewrite app_nil_r.
    split; [done|]. split; [apply integrator_only_nil | done].
Qed.

Lemma get_model_output_split x t uc scale sc c kw cs :
  _get_model_output x t uc scale sc c kw cs =
  (guided_estimate x t uc scale c cs ≫= λ e_t, correct_score sc kw e_t x t c).
Proof. reflexivity. Qed.

Lemma guided_estimate_trace x t uc scale c cs s e s' :
  guided_estimate x t uc scale c cs s = (Ok e, s') →
  ∃ evs, trace s' = trace s ++ evs ∧ integrator_only evs
         ∧ model_calls evs = calls_per_evaluation uc scale.
Proof.
  unfold guided_estimate, calls_per_evaluation, guidance_off.
  destruct uc as [ucond|]; [destruct (PrimFloat.eqb scale 1)|]; intros Hrun.
  - by apply apply_model_trace in Hrun.
  - run_split Hrun as cond_out s1 Hcond. run_split Hrun as uncond_out s2 Huncond.
    rewrite ret_run in Hrun. injection Hrun as _ <-.
    destruct (apply_model_trace _ _ _ _ _ _ _ Hcond) as (evs1 & Ht1 & Hi1 & Hc1).
    destruct (apply_model_trace _ _ _ _ _ _ _ Huncond) as (evs2 & Ht2 & Hi2 & Hc2).
    exists (evs1 ++ evs2). rewrite Ht2, Ht1, app_assoc. split; [done|].
    split; [by apply integrator_only_app|]. by rewrite model_calls_app, Hc1, Hc2.
  - by apply apply_model_trace in Hrun.
Qed.

Lemma get_model_output_trace x t uc scale sc c kw cs s e s' :
  _get_model_output x t uc scale sc c kw cs s = (Ok e, s') →
  ∃ evs, trace s' = trace s ++ evs ∧ integrator_only evs
         ∧ model_calls evs = calls_per_evaluation uc scale.
Proof.
  rewrite get_model_output_split. intros Hrun.
  run_split Hrun as e0 s0 Hest.
  destruct (guided_estimate_trace _ _ _ _ _ _ _ _ _ Hest) as (evs1 & Ht1 & Hi1 & Hc1).
  destruct (correct_score_trace _ _ _ _ _ _ _ _ _ Hrun) as (evs2 & Ht2 & Hi2 & Hc2).
  exists (evs1 ++ evs2). rewrite Ht2, Ht1, app_assoc. split; [done|].
  split; [by apply integrator_only_app|]. rewrite model_calls_app, Hc1, Hc2. lia.
Qed.

Lemma reconstruct_trace orig index x e_t q rn temp nd s r s' :
  _get_x_prev_and_pred_x0 orig index x e_t q rn temp nd s = (Ok r, s') →
  ∃ evs, trace s' = trace s ++ evs ∧ integrator_only evs ∧ model_calls evs = 0%nat.
Proof.
  unfold _get_x_prev_and_pred_x0. intros Hrun.
  do 4 (run_inv Hrun; match goal with
                      | H : select_table _ _ _ _ = _ |- _ =>
                          apply select_table_ok in H as ->
                      end).
  do 4 (run_inv Hrun; match goal with
                      | H : lift _ _ = _ |- _ => apply lift_ok_inv in H as [_ ->]
                      end).
  rewrite !bind_run in Hrun. simpl in Hrun.
  destruct (PrimFloat.ltb 0 nd).
  - rewrite !bind_run in Hrun. simpl in Hrun. injection Hrun as _ <-.
    eexists [_; _]. split; [simpl; by rewrite <- app_assoc|].
    split; [|reflexivity]. by repeat constructor.
  - rewrite !bind_run in Hrun. simpl in Hrun. injection Hrun as _ <-.
    eexists [_]. split; [reflexivity|]. split; [|reflexivity]. by repeat constructor.
Qed.

(** *** [DDIMSampler.p_sampling_fn] *)

Lemma ddim_step_inv x c t index rn orig q temp nd sc kw scale uc cs s r s' :
  DDIM_p_sampling_fn x c t index rn orig q temp nd sc kw scale uc cs s = (Ok r, s') →
  ∃ e_t s1,
    _get_model_output x t uc scale sc c kw cs s = (Ok e_t, s1)
    ∧ _get_x_prev_and_pred_x0 orig index x e_t q rn temp nd s1 = (Ok r, s').
Proof.
  unfold DDIM_p_sampling_fn. intros Hrun.
  run_split Hrun as e_t s1 Heval. run_split Hrun as r' s2 Hrecon.
  destruct r' as [x_prev pred_x0]. rewrite ret_run in Hrun. injection Hrun as <- <-.
  by exists e_t, s1.
Qed.

(** X3.  A DDIM step that returns is one evaluation of the model at the
    current state followed by one reconstruction from that estimate
    itself; it invokes the denoising service once, or twice under
    guidance, and causes no event other than those of a step function
    (no [q_sample], no callback). *)
Theorem ddim_step_single_evaluation x c t index rn orig q temp nd sc kw scale uc cs s r s' :
  DDIM_p_sampling_fn x c t index rn orig q temp nd sc kw scale uc cs s = (Ok r, s') →
  ∃ e_t s1 evs,
    _get_model_output x t uc scale sc c kw cs s = (Ok e_t, s1)
    ∧ _get_x_prev_and_pred_x0 orig index x e_t q rn temp nd s1 = (Ok r, s')
    ∧ trace s' = trace s ++ evs
    ∧ integrator_only evs
    ∧ model_calls evs = calls_per_evaluation uc scale.
Proof.
  intros (e_t & s1 & Heval & Hrecon)%ddim_step_inv.
  destruct (get_model_output_trace _ _ _ _ _ _ _ _ _ _ _ Heval) as (evs1 & Ht1 & Hi1 & Hc1).
  destruct (reconstruct_trace _ _ _ _ _ _ _ _ _ _ _ Hrecon) as (evs2 & Ht2 & Hi2 & Hc2).
  exists e_t, s1, (evs1 ++ evs2). rewrite Ht2, Ht1, app_assoc.
  repeat (split; [done|]). split; [by apply integrator_only_app|].
  rewrite model_calls_app, Hc1, Hc2. lia.
Qed.

(** X4.  The requirements of the score corrector are checked after the
    model has been called, not before: when the evaluation without a
    corrector returns, the same evaluation with a corrector on a model
    whose parameterization is not ["eps"] raises [AssertionError] in the
    state that evaluation reached, and with no keyword options it
    raises [TypeError] there; the invocations of the denoising service
    have been made. *)
Theorem score_corrector_checked_late x t uc scale (corrector : ScoreCorrector T) c kw cs
    s e0 s0 :
  _get_model_output x t uc scale None c kw cs s = (Ok e0, s0) →
  (model_parameterization ≠ "eps" →
     _get_model_output x t uc scale (Some corrector) c kw cs s = (Raise AssertionError, s0))
  ∧ (model_parameterization = "eps" →
     _get_model_output x t uc scale (Some corrector) c None cs s = (Raise TypeError, s0))
  ∧ ∃ evs, trace s0 = trace s ++ evs ∧ model_calls evs = calls_per_evaluation uc scale.
Proof.
  intros Hplain.
  destruct (get_model_output_trace _ _ _ _ _ _ _ _ _ _ _ Hplain) as (evs & Ht & _ & Hc).
  rewrite get_model_output_split in Hplain.
  run_split Hplain as e s1 Hest. simpl in Hplain. rewrite ret_run in Hplain.
  injection Hplain as -> ->.
  split; [|split; [|by exists evs]].
  - intros Hne. rewrite get_model_output_split, (bind_ok _ _ _ _ _ Hest).
    unfold correct_score, py_assert. by rewrite bool_decide_eq_false_2.
  - intros Heq. rewrite get_model_output_split, (bind_ok _ _ _ _ _ Hest).
    unfold correct_score, py_assert. by rewrite bool_decide_eq_true_2.
Qed.

(** X5.  A step reads its coefficient tables only after it has
    evaluated the model: if the evaluation returns and the first table
    cannot be read (the sampler's schedule was never built, or, in
    original-steps mode, the wrapped model has no [alphas_cumprod]),
    the DDIM step raises that error in the state the evaluation
    reached, its invocations of the denoising service already made. *)
Theorem ddim_step_reads_tables_late x c t index rn orig q temp nd sc kw scale uc cs
    s e_t s1 err :
  _get_model_output x t uc scale sc c kw cs s = (Ok e_t, s1) →
  select_table orig "alphas_cumprod" "ddim_alphas" s1 = (Raise err, s1) →
  DDIM_p_sampling_fn x c t index rn orig q temp nd sc kw scale uc cs s = (Raise err, s1)
  ∧ ∃ evs, trace s1 = trace s ++ evs ∧ model_calls evs = calls_per_evaluation uc scale.
Proof.
  intros Heval Htable.
  destruct (get_model_output_trace _ _ _ _ _ _ _ _ _ _ _ Heval) as (evs & Ht & _ & Hc).
  split; [|by exists evs].
  unfold DDIM_p_sampling_fn. rewrite (bind_ok _ _ _ _ _ Heval).
  unfold _get_x_prev_and_pred_x0. by rewrite bind_run, bind_run, Htable.
Qed.

(** *** The events of an iteration and of a run *)

Section run_properties.
Variables (cond : Conditioning T) (orig callback q : bool) (mask x0 : option T)
  (img_callback : bool) (log_every_t : Z) (temp nd : float)
  (sc : option (ScoreCorrector T)) (kw : option (Kwargs T)) (scale : float)
  (uc : option (Conditioning T)) (cs : option (list float))
  (time_range : list Z) (total_steps : Z).

Local Abbreviation body :=
  (loop_body cond orig callback q mask x0 img_callback log_every_t temp nd sc kw
     scale uc cs time_range total_steps).
Local Abbreviation integrate :=
  (integrate_and_update cond orig callback q img_callback log_every_t temp nd sc kw
     scale uc cs total_steps).
Local Abbreviation run :=
  (run_loop cond orig callback q mask x0 img_callback log_every_t temp nd sc kw
     scale uc cs time_range total_steps).
Local Abbreviation step_fn img0 step i hist ts_next :=
  (p_sampling_fn img0 cond step (total_steps - i - 1)%Z orig q temp nd sc kw
     scale uc hist ts_next cs).

Lemma p_sampling_fn_trace img0 step i hist ts_next s outs s' :
  step_fn img0 step i hist ts_next s = (Ok outs, s') →
  ∃ x_prev pred_x0 evs,
    py_index outs 0 = Ok x_prev ∧ py_index outs 1 = Ok pred_x0
    ∧ trace s' = trace s ++ evs
    ∧ integrator_only evs
    ∧ model_calls evs = (evaluations_of self_sampler hist * calls_per_evaluation uc scale)%nat
    ∧ match self_sampler with
      | PLMS => ∃ e_t old, outs = [x_prev; pred_x0; e_t] ∧ hist = Some old
      | DDIM => outs = [x_prev; pred_x0]
      end.
Proof.
  unfold p_sampling_fn, evaluations_of. destruct self_sampler; intros Hrun.
  - run_split Hrun as r s1 Hstep. destruct r as [[x_prev pred_x0] e_t].
    rewrite ret_run in Hrun. injection Hrun as <- <-.
    destruct hist as [old|].
    2:{ unfold PLMS_p_sampling_fn in Hstep. run_split Hstep as e s2 Heval.
        rewrite bind_run in Hstep. discriminate Hstep. }
    destruct (plms_step_inv _ _ _ _ _ _ _ _ _ _ _ _ _ _ _ _ _ _ _ Hstep)
      as (e & s2 & e' & s3 & xp & p0 & Heval & Hdepth & Hrecon & Hr).
    injection Hr as <- <- <-.
    destruct (get_model_output_trace _ _ _ _ _ _ _ _ _ _ _ Heval) as (evs1 & Ht1 & Hi1 & Hc1).
    destruct (reconstruct_trace _ _ _ _ _ _ _ _ _ _ _ Hrecon) as (evs3 & Ht3 & Hi3 & Hc3).
    assert (∃ evs2, trace s3 = trace s2 ++ evs2 ∧ integrator_only evs2
                    ∧ model_calls evs2 =
                        ((match old with [] => 1 | _ => 0 end)
                         * calls_per_evaluation uc scale)%nat)
      as (evs2 & Ht2 & Hi2 & Hc2).
    { pose proof (length_reverse old) as Hlen.
      destruct (reverse old) as [|h1 [|h2 [|h3 rest]]]; simpl in Hlen.
      - destruct old; [|done].
        destruct Hdepth as (tn & xa & pa & sa & en & _ & Hah & Hev & _).
        destruct (reconstruct_trace _ _ _ _ _ _ _ _ _ _ _ Hah) as (ea & Hta & Hia & Hca).
        destruct (get_model_output_trace _ _ _ _ _ _ _ _ _ _ _ Hev) as (eb & Htb & Hib & Hcb).
        exists (ea ++ eb). rewrite Htb, Hta, app_assoc. split; [done|].
        split; [by apply integrator_only_app|]. rewrite model_calls_app, Hca, Hcb. lia.
      - destruct old; [done|]. destruct Hdepth as [-> _]. exists [].
        rewrite app_nil_r. split; [done|]. split; [apply integrator_only_nil | done].
      - destruct old; [done|]. destruct Hdepth as [-> _]. exists [].
        rewrite app_nil_r. split; [done|]. split; [apply integrator_only_nil | done].
      - destruct old; [done|]. destruct Hdepth as [-> _]. exists [].
        rewrite app_nil_r. split; [done|]. split; [apply integrator_only_nil | done]. }
    exists x_prev, pred_x0, (evs1 ++ evs2 ++ evs3).
    split; [done|]. split; [done|].
    split; [by rewrite Ht3, Ht2, Ht1, !app_assoc|].
    split; [by repeat apply integrator_only_app|].
    split; [|by eexists _, _].
    rewrite !model_calls_app, Hc1, Hc2, Hc3. destruct old; lia.
  - run_split Hrun as r s1 Hstep. destruct r as [x_prev pred_x0].
    rewrite ret_run in Hrun. injection Hrun as <- <-.
    destruct (ddim_step_inv _ _ _ _ _ _ _ _ _ _ _ _ _ _ _ _ _ Hstep)
      as (e_t & s2 & Heval & Hrecon).
    destruct (get_model_output_trace _ _ _ _ _ _ _ _ _ _ _ Heval) as (evs1 & Ht1 & Hi1 & Hc1).
    destruct (reconstruct_trace _ _ _ _ _ _ _ _ _ _ _ Hrecon) as (evs2 & Ht2 & Hi2 & Hc2).
    exists x_prev, pred_x0, (evs1 ++ evs2).
    split; [done|]. split; [done|].
    split; [by rewrite Ht2, Ht1, app_assoc|].
    split; [by apply integrator_only_app|].
    split; [|done]. rewrite model_calls_app, Hc1, Hc2. lia.
Qed.

Lemma integrate_trace i step st ts_next hist img0 s st' s' :
  integrate i step st ts_next hist img0 s = (Ok st', s') →
  ∃ pred_x0 step_evs,
    trace s' = trace s ++ step_evs ++ callback_events callback img_callback i pred_x0
    ∧ integrator_only step_evs
    ∧ model_calls step_evs
      = (evaluations_of self_sampler hist * calls_per_evaluation uc scale)%nat
    ∧ log_every_t ≠ 0
    ∧ intermediates st'
      = (if logged log_every_t total_steps i
         then {| x_inter := x_inter (intermediates st) ++ [img st'];
                 inter_pred_x0 := inter_pred_x0 (intermediates st) ++ [pred_x0] |}
         else intermediates st)
    ∧ match self_sampler with
      | PLMS => ∃ e_t old, hist = Some old
                           ∧ old_eps st' = Some (update_history old e_t)
                           ∧ eps_log st' = eps_log st ++ [e_t]
      | DDIM => old_eps st' = hist ∧ eps_log st' = eps_log st
      end.
Proof.
  unfold integrate_and_update. intros Hrun.
  run_split Hrun as outs s1 Hstep.
  destruct (p_sampling_fn_trace _ _ _ _ _ _ _ _ Hstep)
    as (x_prev & pred_x0 & evs & H0 & H1 & Ht & Hi & Hc & Houts).
  rewrite bind_run in Hrun. unfold lift at 1 in Hrun. rewrite H0 in Hrun.
  rewrite bind_run in Hrun. unfold lift at 1 in Hrun. rewrite H1 in Hrun.
  run_split Hrun as hl s2 Hhist. destruct hl as [hist' log'].
  assert (s2 = s1 ∧ match self_sampler with
                    | PLMS => ∃ e_t old, hist = Some old
                                         ∧ hist' = Some (update_history old e_t)
                                         ∧ log' = eps_log st ++ [e_t]
                    | DDIM => hist' = hist ∧ log' = eps_log st
                    end) as [-> Hsampler].
  { destruct self_sampler.
    - destruct Houts as (e_t & old & -> & ->).
      rewrite bind_run in Hhist. unfold lift in Hhist. simpl in Hhist.
      rewrite ret_run in Hhist. injection Hhist as <- <- <-. split; [done|].
      by exists e_t, old.
    - rewrite ret_run in Hhist. by injection Hhist as <- <- <-. }
  exists pred_x0, evs.
  assert (log_every_t ≠ 0) as Hlog.
  { intros ->. destruct callback, img_callback; rewrite !bind_run in Hrun;
      simpl in Hrun; discriminate Hrun. }
  apply Z.eqb_neq in Hlog as Hlogb.
  run_split Hrun as u1 s3 Hcb. run_split Hrun as u2 s4 Hicb.
  rewrite Hlogb in Hrun. rewrite bind_run, ret_run, ret_run in Hrun.
  injection Hrun as <- <-. cbn [img old_eps intermediates eps_log].
  split.
  { unfold callback_events. destruct callback, img_callback;
      rewrite ?emit_run, ?ret_run in Hcb; injection Hcb as _ <-;
      rewrite ?emit_run, ?ret_run in Hicb; injection Hicb as _ <-;
      rewrite ?log_trace, Ht, <- ?app_assoc; simpl; by rewrite ?app_nil_r. }
  repeat (split; [done|]). exact Hsampler.
Qed.

Lemma blend_known_trace img0 ts s img1 s' :
  blend_known mask x0 img0 ts s = (Ok img1, s') →
  trace s' = trace s ++ blend_events mask x0 ts s
  ∧ (mask = None → img1 = img0)
  ∧ (is_Some mask → is_Some x0).
Proof.
  unfold blend_known, blend_events. destruct mask as [m|].
  - destruct x0 as [known|]; [|done]. intros [= <- <-].
    split; [done|]. split; [done|]. by eexists.
  - intros [= <- <-]. rewrite app_nil_r. split; [done|]. split; [done|].
    by intros [? [=]].
Qed.

Lemma next_and_history_ok i st s ts_next hist s' :
  next_and_history time_range i st s = (Ok (ts_next, hist), s') →
  s' = s ∧ hist = history_given st.
Proof.
  unfold next_and_history, history_given. destruct self_sampler.
  - rewrite bind_run. unfold lift. destruct (py_index _ _); [|done].
    rewrite ret_run. by intros [= <- <- <-].
  - rewrite ret_run. by intros [= <- <- <-].
Qed.

Lemma loop_body_trace i step st s st' s' :
  body i step st s = (Ok st', s') →
  ∃ pred_x0 step_evs,
    trace s' = trace s ++ blend_events mask x0 step s ++ step_evs
               ++ callback_events callback img_callback i pred_x0
    ∧ integrator_only step_evs
    ∧ model_calls step_evs
      = (evaluations_of self_sampler (old_eps st) * calls_per_evaluation uc scale)%nat
    ∧ log_every_t ≠ 0
    ∧ (is_Some mask → is_Some x0)
    ∧ intermediates st'
      = (if logged log_every_t total_steps i
         then {| x_inter := x_inter (intermediates st) ++ [img st'];
                 inter_pred_x0 := inter_pred_x0 (intermediates st) ++ [pred_x0] |}
         else intermediates st)
    ∧ match self_sampler with
      | PLMS => ∃ e_t old, old_eps st = Some old
                           ∧ old_eps st' = Some (update_history old e_t)
                           ∧ eps_log st' = eps_log st ++ [e_t]
      | DDIM => old_eps st' = None ∧ eps_log st' = eps_log st
      end.
Proof.
  unfold loop_body. intros Hrun.
  run_split Hrun as nh s1 Hnh. destruct nh as [ts_next hist].
  apply next_and_history_ok in Hnh as [-> ->].
  run_split Hrun as img1 s1 Hblend.
  apply blend_known_trace in Hblend as (Htb & _ & Hmask).
  destruct (integrate_trace _ _ _ _ _ _ _ _ _ Hrun)
    as (pred_x0 & evs & Ht & Hi & Hc & Hlog & Hinter & Hsampler).
  exists pred_x0, evs. rewrite Ht, Htb, <- !app_assoc.
  split; [done|]. split; [done|].
  split.
  { rewrite Hc. unfold history_given, evaluations_of. by destruct self_sampler. }
  repeat (split; [done|]).
  unfold history_given in Hsampler. by destruct self_sampler.
Qed.

Lemma q_sample_calls_app evs1 evs2 :
  q_sample_calls (evs1 ++ evs2) = (q_sample_calls evs1 + q_sample_calls evs2)%nat.
Proof. unfold q_sample_calls. by rewrite filter_app, length_app. Qed.

Lemma callback_indices_app evs1 evs2 :
  callback_indices (evs1 ++ evs2) = callback_indices evs1 ++ callback_indices evs2.
Proof. apply omap_app. Qed.

Lemma img_callback_calls_app evs1 evs2 :
  img_callback_calls (evs1 ++ evs2) = img_callback_calls evs1 ++ img_callback_calls evs2.
Proof. apply omap_app. Qed.

(** What one iteration adds to each count. *)
Lemma iteration_counts step s i pred_x0 step_evs :
  integrator_only step_evs → (is_Some mask → is_Some x0) →
  let evs := blend_events mask x0 step s ++ step_evs
             ++ callback_events callback img_callback i pred_x0 in
  model_calls evs = model_calls step_evs
  ∧ q_sample_calls evs = (match mask with Some _ => 1 | None => 0 end)%nat
  ∧ callback_indices evs = (if callback then [i] else [])
  ∧ (img_callback_calls evs).*2 = (if img_callback then [i] else []).
Proof.
  intros Hi Hmask evs. unfold evs.
  destruct (integrator_only_callbacks _ Hi) as [Hcb Hicb].
  rewrite !model_calls_app, !q_sample_calls_app, !callback_indices_app,
    !img_callback_calls_app, Hcb, Hicb, (integrator_only_q_sample _ Hi).
  unfold blend_events, callback_events.
  destruct mask as [m|].
  - destruct Hmask as [known ->]; [by eexists|].
    destruct callback, img_callback; repeat split; try done;
      unfold model_calls, q_sample_calls; simpl; lia.
  - destruct callback, img_callback; repeat split; try done;
      unfold model_calls, q_sample_calls; simpl; lia.
Qed.

Lemma update_history_nonempty (old : list T) e_t : update_history old e_t ≠ [].
Proof.
  unfold update_history. intros Hnil. apply (f_equal length) in Hnil.
  revert Hnil. case_bool_decide as Hfull; rewrite ?length_drop, length_app;
    rewrite length_app in Hfull; simpl in *; lia.
Qed.

Lemma loop_body_then_single i step st s st' s' :
  body i step st s = (Ok st', s') → evaluations_of self_sampler (old_eps st') = 1%nat.
Proof.
  intros (_ & _ & _ & _ & _ & _ & _ & _ & Hsampler)%loop_body_trace.
  unfold evaluations_of. destruct self_sampler; [|done].
  destruct Hsampler as (e_t & old & _ & -> & _).
  pose proof (update_history_nonempty old e_t). by destruct (update_history old e_t).
Qed.

(** The events of the iterations over [steps]. *)
Lemma run_loop_trace steps i st s st' s' :
  run steps i st s = (Ok st', s') →
  ∃ evs,
    trace s' = trace s ++ evs
    ∧ model_calls evs
      = (run_evaluations (old_eps st) (length steps) * calls_per_evaluation uc scale)%nat
    ∧ q_sample_calls evs = (match mask with Some _ => length steps | None => 0 end)%nat
    ∧ callback_indices evs = (if callback then seqZ i (Z.of_nat (length steps)) else [])
    ∧ (img_callback_calls evs).*2
      = (if img_callback then seqZ i (Z.of_nat (length steps)) else [])
    ∧ (steps ≠ [] → log_every_t ≠ 0 ∧ (is_Some mask → is_Some x0)).
Proof.
  revert i st s. induction steps as [|step steps IH]; intros i st s Hrun.
  - simpl in Hrun. rewrite ret_run in Hrun. injection Hrun as <- <-.
    exists []. rewrite app_nil_r. simpl.
    split; [done|]. split; [done|]. split; [by destruct mask|].
    split; [by destruct callback|]. split; [by destruct img_callback|]. done.
  - simpl in Hrun. run_split Hrun as st1 s1 Hbody.
    pose proof (loop_body_then_single _ _ _ _ _ _ Hbody) as Hsingle.
    destruct (loop_body_trace _ _ _ _ _ _ Hbody)
      as (pred_x0 & step_evs & Ht & Hi & Hc & Hlog & Hmask & _ & _).
    destruct (iteration_counts step s i pred_x0 step_evs Hi Hmask) as (C1 & C2 & C3 & C4).
    cbv zeta in C1, C2, C3, C4.
    set (iter := blend_events mask x0 step s ++ step_evs
                 ++ callback_events callback img_callback i pred_x0) in *.
    destruct (IH _ _ _ Hrun) as (evs & Ht' & D1 & D2 & D3 & D4 & _).
    exists (iter ++ evs).
    split; [by rewrite Ht', Ht, <- app_assoc|].
    assert (run_evaluations (old_eps st1) (length steps) = length steps) as Hrest.
    { unfold run_evaluations. destruct (length steps); [done|]. rewrite Hsingle. lia. }
    assert (seqZ i (Z.of_nat (length (step :: steps)))
            = i :: seqZ (i + 1) (Z.of_nat (length steps))) as Hseq.
    { simpl length. rewrite seqZ_cons by lia. f_equal. f_equal; lia. }
    split.
    { rewrite model_calls_app, C1, D1, Hc, Hrest. simpl. lia. }
    split.
    { rewrite q_sample_calls_app, C2, D2. simpl. destruct mask; lia. }
    split.
    { rewrite callback_indices_app, C3, D3, Hseq. by destruct callback. }
    split.
    { rewrite img_callback_calls_app, fmap_app, C4, D4, Hseq. by destruct img_callback. }
    done.
Qed.

(** X6.  With [log_every_t = 0] an iteration fails only at its very
    end: once the step function has returned, the callbacks are called
    as usual and then the test [index % log_every_t] raises
    [ZeroDivisionError]; the new state is lost. *)
Theorem log_every_zero_fails_after_step i step st ts_next hist img0 s outs s1 :
  log_every_t = 0 →
  step_fn img0 step i hist ts_next s = (Ok outs, s1) →
  ∃ pred_x0,
    py_index outs 1 = Ok pred_x0
    ∧ integrate i step st ts_next hist img0 s
      = (Raise ZeroDivisionError, log s1 (callback_events callback img_callback i pred_x0)).
Proof.
  intros Hzero Hstep.
  destruct (p_sampling_fn_trace _ _ _ _ _ _ _ _ Hstep)
    as (x_prev & pred_x0 & evs & H0 & H1 & _ & _ & _ & Houts).
  exists pred_x0. split; [done|].
  unfold integrate_and_update. rewrite (bind_ok _ _ _ _ _ Hstep).
  rewrite bind_run. unfold lift at 1. rewrite H0.
  rewrite bind_run. unfold lift at 1. rewrite H1.
  rewrite bind_run. revert Houts. destruct self_sampler; intros Houts.
  - destruct Houts as (e_t & old & -> & ->).
    subst log_every_t. unfold callback_events.
    destruct callback, img_callback;
      repeat (rewrite ?bind_run, ?emit_run, ?ret_run; simpl);
      rewrite ?log_log, ?log_nil; reflexivity.
  - subst log_every_t. unfold callback_events.
    destruct callback, img_callback;
      repeat (rewrite ?bind_run, ?emit_run, ?ret_run; simpl);
      rewrite ?log_log, ?log_nil; reflexivity.
Qed.

Lemma logged_last i n :
  (0 < n)%nat → (i + Z.of_nat n = total_steps)%Z →
  logged log_every_t total_steps (i + Z.of_nat n - 1)%Z = true.
Proof.
  intros Hn Hend. unfold logged.
  replace (total_steps - (i + Z.of_nat n - 1) - 1)%Z with 0%Z by lia.
  by rewrite Zmod_0_l.
Qed.

(** The intermediates after the iterations over [steps]. *)
Lemma run_loop_intermediates steps i st s st' s' :
  run steps i st s = (Ok st', s') →
  x_inter (intermediates st) `prefix_of` x_inter (intermediates st')
  ∧ inter_pred_x0 (intermediates st) `prefix_of` inter_pred_x0 (intermediates st')
  ∧ (length (x_inter (intermediates st')) - length (x_inter (intermediates st))
     = length (inter_pred_x0 (intermediates st'))
       - length (inter_pred_x0 (intermediates st)))%nat
  ∧ (steps = [] → st' = st)
  ∧ (steps ≠ [] → (i + Z.of_nat (length steps) = total_steps)%Z →
     last (x_inter (intermediates st')) = Some (img st')).
Proof.
  revert i st s. induction steps as [|step steps IH]; intros i st s Hrun.
  - simpl in Hrun. rewrite ret_run in Hrun. injection Hrun as <- <-.
    repeat split; try done. lia.
  - simpl in Hrun. run_split Hrun as st1 s1 Hbody.
    destruct (loop_body_trace _ _ _ _ _ _ Hbody)
      as (pred_x0 & step_evs & _ & _ & _ & _ & _ & Hinter & _).
    destruct (IH _ _ _ Hrun) as (P1 & P2 & Plen & Pnil & Plast).
    assert (x_inter (intermediates st) `prefix_of` x_inter (intermediates st1)
            ∧ inter_pred_x0 (intermediates st) `prefix_of` inter_pred_x0 (intermediates st1)
            ∧ (length (x_inter (intermediates st1)) - length (x_inter (intermediates st))
               = length (inter_pred_x0 (intermediates st1))
                 - length (inter_pred_x0 (intermediates st)))%nat) as (Q1 & Q2 & Qlen).
    { rewrite Hinter. destruct (logged log_every_t total_steps i); simpl.
      - split; [by apply prefix_app_r|]. split; [by apply prefix_app_r|].
        rewrite !length_app. simpl. lia.
      - repeat split; try done. lia. }
    split; [by etrans|]. split; [by etrans|].
    split.
    { apply prefix_length in P1, P2, Q1, Q2. lia. }
    split; [done|]. intros _ Hend.
    destruct steps as [|step' steps'].
    + rewrite (Pnil eq_refl). rewrite Hinter.
      replace (logged log_every_t total_steps i) with true.
      { simpl. by rewrite last_snoc. }
      symmetry. replace i with (i + Z.of_nat 1 - 1)%Z by lia.
      apply logged_last; [lia|]. simpl in Hend. lia.
    + apply Plast; [done|]. simpl length in *. lia.
Qed.

(** The number of entries the iterations over [steps] append. *)
Lemma run_loop_logged_count steps i st s st' s' :
  run steps i st s = (Ok st', s') →
  length (x_inter (intermediates st'))
  = (length (x_inter (intermediates st))
     + length (filter (λ j, logged log_every_t total_steps j = true)
                 (seqZ i (Z.of_nat (length steps)))))%nat.
Proof.
  revert i st s. induction steps as [|step steps IH]; intros i st s Hrun.
  - simpl in Hrun. rewrite ret_run in Hrun. injection Hrun as <- <-. simpl. lia.
  - simpl in Hrun. run_split Hrun as st1 s1 Hbody.
    destruct (loop_body_trace _ _ _ _ _ _ Hbody)
      as (pred_x0 & step_evs & _ & _ & _ & _ & _ & Hinter & _).
    rewrite (IH _ _ _ Hrun), Hinter.
    assert (seqZ i (Z.of_nat (length (step :: steps)))
            = i :: seqZ (i + 1) (Z.of_nat (length steps))) as ->.
    { simpl length. rewrite seqZ_cons by lia. f_equal. f_equal; lia. }
    rewrite filter_cons.
    destruct (logged log_every_t total_steps i) eqn:Hl.
    + rewrite decide_True by done. simpl. rewrite length_app. simpl. lia.
    + rewrite decide_False by done. lia.
Qed.
End run_properties.

(** *** Runs of [sampling_fn] *)

Section driver_properties.
Variables (cond : Conditioning T) (shape : list Z) (x_T : option T)
  (orig callback : bool) (timesteps : option Z) (q : bool) (mask x0 : option T)
  (img_callback : bool) (log_every_t : Z) (temp nd : float)
  (sc : option (ScoreCorrector T)) (kw : option (Kwargs T)) (scale : float)
  (uc : option (Conditioning T)) (cs : option (list float)).

Local Abbreviation driver :=
  (sampling_fn cond shape x_T orig callback timesteps q mask x0 img_callback
     log_every_t temp nd sc kw scale uc cs).

(** A run of the driver that returns: its plan and its loop. *)
Lemma sampling_fn_inv s im inter s' :
  driver s = (Ok (im, inter), s') →
  ∃ b tsr st',
    py_index shape 0 = Ok b
    ∧ fst (resolve_timesteps timesteps orig (log s (initial_events shape x_T s))) = Ok tsr
    ∧ run_loop cond orig callback q mask x0 img_callback log_every_t temp nd sc kw scale
        uc cs (time_range_of tsr) (total_steps_of tsr) (time_range_of tsr) 0
        (initial_loop_state (initial_img shape x_T s)) (log s (initial_events shape x_T s))
      = (Ok st', s')
    ∧ im = img st' ∧ inter = intermediates st'.
Proof.
  unfold sampling_fn. intros Hrun. run_split Hrun as st' s1 Hloop.
  rewrite ret_run in Hrun. injection Hrun as <- <- <-.
  destruct (py_index shape 0) as [b|e] eqn:Hb.
  2:{ unfold sampling_loop in Hloop. rewrite bind_run in Hloop. unfold lift in Hloop.
      rewrite Hb in Hloop. discriminate Hloop. }
  destruct (resolve_timesteps_run timesteps orig (log s (initial_events shape x_T s)))
    as [[tsr|e] Hts].
  - rewrite (sampling_loop_run _ _ _ _ _ _ _ _ _ _ _ _ _ _ _ _ _ _ _ b tsr Hb) in Hloop
      by (by rewrite Hts).
    exists b, tsr, st'. rewrite Hts. done.
  - exfalso. unfold sampling_loop in Hloop. rewrite bind_run in Hloop.
    unfold lift in Hloop. rewrite Hb in Hloop. rewrite bind_run in Hloop.
    unfold initial_events in Hts. destruct x_T as [x|].
    + rewrite ret_run in Hloop. rewrite log_nil in Hts.
      rewrite bind_run, Hts in Hloop. discriminate Hloop.
    + rewrite !bind_run in Hloop. simpl in Hloop.
      fold (log s [EvRandn shape (randn (trace s) shape)]) in Hloop.
      rewrite bind_run, Hts in Hloop. discriminate Hloop.
Qed.

Lemma time_range_length tsr :
  time_range_of tsr ≠ [] →
  Z.of_nat (length (time_range_of tsr)) = total_steps_of tsr.
Proof.
  destruct tsr as [n|plan]; simpl; rewrite length_reverse; [|done].
  unfold py_range. rewrite length_seqZ. intros Hne.
  destruct (decide (0 < n)) as [|Hn]; [lia|].
  exfalso. apply Hne. unfold py_range.
  apply length_zero_iff_nil. rewrite length_reverse, length_seqZ. lia.
Qed.

Lemma resolve_timesteps_log s evs :
  fst (resolve_timesteps timesteps orig (log s evs))
  = fst (resolve_timesteps timesteps orig s).
Proof.
  unfold resolve_timesteps. destruct timesteps as [n'|], orig; simpl; try done.
  - rewrite !bind_run. unfold get_ints at 1 3. cbn [self_attrs log].
    destruct (self_attrs s !! "ddim_timesteps") as [[plan|?|?]|]; try done.
    rewrite !bind_run. unfold lift. destruct (subset_end _ _); [|done].
    rewrite !bind_run. unfold get_ints. cbn [self_attrs log].
    destruct (self_attrs s !! "ddim_timesteps") as [[plan'|?|?]|]; done.
  - rewrite !bind_run. unfold get_ints. cbn [self_attrs log].
    destruct (self_attrs s !! "ddim_timesteps") as [[plan|?|?]|]; done.
Qed.

Lemma initial_events_counts s :
  model_calls (initial_events shape x_T s) = 0%nat
  ∧ q_sample_calls (initial_events shape x_T s) = 0%nat
  ∧ callback_indices (initial_events shape x_T s) = []
  ∧ img_callback_calls (initial_events shape x_T s) = [].
Proof. unfold initial_events. by destruct x_T. Qed.

(** A run of the driver that returns, with everything the loop did. *)
Lemma sampling_fn_run s im inter s' :
  driver s = (Ok (im, inter), s') →
  let steps := planned_steps timesteps orig s in
  let n := length steps in
  ∃ st' evs,
    run_loop cond orig callback q mask x0 img_callback log_every_t temp nd sc kw scale
      uc cs steps (Z.of_nat n) steps 0
      (initial_loop_state (initial_img shape x_T s)) (log s (initial_events shape x_T s))
    = (Ok st', s')
    ∧ im = img st' ∧ inter = intermediates st'
    ∧ trace s' = trace s ++ evs
    ∧ model_calls evs = (evaluations_of_run self_sampler n * calls_per_evaluation uc scale)%nat
    ∧ q_sample_calls evs = (match mask with Some _ => n | None => 0 end)%nat
    ∧ callback_indices evs = (if callback then seqZ 0 (Z.of_nat n) else [])
    ∧ (img_callback_calls evs).*2 = (if img_callback then seqZ 0 (Z.of_nat n) else [])
    ∧ (steps ≠ [] → log_every_t ≠ 0 ∧ (is_Some mask → is_Some x0)).
Proof.
  intros Hrun steps n.
  destruct (sampling_fn_inv _ _ _ _ Hrun) as (b & tsr & st' & Hb & Hts & Hloop & -> & ->).
  rewrite resolve_timesteps_log in Hts.
  assert (steps = time_range_of tsr) as Hsteps.
  { unfold steps, planned_steps. by rewrite Hts. }
  assert (run_loop cond orig callback q mask x0 img_callback log_every_t temp nd sc kw
            scale uc cs steps (Z.of_nat n) steps 0
            (initial_loop_state (initial_img shape x_T s))
            (log s (initial_events shape x_T s)) = (Ok st', s')) as Hloop'.
  { unfold n. rewrite Hsteps.
    destruct (decide (time_range_of tsr = [])) as [Hnil|Hne].
    - rewrite Hnil in *. simpl in *. done.
    - by rewrite time_range_length. }
  destruct (run_loop_trace _ _ _ _ _ _ _ _ _ _ _ _ _ _ _ _ _ _ _ _ _ _ _ Hloop')
    as (evs & Ht & Hc & Hq & Hcb & Hicb & Hchecks).
  destruct (initial_events_counts s) as (I1 & I2 & I3 & I4).
  exists st', (initial_events shape x_T s ++ evs).
  split; [done|]. split; [done|]. split; [done|].
  split; [by rewrite Ht, log_trace, app_assoc|].
  split.
  { rewrite model_calls_app, I1, Hc. simpl. fold n. f_equal.
    unfold run_evaluations, evaluations_of_run, evaluations_of. simpl.
    destruct self_sampler, n; lia. }
  split; [by rewrite q_sample_calls_app, I2, Hq|].
  split; [by rewrite callback_indices_app, I3, Hcb|].
  split; [by rewrite img_callback_calls_app, fmap_app, I4, Hicb|].
  done.
Qed.

(** X7.  The number of invocations of the denoising service in a run
    that returns is fixed by the plan alone: one evaluation per planned
    timestep, one more for PLMS (whose first step looks ahead), each
    evaluation costing one invocation, or two under guidance. *)
Theorem sampling_model_call_budget s im inter s' :
  driver s = (Ok (im, inter), s') →
  let n := length (planned_steps timesteps orig s) in
  ∃ evs,
    trace s' = trace s ++ evs
    ∧ model_calls evs
      = (evaluations_of_run self_sampler n * calls_per_evaluation uc scale)%nat.
Proof.
  intros Hrun n.
  destruct (sampling_fn_run _ _ _ _ Hrun) as (st' & evs & _ & _ & _ & Ht & Hc & _).
  by exists evs.
Qed.

(** X8.  In a run that returns, each callback that is given is called
    exactly once per iteration, with the iteration numbers
    [0, 1, ..., n - 1] in this order; a callback that is not given is
    never called. *)
Theorem sampling_callbacks_in_order s im inter s' :
  driver s = (Ok (im, inter), s') →
  let n := Z.of_nat (length (planned_steps timesteps orig s)) in
  ∃ evs,
    trace s' = trace s ++ evs
    ∧ callback_indices evs = (if callback then seqZ 0 n else [])
    ∧ (img_callback_calls evs).*2 = (if img_callback then seqZ 0 n else []).
Proof.
  intros Hrun n.
  destruct (sampling_fn_run _ _ _ _ Hrun)
    as (st' & evs & _ & _ & _ & Ht & _ & _ & Hcb & Hicb & _).
  by exists evs.
Qed.

(** X9.  In a run that returns, [q_sample] is called once per iteration
    when a mask is given, and never without a mask, even if known
    pixels [x0] are passed. *)
Theorem sampling_q_sample_per_iteration s im inter s' :
  driver s = (Ok (im, inter), s') →
  let n := length (planned_steps timesteps orig s) in
  ∃ evs,
    trace s' = trace s ++ evs
    ∧ q_sample_calls evs = (match mask with Some _ => n | None => 0 end)%nat.
Proof.
  intros Hrun n.
  destruct (sampling_fn_run _ _ _ _ Hrun) as (st' & evs & _ & _ & _ & Ht & _ & Hq & _).
  by exists evs.
Qed.

(** X10.  The intermediates of a run that returns: both lists start
    with the starting state (the list named [pred_x0] too, although
    that entry is no prediction), they grow together, by one entry per
    iteration whose index passes the test on [log_every_t], and the
    last entry of [x_inter] is the sample that is returned. *)
Theorem sampling_intermediates s im inter s' :
  driver s = (Ok (im, inter), s') →
  let n := length (planned_steps timesteps orig s) in
  head (x_inter inter) = Some (initial_img shape x_T s)
  ∧ head (inter_pred_x0 inter) = Some (initial_img shape x_T s)
  ∧ length (x_inter inter) = S (length (logged_iterations log_every_t n))
  ∧ length (inter_pred_x0 inter) = length (x_inter inter)
  ∧ last (x_inter inter) = Some im.
Proof.
  intros Hrun n.
  destruct (sampling_fn_run _ _ _ _ Hrun) as (st' & evs & Hloop & -> & -> & _).
  destruct (run_loop_intermediates _ _ _ _ _ _ _ _ _ _ _ _ _ _ _ _ _ _ _ _ _ _ _ Hloop)
    as (P1 & P2 & Plen & Pnil & Plast).
  pose proof (run_loop_logged_count _ _ _ _ _ _ _ _ _ _ _ _ _ _ _ _ _ _ _ _ _ _ _ Hloop)
    as Hcount.
  simpl in P1, P2, Plen, Hcount.
  split; [by destruct P1 as [k ->]|]. split; [by destruct P2 as [k ->]|].
  split; [done|]. split.
  { apply prefix_length in P1, P2. simpl in P1, P2. lia. }
  destruct (decide (planned_steps timesteps orig s = [])) as [Hnil|Hne].
  - by rewrite (Pnil Hnil).
  - apply Plast; [done|]. fold n. lia.
Qed.

(** X11.  A run whose plan is empty (for instance [timesteps <= 0] in
    original-steps mode) returns the starting state at once, with
    intermediates holding that state alone: no service is called, and
    neither a mask without known pixels nor [log_every_t = 0] is
    noticed. *)
Theorem sampling_empty_plan s b tsr :
  py_index shape 0 = Ok b →
  fst (resolve_timesteps timesteps orig s) = Ok tsr →
  time_range_of tsr = [] →
  let img0 := initial_img shape x_T s in
  driver s = (Ok (img0, {| x_inter := [img0]; inter_pred_x0 := [img0] |}),
              log s (initial_events shape x_T s)).
Proof.
  intros Hb Hts Hnil img0. unfold sampling_fn. rewrite bind_run.
  rewrite (sampling_loop_run _ _ _ _ _ _ _ _ _ _ _ _ _ _ _ _ _ _ _ b tsr Hb)
    by (by rewrite resolve_timesteps_log).
  rewrite Hnil. reflexivity.
Qed.

(** X12.  A run over the sampler's own plan on a sampler whose schedule
    was never built raises [AttributeError] for [ddim_timesteps] before
    any service is called; only the draw of the starting noise, when
    [x_T] is not given, comes first. *)
Theorem sampling_without_schedule s b :
  py_index shape 0 = Ok b →
  orig = false →
  self_attrs s !! "ddim_timesteps" = None →
  driver s = (Raise (AttributeError "ddim_timesteps"), log s (initial_events shape x_T s))
  ∧ model_calls (initial_events shape x_T s) = 0%nat.
Proof.
  intros Hb Horig Hnone. split; [|apply initial_events_counts].
  assert (resolve_timesteps timesteps orig (log s (initial_events shape x_T s))
          = (Raise (AttributeError "ddim_timesteps"), log s (initial_events shape x_T s)))
    as Hts.
  { unfold resolve_timesteps. rewrite Horig. simpl.
    destruct timesteps; rewrite bind_run; unfold get_ints; cbn [self_attrs log];
      by rewrite Hnone. }
  unfold sampling_fn. rewrite bind_run. unfold sampling_loop.
  rewrite bind_run. unfold lift. rewrite Hb. rewrite bind_run.
  unfold initial_events in *. destruct x_T as [x|].
  - rewrite ret_run. rewrite log_nil in Hts |- *. by rewrite bind_run, Hts.
  - rewrite !bind_run. simpl.
    fold (log s [EvRandn shape (randn (trace s) shape)]).
    by rewrite bind_run, Hts.
Qed.

End driver_properties.

(** *** Building the schedule *)

Lemma ddim_tables_kept (attrs attrs' : gmap string (Attr T)) :
  (∀ name, name ∈ ddim_tables → attrs' !! name = attrs !! name) ↔
  attrs' !! "ddim_sigmas" = attrs !! "ddim_sigmas"
  ∧ attrs' !! "ddim_alphas" = attrs !! "ddim_alphas"
  ∧ attrs' !! "ddim_alphas_prev" = attrs !! "ddim_alphas_prev"
  ∧ attrs' !! "ddim_sqrt_one_minus_alphas" = attrs !! "ddim_sqrt_one_minus_alphas"
  ∧ attrs' !! "ddim_sigmas_for_original_num_steps"
    = attrs !! "ddim_sigmas_for_original_num_steps".
Proof.
  unfold ddim_tables. split.
  - intros Hall. repeat split; apply Hall; set_solver.
  - intros (H1 & H2 & H3 & H4 & H5) name Hname.
    repeat (apply elem_of_cons in Hname as [->|Hname]; [done|]).
    by apply elem_of_nil in Hname.
Qed.

(** The three places at which a build stops once the plan is stored. *)
Lemma make_schedule_stops n d eta s plan :
  make_ddim_timesteps d n ddpm_num_timesteps = Ok plan →
  let s0 := {| self_attrs := <["ddim_timesteps" := AInts plan]> (self_attrs s);
               trace := trace s |} in
  (∀ e, make_beta_schedule "linear" ddpm_num_timesteps 0.00085 0.0120 0.008 = Raise e →
        make_schedule n d eta s = (Raise e, s0))
  ∧ (∀ betas,
       make_beta_schedule "linear" ddpm_num_timesteps 0.00085 0.0120 0.008 = Ok betas →
       Z.of_nat (length betas) ≠ ddpm_num_timesteps →
       make_schedule n d eta s = (Raise AssertionError, s0))
  ∧ (∀ betas e,
       make_beta_schedule "linear" ddpm_num_timesteps 0.00085 0.0120 0.008 = Ok betas →
       Z.of_nat (length betas) = ddpm_num_timesteps →
       make_ddim_sampling_parameters (cumprod ((λ b, #1 - b) <$> betas)) plan eta
         = Raise e →
       ∃ s', make_schedule n d eta s = (Raise e, s')
             ∧ trace s' = trace s
             ∧ self_attrs s' !! "ddim_timesteps" = Some (AInts plan)
             ∧ ∀ name, name ∈ ddim_tables → self_attrs s' !! name = self_attrs s !! name).
Proof.
  intros Hplan s0. split; [|split].
  - intros e Hbetas. unfold make_schedule.
    rewrite bind_run. unfold lift at 1. rewrite Hplan.
    rewrite bind_run. unfold setattr at 1.
    rewrite bind_run. unfold lift at 1. by rewrite Hbetas.
  - intros betas Hbetas Hlen. unfold make_schedule.
    rewrite bind_run. unfold lift at 1. rewrite Hplan.
    rewrite bind_run. unfold setattr at 1.
    rewrite bind_run. unfold lift at 1. rewrite Hbetas.
    rewrite bind_run. unfold py_assert.
    by rewrite bool_decide_eq_false_2 by (by rewrite cumprod_length, length_fmap).
  - intros betas e Hbetas Hlen Hparams. unfold make_schedule.
    rewrite bind_run. unfold lift at 1. rewrite Hplan.
    rewrite bind_run. unfold setattr at 1.
    rewrite bind_run. unfold lift at 1. rewrite Hbetas.
    rewrite bind_run. unfold py_assert.
    rewrite bool_decide_eq_true_2 by (by rewrite cumprod_length, length_fmap).
    rewrite ret_run. unfold register_buffer.
    do 8 (rewrite bind_run; unfold setattr at 1).
    rewrite bind_run. unfold get_ints at 1. cbn [self_attrs].
    rewrite !lookup_insert_ne by done. rewrite lookup_insert_eq.
    rewrite bind_run. unfold lift at 1. rewrite Hparams.
    eexists. split; [reflexivity|]. cbn [self_attrs trace].
    split; [reflexivity|]. split.
    { rewrite !lookup_insert_ne by done. by rewrite lookup_insert_eq. }
    apply ddim_tables_kept. repeat split; by rewrite !lookup_insert_ne by done.
Qed.

(** X14.  A build that fails after the plan has been computed leaves the
    sampler inconsistent: [ddim_timesteps] already holds the new plan,
    while every table of coefficients for that plan is still the one of
    the previous build (or still missing). *)
Theorem make_schedule_failure_keeps_old_tables n d eta s plan e s' :
  make_ddim_timesteps d n ddpm_num_timesteps = Ok plan →
  make_schedule n d eta s = (Raise e, s') →
  self_attrs s' !! "ddim_timesteps" = Some (AInts plan)
  ∧ (∀ name, name ∈ ddim_tables → self_attrs s' !! name = self_attrs s !! name)
  ∧ trace s' = trace s.
Proof.
  intros Hplan Hrun.
  destruct (make_schedule_stops n d eta s plan Hplan) as (Hb & Ha & Hp).
  assert (∀ s0 : State T,
            s0 = {| self_attrs := <["ddim_timesteps" := AInts plan]> (self_attrs s);
                    trace := trace s |} →
            self_attrs s0 !! "ddim_timesteps" = Some (AInts plan)
            ∧ (∀ name, name ∈ ddim_tables → self_attrs s0 !! name = self_attrs s !! name)
            ∧ trace s0 = trace s) as Hs0.
  { intros s0 ->. cbn [self_attrs trace]. split; [by rewrite lookup_insert_eq|].
    split; [|done]. apply ddim_tables_kept.
    repeat split; by rewrite lookup_insert_ne by done. }
  destruct (make_beta_schedule "linear" ddpm_num_timesteps 0.00085 0.0120 0.008)
    as [betas|e'] eqn:Hbetas.
  2:{ rewrite (Hb e' eq_refl) in Hrun. injection Hrun as _ <-. by apply Hs0. }
  destruct (decide (Z.of_nat (length betas) = ddpm_num_timesteps)) as [Hlen|Hlen].
  2:{ rewrite (Ha betas eq_refl Hlen) in Hrun. injection Hrun as _ <-. by apply Hs0. }
  destruct (make_ddim_sampling_parameters (cumprod ((λ b, #1 - b) <$> betas)) plan eta)
    as [[[sigmas alphas] alphas_prev]|e'] eqn:Hparams.
  - destruct (make_schedule_ok n d eta s plan betas sigmas alphas alphas_prev
                Hplan Hbetas Hlen Hparams) as (s1 & Hok & _).
    rewrite Hok in Hrun. discriminate Hrun.
  - destruct (Hp betas e' eq_refl Hlen Hparams) as (s1 & Hfail & Ht & Hl & Hkept).
    rewrite Hfail in Hrun. by injection Hrun as _ <-.
Qed.

(** A build that returns has stored the plan of its discretization. *)
Lemma make_schedule_inv n d eta s s1 :
  make_schedule n d eta s = (Ok (), s1) →
  ∃ plan, make_ddim_timesteps d n ddpm_num_timesteps = Ok plan
          ∧ self_attrs s1 !! "ddim_timesteps" = Some (AInts plan)
          ∧ trace s1 = trace s.
Proof.
  intros Hrun.
  destruct (make_ddim_timesteps d n ddpm_num_timesteps) as [plan|e] eqn:Hplan.
  2:{ unfold make_schedule in Hrun. rewrite bind_run in Hrun. unfold lift at 1 in Hrun.
      rewrite Hplan in Hrun. discriminate Hrun. }
  destruct (make_schedule_stops n d eta s plan Hplan) as (Hb & Ha & Hp).
  destruct (make_beta_schedule "linear" ddpm_num_timesteps 0.00085 0.0120 0.008)
    as [betas|e'] eqn:Hbetas.
  2:{ rewrite (Hb e' eq_refl) in Hrun. discriminate Hrun. }
  destruct (decide (Z.of_nat (length betas) = ddpm_num_timesteps)) as [Hlen|Hlen].
  2:{ rewrite (Ha betas eq_refl Hlen) in Hrun. discriminate Hrun. }
  destruct (make_ddim_sampling_parameters (cumprod ((λ b, #1 - b) <$> betas)) plan eta)
    as [[[sigmas alphas] alphas_prev]|e'] eqn:Hparams.
  - destruct (make_schedule_ok n d eta s plan betas sigmas alphas alphas_prev
                Hplan Hbetas Hlen Hparams) as (s' & Hok & Ht & Hl & _).
    rewrite Hok in Hrun. injection Hrun as <-. by exists plan.
  - destruct (Hp betas e' eq_refl Hlen Hparams) as (s' & Hfail & _).
    rewrite Hfail in Hrun. discriminate Hrun.
Qed.

Lemma self_make_schedule_inv n eta s s1 :
  self_make_schedule n "uniform" eta s = (Ok (), s1) →
  ∃ plan, make_ddim_timesteps "uniform" n ddpm_num_timesteps = Ok plan
          ∧ self_attrs s1 !! "ddim_timesteps" = Some (AInts plan)
          ∧ trace s1 = trace s.
Proof.
  unfold self_make_schedule, PLMS_make_schedule. destruct self_sampler.
  - destruct (negb _); [done|]. apply make_schedule_inv.
  - apply make_schedule_inv.
Qed.

(** X15.  The original-steps tables of a build that returns:
    [alphas_cumprod_prev] is [alphas_cumprod] moved one place up with
    [1.0] in front; both, like the table of sigmas for the original
    steps, have one entry per timestep of the model; and each of those
    sigmas is [eta * sqrt((1 - prev) / (1 - cur) * (1 - cur / prev))]
    of the entries at its own position. *)
Theorem make_schedule_original_tables n d eta s plan betas sigmas alphas alphas_prev :
  make_ddim_timesteps d n ddpm_num_timesteps = Ok plan →
  make_beta_schedule "linear" ddpm_num_timesteps 0.00085 0.0120 0.008 = Ok betas →
  Z.of_nat (length betas) = ddpm_num_timesteps →
  make_ddim_sampling_parameters (cumprod ((λ b, #1 - b) <$> betas)) plan eta
    = Ok (sigmas, alphas, alphas_prev) →
  ∃ s' acp prev original_sigmas,
    make_schedule n d eta s = (Ok (), s')
    ∧ self_attrs s' !! "alphas_cumprod" = Some (ATable acp)
    ∧ self_attrs s' !! "alphas_cumprod_prev" = Some (ATable prev)
    ∧ self_attrs s' !! "ddim_sigmas_for_original_num_steps"
      = Some (ATable original_sigmas)
    ∧ Z.of_nat (length acp) = ddpm_num_timesteps
    ∧ Z.of_nat (length prev) = ddpm_num_timesteps
    ∧ Z.of_nat (length original_sigmas) = ddpm_num_timesteps
    ∧ prev !! 0%nat = Some #1
    ∧ (∀ (i : nat) a, (S i < length acp)%nat → acp !! i = Some a → prev !! S i = Some a)
    ∧ (∀ (i : nat) p a, prev !! i = Some p → acp !! i = Some a →
         original_sigmas !! i
         = Some (#eta * tsqrt ((#1 - p) / (#1 - a) * (#1 - a / p)))).
Proof.
  intros Hplan Hbetas Hlen Hparams.
  pose (acp := cumprod ((λ b, #1 - b) <$> betas)).
  assert (Z.of_nat (length acp) = ddpm_num_timesteps) as Hacp.
  { unfold acp. by rewrite cumprod_length, length_fmap. }
  unfold make_schedule.
  rewrite bind_run. unfold lift at 1. rewrite Hplan.
  rewrite bind_run. unfold setattr at 1.
  rewrite bind_run. unfold lift at 1. rewrite Hbetas.
  rewrite bind_run. unfold py_assert.
  rewrite bool_decide_eq_true_2 by done.
  rewrite ret_run. unfold register_buffer.
  do 8 (rewrite bind_run; unfold setattr at 1).
  rewrite bind_run. unfold get_ints at 1. cbn [self_attrs].
  rewrite !lookup_insert_ne by done. rewrite lookup_insert_eq.
  rewrite bind_run. unfold lift at 1. rewrite Hparams.
  do 4 (rewrite bind_run; unfold setattr at 1).
  rewrite bind_run. unfold get_table at 1. cbn [self_attrs].
  rewrite !lookup_insert_ne by done. rewrite lookup_insert_eq.
  rewrite bind_run. unfold get_table at 1. cbn [self_attrs].
  rewrite !lookup_insert_ne by done. rewrite lookup_insert_eq.
  unfold setattr. fold acp.
  set (prev := #1 :: py_slice_to acp (-1)).
  assert (py_slice_to acp (-1) = take (length acp - 1) acp) as Hslice.
  { unfold py_slice_to. simpl. f_equal. unfold ddpm_num_timesteps in Hacp. lia. }
  assert (Z.of_nat (length prev) = ddpm_num_timesteps) as Hprev.
  { unfold prev. simpl. rewrite Hslice, length_take.
    unfold ddpm_num_timesteps in *. lia. }
  eexists _, acp, prev, _. split; [reflexivity|]. cbn [self_attrs].
  split; [rewrite !lookup_insert_ne by done; by rewrite lookup_insert_eq|].
  split; [rewrite !lookup_insert_ne by done; by rewrite lookup_insert_eq|].
  split; [by rewrite lookup_insert_eq|].
  split; [done|]. split; [done|].
  split.
  { rewrite length_zip_with. unfold ddpm_num_timesteps in *. lia. }
  split; [done|]. split.
  - intros i a Hi Ha. unfold prev. simpl. rewrite Hslice.
    rewrite lookup_take_lt by lia. done.
  - intros i p a Hp Ha. rewrite lookup_zip_with, Hp. simpl. by rewrite Ha.
Qed.

(** *** [sample] *)

(** X16.  A call of [sample] that returns was given a shape of three
    entries and has visited the whole plan that the uniform
    discretization gives for [S] steps: its invocations of the denoising
    service number one evaluation per entry of that plan (one more for
    PLMS), and a callback is called once per entry, in order. *)
Theorem sample_model_call_budget S batch_size shape cond first callback img_callback q eta
    (mask x0 : option T) temp nd sc kw x_T log_every_t scale uc cs s r s' :
  sample S batch_size shape cond first callback img_callback q eta mask x0 temp nd sc kw
    x_T log_every_t scale uc cs s = (Ok r, s') →
  ∃ plan evs,
    make_ddim_timesteps "uniform" S ddpm_num_timesteps = Ok plan
    ∧ length shape = 3%nat
    ∧ trace s' = trace s ++ evs
    ∧ model_calls evs
      = (evaluations_of_run self_sampler (length plan) * calls_per_evaluation uc scale)%nat
    ∧ callback_indices evs
      = (if callback then seqZ 0 (Z.of_nat (length plan)) else []).
Proof.
  unfold sample. intros Hrun. run_split Hrun as u0 s0 Hhead.
  apply check_conditioning_ok in Hhead as ->.
  run_split Hrun as u s1 Hsched. destruct u.
  destruct (self_make_schedule_inv _ _ _ _ Hsched) as (plan & Hplan & Hlookup & Ht1).
  run_split Hrun as size s2 Hsize.
  destruct shape as [|C [|H [|W [|? ?]]]]; try discriminate Hsize.
  rewrite ret_run in Hsize. injection Hsize as <- <-.
  destruct r as [im inter].
  destruct (sampling_fn_run _ _ _ _ _ _ _ _ _ _ _ _ _ _ _ _ _ _ _ _ _ _ Hrun)
    as (st' & evs & _ & _ & _ & Ht & Hc & _ & Hcb & _).
  assert (planned_steps None false s1 = reverse plan) as Hsteps.
  { unfold planned_steps, resolve_timesteps. rewrite bind_run. unfold get_ints.
    by rewrite Hlookup. }
  rewrite Hsteps, length_reverse in Hc, Hcb.
  exists plan, evs. rewrite Ht, Ht1. done.
Qed.

(** X17.  The shape is unpacked only once the schedule has been rebuilt:
    a call of [sample] whose head passes and whose shape has not three
    entries raises [ValueError] without calling a service, but leaves
    the sampler with the plan of the new schedule. *)
Theorem sample_bad_shape S batch_size shape cond first callback img_callback q eta
    (mask x0 : option T) temp nd sc kw x_T log_every_t scale uc cs s s1 :
  check_conditioning cond first s = (Ok (), s) →
  self_make_schedule S "uniform" eta s = (Ok (), s1) →
  length shape ≠ 3%nat →
  sample S batch_size shape cond first callback img_callback q eta mask x0 temp nd sc kw
    x_T log_every_t scale uc cs s = (Raise (ValueError "unpack"), s1)
  ∧ trace s1 = trace s
  ∧ ∃ plan, make_ddim_timesteps "uniform" S ddpm_num_timesteps = Ok plan
            ∧ self_attrs s1 !! "ddim_timesteps" = Some (AInts plan).
Proof.
  intros Hhead Hsched Hshape.
  destruct (self_make_schedule_inv _ _ _ _ Hsched) as (plan & Hplan & Hlookup & Ht1).
  split; [|split; [done | by exists plan]].
  unfold sample. rewrite (bind_ok _ _ _ _ _ Hhead), (bind_ok _ _ _ _ _ Hsched).
  by destruct shape as [|C [|H [|W [|? ?]]]].
Qed.
End further_properties.

(** ** The further properties on concrete runs *)

Section further_runs.
Import Symbolic.

Lemma ddim_step_run : ddim_step (scheduled 5) = (Ok ddim_step_r, ddim_step_s).
Proof. vm_compute. reflexivity. Qed.
Lemma plain_eval_run : plain_eval fresh = (Ok plain_e, plain_s).
Proof. vm_compute. reflexivity. Qed.
Lemma first_step_run : first_step (scheduled 5) = (Ok first_outs, first_s).
Proof. vm_compute. reflexivity. Qed.
Lemma ddim_sampling_run : ddim_sampling (scheduled 5) = (Ok ddim_sampling_r, ddim_sampling_s).
Proof. vm_compute. reflexivity. Qed.
Lemma plms_sampling_run : plms_sampling (scheduled 5) = (Ok plms_sampling_r, plms_sampling_s).
Proof. vm_compute. reflexivity. Qed.
Lemma short_build_run :
  @make_schedule _ _ (Erased.env DDIM 3) 4 "uniform" 0 Erased.fresh
  = (Raise AssertionError, Erased.short_build_s).
Proof. vm_compute. reflexivity. Qed.
Lemma build_run :
  @self_make_schedule _ _ (Erased.env PLMS 1000) 4 "uniform" 0 Erased.fresh
  = (Ok (), Erased.build_s).
Proof. vm_compute. reflexivity. Qed.
Lemma plms_sample_run :
  @sample _ _ (Erased.env PLMS 1000) 4 1 [4; 8; 8] Erased.cond FirstCrossattn true false
    false 0 None None 1 0 None None None 100 1 None None Erased.fresh
  = (Ok Erased.plms_sample_r, Erased.plms_sample_s).
Proof. vm_compute. reflexivity. Qed.

(** Without a hint, a list of scales of the wrong length changes nothing. *)
Lemma apply_model_plain_ignores_scales_witness :
  @apply_model _ _ (env DDIM) (SVar "x") 5 cond_plain (Some [0.5%float]) fresh
  = @apply_model _ _ (env DDIM) (SVar "x") 5 cond_plain None fresh.
Proof.
  exact (proj2 (@apply_model_plain_ignores_scales _ _ (env DDIM) (SVar "x") 5 cond_plain
                  (Some [0.5%float]) fresh eq_refl)).
Defined.

(** A DDIM step without guidance invokes the denoising service once. *)
Lemma ddim_step_single_evaluation_witness :
  ∃ evs, trace ddim_step_s = evs ∧ integrator_only evs ∧ model_calls evs = 1%nat.
Proof.
  pose proof ddim_step_run as Hrun. unfold ddim_step in Hrun.
  destruct (@ddim_step_single_evaluation _ _ (env DDIM) _ _ _ _ _ _ _ _ _ _ _ _ _ _ _ _ _
              Hrun) as (e_t & s1 & evs & _ & _ & Ht & Hi & Hc).
  exists evs. split; [exact Ht|]. split; [exact Hi | exact Hc].
Defined.

(** With a corrector and no keyword options the evaluation fails after
    its one invocation of the denoising service. *)
Lemma score_corrector_checked_late_witness :
  @_get_model_output _ _ (env DDIM) (SVar "x") 5 None 1 (Some corrector) cond_plain None
    None fresh = (Raise TypeError, plain_s)
  ∧ model_calls (trace plain_s) = 1%nat.
Proof.
  pose proof plain_eval_run as Hrun. unfold plain_eval in Hrun.
  destruct (@score_corrector_checked_late _ _ (env DDIM) _ _ _ _ corrector _ _ _ _ _ _ Hrun)
    as (_ & Htype & _).
  split; [exact (Htype eq_refl) | reflexivity].
Defined.

(** On a sampler without schedule the step fails for [ddim_alphas], after
    its invocation of the denoising service. *)
Lemma ddim_step_reads_tables_late_witness :
  @DDIM_p_sampling_fn _ _ (env DDIM) (SVar "x") cond_plain 5 2 false false false 1 0 None
    None 1 None None fresh = (Raise (AttributeError "ddim_alphas"), plain_s)
  ∧ model_calls (trace plain_s) = 1%nat.
Proof.
  pose proof plain_eval_run as Hrun. unfold plain_eval in Hrun.
  destruct (@ddim_step_reads_tables_late _ _ (env DDIM) (SVar "x") cond_plain 5 2 false
              false false 1 0 None None 1 None None fresh plain_e plain_s
              (AttributeError "ddim_alphas") Hrun eq_refl) as [Hfail _].
  split; [exact Hfail | reflexivity].
Defined.

(** The first iteration of a run with [log_every_t = 0] and both
    callbacks. *)
Lemma log_every_zero_fails_after_step_witness :
  ∃ pred_x0,
    @integrate_and_update _ _ (env DDIM) cond_plain false true false true 0 1 0 None None 1
      None None 5 0 41 start None None (SVar "x_T") (scheduled 5)
    = (Raise ZeroDivisionError, log first_s [EvCallback 0; EvImgCallback pred_x0 0]).
Proof.
  pose proof first_step_run as Hrun. unfold first_step in Hrun.
  destruct (@log_every_zero_fails_after_step _ _ (env DDIM) cond_plain false true false
              true 0 1 0 None None 1 None None 5 0 41 start None None (SVar "x_T")
              (scheduled 5) first_outs first_s eq_refl Hrun) as (pred_x0 & _ & Hfail).
  exists pred_x0. exact Hfail.
Defined.

(** A PLMS run over 5 timesteps invokes the denoising service 6 times. *)
Lemma sampling_model_call_budget_witness :
  ∃ evs, trace plms_sampling_s = evs ∧ model_calls evs = 6%nat.
Proof.
  pose proof plms_sampling_run as Hrun. unfold plms_sampling in Hrun.
  destruct plms_sampling_r as [im inter].
  destruct (@sampling_model_call_budget _ _ (env PLMS) _ _ _ _ _ _ _ _ _ _ _ _ _ _ _ _ _ _
              _ _ _ _ Hrun) as (evs & Ht & Hc).
  exists evs. split; [exact Ht | exact Hc].
Defined.

(** The callbacks of the DDIM run over 5 timesteps. *)
Lemma sampling_callbacks_in_order_witness :
  ∃ evs, trace ddim_sampling_s = evs
         ∧ callback_indices evs = [0; 1; 2; 3; 4]
         ∧ (img_callback_calls evs).*2 = [0; 1; 2; 3; 4].
Proof.
  pose proof ddim_sampling_run as Hrun. unfold ddim_sampling in Hrun.
  destruct ddim_sampling_r as [im inter].
  destruct (@sampling_callbacks_in_order _ _ (env DDIM) _ _ _ _ _ _ _ _ _ _ _ _ _ _ _ _ _ _
              _ _ _ _ Hrun) as (evs & Ht & Hcb & Hicb).
  exists evs. split; [exact Ht|]. split; [exact Hcb | exact Hicb].
Defined.

(** The masked DDIM run over 5 timesteps calls [q_sample] 5 times. *)
Lemma sampling_q_sample_per_iteration_witness :
  ∃ evs, trace ddim_sampling_s = evs ∧ q_sample_calls evs = 5%nat.
Proof.
  pose proof ddim_sampling_run as Hrun. unfold ddim_sampling in Hrun.
  destruct ddim_sampling_r as [im inter].
  destruct (@sampling_q_sample_per_iteration _ _ (env DDIM) _ _ _ _ _ _ _ _ _ _ _ _ _ _ _ _
              _ _ _ _ _ _ Hrun) as (evs & Ht & Hq).
  exists evs. split; [exact Ht | exact Hq].
Defined.

(** With [log_every_t = 2] the run over 5 timesteps logs the indices 4,
    2 and 0, that is the iterations 0, 2 and 4. *)
Lemma sampling_intermediates_witness :
  head (x_inter (snd ddim_sampling_r)) = Some (SVar "x_T")
  ∧ length (x_inter (snd ddim_sampling_r)) = 4%nat
  ∧ last (x_inter (snd ddim_sampling_r)) = Some (fst ddim_sampling_r).
Proof.
  pose proof ddim_sampling_run as Hrun. unfold ddim_sampling in Hrun.
  destruct ddim_sampling_r as [im inter].
  destruct (@sampling_intermediates _ _ (env DDIM) _ _ _ _ _ _ _ _ _ _ _ _ _ _ _ _ _ _
              _ _ _ _ Hrun) as (Hhead & _ & Hlen & _ & Hlast).
  split; [exact Hhead|]. split; [exact Hlen | exact Hlast].
Defined.

(** In original-steps mode a request for 0 timesteps returns [x_T],
    even on a sampler without schedule, with a mask without known
    pixels and with [log_every_t = 0]. *)
Lemma sampling_empty_plan_witness :
  @sampling_fn _ _ (env DDIM) cond_plain [1; 4; 8; 8] (Some (SVar "x_T")) true true (Some 0)
    false (Some (SVar "mask")) None true 0 1 0 None None 1 None None fresh
  = (Ok (SVar "x_T", {| x_inter := [SVar "x_T"]; inter_pred_x0 := [SVar "x_T"] |}), fresh).
Proof.
  exact (@sampling_empty_plan _ _ (env DDIM) cond_plain [1; 4; 8; 8] (Some (SVar "x_T")) true
           true (Some 0) false (Some (SVar "mask")) None true 0 1 0 None None 1 None None
           fresh 1 (TsCount 0) eq_refl eq_refl eq_refl).
Defined.

(** A run on a freshly constructed sampler draws its starting noise and
    fails. *)
Lemma sampling_without_schedule_witness :
  @sampling_fn _ _ (env DDIM) cond_plain [1; 4; 8; 8] None false false None false None None
    false 100 1 0 None None 1 None None fresh
  = (Raise (AttributeError "ddim_timesteps"),
     log fresh [EvRandn [1; 4; 8; 8] (SReply "randn" 0 [])]).
Proof.
  exact (proj1 (@sampling_without_schedule _ _ (env DDIM) cond_plain [1; 4; 8; 8] None false
                  false None false None None false 100 1 0 None None 1 None None fresh 1
                  eq_refl eq_refl eq_refl)).
Defined.


(** A beta schedule of 3 entries fails the assertion; the plan of 4
    steps is stored all the same. *)
Lemma make_schedule_failure_keeps_old_tables_witness :
  @make_schedule _ _ (Erased.env DDIM 3) 4 "uniform" 0 Erased.fresh
  = (Raise AssertionError, Erased.short_build_s)
  ∧ self_attrs Erased.short_build_s !! "ddim_timesteps" = Some (AInts [1; 251; 501; 751])
  ∧ self_attrs Erased.short_build_s !! "ddim_alphas" = None.
Proof.
  destruct (@make_schedule_failure_keeps_old_tables _ _ (Erased.env DDIM 3) 4 "uniform" 0
              Erased.fresh [1; 251; 501; 751] AssertionError Erased.short_build_s
              eq_refl short_build_run) as (Hplan & Hkept & _).
  split; [exact short_build_run|]. split; [exact Hplan|].
  apply (Hkept "ddim_alphas"). apply list_elem_of_further, list_elem_of_here.
Defined.

(** The build for 10 steps over symbolic betas. *)
Lemma make_schedule_original_tables_witness :
  ∃ s' prev,
    @make_schedule _ _ (env DDIM) 10 "uniform" 0 fresh = (Ok (), s')
    ∧ self_attrs s' !! "alphas_cumprod_prev" = Some (ATable prev)
    ∧ Z.of_nat (length prev) = 1000
    ∧ prev !! 0%nat = Some (SLit 1).
Proof.
  destruct (@make_schedule_original_tables _ _ (env DDIM) 10 "uniform" 0 fresh
              ((λ i, i * 100 + 1) <$> seqZ 0 10) (table "beta" 1000)
              (table "sigma" 10) (table "alpha" 10) (table "alpha_prev" 10)
              eq_refl eq_refl eq_refl eq_refl)
    as (s' & acp & prev & sigs & Hrun & _ & Hprev & _ & _ & Hlen & _ & Hhead & _).
  exists s', prev. split; [exact Hrun|]. split; [exact Hprev|].
  split; [exact Hlen | exact Hhead].
Defined.

(** A PLMS call of [sample] for 4 steps invokes the denoising service 5
    times and the callback 4 times. *)
Lemma sample_model_call_budget_witness :
  ∃ evs, trace Erased.plms_sample_s = evs
         ∧ model_calls evs = 5%nat
         ∧ callback_indices evs = [0; 1; 2; 3].
Proof.
  destruct (@sample_model_call_budget _ _ (Erased.env PLMS 1000) _ _ _ _ _ _ _ _ _ _ _ _ _
              _ _ _ _ _ _ _ _ _ _ plms_sample_run)
    as (plan & evs & Hplan & _ & Ht & Hc & Hcb).
  injection Hplan as <-.
  exists evs. split; [exact Ht|]. split; [exact Hc | exact Hcb].
Defined.

(** A shape of two entries is refused once the schedule is built. *)
Lemma sample_bad_shape_witness :
  @sample _ _ (Erased.env PLMS 1000) 4 1 [8; 8] Erased.cond FirstCrossattn false false
    false 0 None None 1 0 None None None 100 1 None None Erased.fresh
  = (Raise (ValueError "unpack"), Erased.build_s).
Proof.
  refine (proj1 (@sample_bad_shape _ _ (Erased.env PLMS 1000) 4 1 [8; 8] Erased.cond
                   FirstCrossattn false false false 0 None None 1 0 None None None 100 1
                   None None Erased.fresh Erased.build_s eq_refl build_run _)).
  simpl. lia.
Defined.
End further_runs.
